(** * SpinalSolution: the measurement-session engine of the two sketches

    A shallow embedding of [SpinalSolution_Basic.ino] and
    [SpinalSolution_Advanced.ino]: the streaming regression of
    [measuringMenu1] and [processSlopes], the graph windows of
    [graphColor] and [calculateGraphPosition], and the OpenLog serial
    protocol behind [loadConfig] and [writeConfig].

    Modelling conventions.
    - [float] and [double] values: IEEE-754 special values (infinities and
      not-a-number, division by zero, their propagation) over exact rational
      arithmetic on finite values.  Rounding error, overflow to infinity and
      the sign of zero are not represented.  Where the outcome turns on the
      rounding, the operations are taken in single precision instead
      ([Float32]: each result rounded to 24 significant bits, to nearest,
      ties to even, with overflow to infinity).
    - [int] is taken wide enough for the constants the sketches write
      ([1000000], [300000 / maxlen]): 32-bit two's complement.  [int8_t],
      [uint8_t] and [unsigned long] wrap as in C.  On the board the README
      names, the Arduino Uno, an [int] has 16 bits; where the outcome
      turns on the width, the width is a parameter ([AdvancedAt]).
    - undefined behaviour (an array index out of range, a conversion of a
      non-finite or too large floating value to an integer) is an explicit
      [None] / [Undefined] result.
    - the TFT display is write-only and is left out. *)

From Stdlib Require Import ZArith QArith Qround Qpower Lia Lqa String Ascii.
From stdpp Require Import base option list pretty.

Local Open Scope Z_scope.

(** ** Machine integers *)

Definition wrap_signed (bits : Z) (z : Z) : Z :=
  (z + 2 ^ (bits - 1)) mod 2 ^ bits - 2 ^ (bits - 1).

Definition wrap_unsigned (bits : Z) (z : Z) : Z := z mod 2 ^ bits.

Definition int8 (z : Z) : Z := wrap_signed 8 z.
Definition uint8 (z : Z) : Z := wrap_unsigned 8 z.
Definition int_bits : Z := 32.
Definition int (z : Z) : Z := wrap_signed int_bits z.
Definition ulong (z : Z) : Z := wrap_unsigned 32 z.
Definition INT_MIN : Z := - 2 ^ (int_bits - 1).
Definition INT_MAX : Z := 2 ^ (int_bits - 1) - 1.

(** ** Floating values *)

Inductive float : Type :=
| Fin (q : Q)
| PInf
| NInf
| NaN.

Definition double : Type := float.

Definition of_Z (z : Z) : float := Fin (inject_Z z).

Definition is_finite (a : float) : bool :=
  match a with Fin _ => true | _ => false end.

Definition Qsgn (q : Q) : Z := Z.sgn (Qnum q).

Definition inf_of_sign (s : Z) : float :=
  if s <? 0 then NInf else PInf.

Definition fopp (a : float) : float :=
  match a with
  | Fin q => Fin (Qred (- q))
  | PInf => NInf
  | NInf => PInf
  | NaN => NaN
  end.

Definition fadd (a b : float) : float :=
  match a, b with
  | NaN, _ | _, NaN => NaN
  | Fin x, Fin y => Fin (Qred (x + y))
  | PInf, NInf | NInf, PInf => NaN
  | PInf, _ | _, PInf => PInf
  | NInf, _ | _, NInf => NInf
  end.

Definition fsub (a b : float) : float := fadd a (fopp b).

Definition fsign (a : float) : Z :=
  match a with
  | Fin q => Qsgn q
  | PInf => 1
  | NInf => -1
  | NaN => 0
  end.

Definition fmul (a b : float) : float :=
  match a, b with
  | NaN, _ | _, NaN => NaN
  | Fin x, Fin y => Fin (Qred (x * y))
  | _, _ =>
      if fsign a * fsign b =? 0 then NaN else inf_of_sign (fsign a * fsign b)
  end.

Definition fdiv (a b : float) : float :=
  match a, b with
  | NaN, _ | _, NaN => NaN
  | Fin x, Fin y =>
      if Qsgn y =? 0
      then (if Qsgn x =? 0 then NaN else inf_of_sign (Qsgn x))
      else Fin (Qred (x / y))
  | Fin _, _ => Fin 0
  | _, Fin y => inf_of_sign (fsign a * (if Qsgn y <? 0 then -1 else 1))
  | _, _ => NaN
  end.

Definition flt (a b : float) : bool :=
  match a, b with
  | NaN, _ | _, NaN => false
  | Fin x, Fin y => Qsgn (x - y) <? 0
  | PInf, _ | _, NInf => false
  | NInf, _ | _, PInf => true
  end.

Definition fgt (a b : float) : bool := flt b a.

Definition feq (a b : float) : bool :=
  match a, b with
  | Fin x, Fin y => Qeq_bool x y
  | PInf, PInf | NInf, NInf => true
  | _, _ => false
  end.

Definition fne (a b : float) : bool := negb (feq a b).

Definition fge (a b : float) : bool := flt b a || feq a b.

(** Conversion of a floating value to [int]: the fractional part is
    discarded; undefined when the value is not finite or does not fit. *)
Definition Qtrunc (q : Q) : Z := Z.quot (Qnum q) (Z.pos (Qden q)).

Definition float_to_int (a : float) : option Z :=
  match a with
  | Fin q =>
      let z := Qtrunc q in
      if (INT_MIN <=? z) && (z <=? INT_MAX) then Some z else None
  | _ => None
  end.

(** ** Arrays

    A C array is a list of its declared length; an access outside it is
    undefined. *)

Definition array_get {A} (a : list A) (i : Z) : option A :=
  if 0 <=? i then a !! Z.to_nat i else None.

Definition array_set {A} (a : list A) (i : Z) (v : A) : option (list A) :=
  if (0 <=? i) && (i <? Z.of_nat (length a))
  then Some (<[Z.to_nat i := v]> a)
  else None.

(** ** GraphWindow: [graphColor] and [calculateGraphPosition]
    (advanced sketch) *)

(** The per-channel globals [*XMin], [*XMax], [*XLen] and the array [*X]. *)
Record GraphWindow : Type := mkGraphWindow {
  xMin : float;
  xMax : float;
  xLen : Z;
  xAr : list Z
}.

(** [int8_t rX[46]; int8_t rXLen = 0; float rXMax = -1; float rXMin = -1;] *)
Definition newWindow (size : nat) : GraphWindow :=
  {| xMin := of_Z (-1); xMax := of_Z (-1); xLen := 0; xAr := replicate size 0 |}.

Definition calculateGraphPosition
    (minX maxX : float) (height : Z) (measurement : float) : option Z :=
  if fne minX maxX
  then float_to_int
         (fmul (fdiv (fsub measurement minX) (fsub maxX minX)) (of_Z height))
  else Some 0.

(** [for (int8_t i = 1; i < *xLen-1; i++) xAr[i-1] = xAr[i];] with [n]
    iterations left and the loop counter at [i]. *)
Fixpoint shiftLoop (n : nat) (i : Z) (a : list Z) : option (list Z) :=
  match n with
  | O => Some a
  | S n' =>
      v ← array_get a i;
      a' ← array_set a (i - 1) v;
      shiftLoop n' (i + 1) a'
  end.

(** The data part of [graphColor]; [x], [y] and [color] only reach the
    display. *)
Definition graphColor (w h : Z) (g : GraphWindow) (measurement : float)
  : option GraphWindow :=
  let xMax' :=
    if fgt measurement (xMax g) || feq (xMax g) (of_Z (-1))
    then measurement else xMax g in
  let xMin' :=
    if flt measurement (xMin g) || feq (xMin g) (of_Z (-1))
    then measurement else xMin g in
  p ← calculateGraphPosition xMin' xMax' (h - 1) measurement;
  let result := int8 p in
  if xLen g <? w then
    a ← array_set (xAr g) (xLen g) result;
    Some {| xMin := xMin'; xMax := xMax'; xLen := int8 (xLen g + 1); xAr := a |}
  else
    a ← shiftLoop (Z.to_nat (xLen g - 1 - 1)) 1 (xAr g);
    a' ← array_set a (w - 1) result;
    Some {| xMin := xMin'; xMax := xMax'; xLen := xLen g; xAr := a' |}.

(** Successive calls of [graphColor] on one channel. *)
Fixpoint observeAll (w h : Z) (g : GraphWindow) (ms : list float)
  : option GraphWindow :=
  match ms with
  | [] => Some g
  | m :: ms' => g' ← graphColor w h g m; observeAll w h g' ms'
  end.

(** The positions the window currently plots: [xAr[0 .. xLen-1]]. *)
Definition stored (g : GraphWindow) : list Z := take (Z.to_nat (xLen g)) (xAr g).

(** ** Device state, the OpenLog line and the sketch monad *)

(** What the sketch hands to the OpenLog serial port, call by call. *)
Inductive Event : Type :=
| Print (s : string)       (* [OpenLog.print] of a string or a character *)
| PrintInt (n : Z)         (* [OpenLog.print] of an integer *)
| PrintFloat (f : float)   (* [OpenLog.print] of a floating value *)
| Write (b : Z).           (* [OpenLog.write] of one byte *)

(** [int index; float calibration[6]; int uvCalibration;] *)
Record Config : Type := mkConfig {
  index : Z;
  calibration : list float;
  uvCalibration : Z
}.

(** [float timeAverages[6][10]], [sampleCounter], [averageIndex]. *)
Record Averages : Type := mkAverages {
  timeAverages : list (list float);
  sampleCounter : Z;
  averageIndex : Z
}.

(** The seven graph windows of the advanced sketch; the basic sketch has
    none and never touches this field. *)
Record Graphs : Type := mkGraphs {
  uvG : GraphWindow;
  rG : GraphWindow;
  oG : GraphWindow;
  yG : GraphWindow;
  gG : GraphWindow;
  bG : GraphWindow;
  vG : GraphWindow
}.

(** The globals of a sketch and its serial line.  [rx] lists what each
    successive poll of the line finds: [Some b] when byte [b] is waiting,
    [None] when nothing is; once the list is used up the line stays silent.
    [tx] is what has been sent, oldest first. *)
Record Device : Type := mkDevice {
  config : Config;
  selectState : Z;
  currentMenu : Z;
  currentSelection : Z;
  averages : Averages;
  graphs : Graphs;
  rx : list (option Z);
  tx : list Event
}.

Definition set_config (c : Config) (d : Device) : Device :=
  mkDevice c (selectState d) (currentMenu d) (currentSelection d)
           (averages d) (graphs d) (rx d) (tx d).
Definition set_selectState (v : Z) (d : Device) : Device :=
  mkDevice (config d) v (currentMenu d) (currentSelection d)
           (averages d) (graphs d) (rx d) (tx d).
Definition set_menu (m s : Z) (d : Device) : Device :=
  mkDevice (config d) (selectState d) m s
           (averages d) (graphs d) (rx d) (tx d).
Definition set_averages (a : Averages) (d : Device) : Device :=
  mkDevice (config d) (selectState d) (currentMenu d) (currentSelection d)
           a (graphs d) (rx d) (tx d).
Definition set_graphs (g : Graphs) (d : Device) : Device :=
  mkDevice (config d) (selectState d) (currentMenu d) (currentSelection d)
           (averages d) g (rx d) (tx d).
Definition set_rx (r : list (option Z)) (d : Device) : Device :=
  mkDevice (config d) (selectState d) (currentMenu d) (currentSelection d)
           (averages d) (graphs d) r (tx d).
Definition set_tx (t : list Event) (d : Device) : Device :=
  mkDevice (config d) (selectState d) (currentMenu d) (currentSelection d)
           (averages d) (graphs d) (rx d) t.

(** Where a call ends: it returns ([Done]); it is still waiting when the
    recorded environment ends, so it waits for ever on the silent line or
    has used up the recorded sensor iterations ([Pending]); or it has run
    into undefined behaviour ([Undefined]). *)
Inductive Outcome (A : Type) : Type :=
| Done (a : A) (d : Device)
| Pending (d : Device)
| Undefined.
Arguments Done {A} a d.
Arguments Pending {A} d.
Arguments Undefined {A}.

Definition Sketch (A : Type) : Type := Device -> Outcome A.

Definition ret {A} (a : A) : Sketch A := fun d => Done a d.

Definition bind {A B} (m : Sketch A) (k : A -> Sketch B) : Sketch B :=
  fun d =>
    match m d with
    | Done a d' => k a d'
    | Pending d' => Pending d'
    | Undefined => Undefined
    end.

#[global] Instance sketch_ret : MRet Sketch := @ret.
#[global] Instance sketch_bind : MBind Sketch := fun A B k m => bind m k.

(** A step that reads the device state, and a step given by its effect. *)
Definition reading {A} (k : Device -> Sketch A) : Sketch A := fun d => k d d.
Definition effect {A} (f : Device -> Outcome A) : Sketch A := f.

(** The state a run stops in, when it is defined. *)
Definition final {A} (o : Outcome A) : option Device :=
  match o with
  | Done _ d | Pending d => Some d
  | Undefined => None
  end.

Definition emit (e : Event) : Sketch unit :=
  fun d => Done tt (set_tx (tx d ++ [e]) d).

Definition emits (es : list Event) : Sketch unit :=
  fun d => Done tt (set_tx (tx d ++ es) d).

(** Character codes. *)
Definition codes (s : string) : list Z :=
  map (fun a => Z.of_nat (nat_of_ascii a)) (list_ascii_of_string s).
Definition CR : Z := 13.
Definition LF : Z := 10.
Definition SUB : Z := 26.
Definition PROMPT : Z := 62.    (* '>' *)
Definition ENTRY : Z := 60.     (* '<' *)
Definition COMMA : Z := 44.

Definition configHeader : string := "index,r,o,y,g,b,v,uv".

(** [OpenLog.read()]: the byte waiting on the line, or [-1]. *)
Definition poll_value (p : option Z) : Z :=
  match p with Some b => b | None => -1 end.

(** [waitForChar]: polls until the byte [c] is read. *)
Fixpoint waitFor (c : Z) (r : list (option Z)) : option (list (option Z)) :=
  match r with
  | [] => None
  | Some b :: r' => if b =? c then Some r' else waitFor c r'
  | None :: r' => waitFor c r'
  end.

Definition waitForChar (c : Z) : Sketch unit :=
  fun d =>
    match waitFor c (rx d) with
    | Some r => Done tt (set_rx r d)
    | None => Pending (set_rx [] d)
    end.

(** [waitForRealChar]: polls until a byte other than CR and LF is read. *)
Fixpoint waitReal (r : list (option Z)) : option (Z * list (option Z)) :=
  match r with
  | [] => None
  | Some b :: r' =>
      if negb (int8 b =? LF) && negb (int8 b =? CR)
      then Some (int8 b, r') else waitReal r'
  | None :: r' => waitReal r'
  end.

Definition waitForRealChar : Sketch Z :=
  fun d =>
    match waitReal (rx d) with
    | Some (c, r) => Done c (set_rx r d)
    | None => Pending (set_rx [] d)
    end.

(** [sendSDCommand] (basic sketch), [sdCommand] (advanced sketch). *)
Definition sendSDCommand (command filename : string) (confirmation : Z)
  : Sketch unit :=
  emit (Print command) ;;
  emit (Print " ") ;;
  emit (Print filename) ;;
  emit (Write 13) ;;
  waitForChar confirmation.

Definition sdCommand := sendSDCommand.

Definition gotoCommandMode : Sketch unit :=
  emit (Write 26) ;; emit (Write 26) ;; emit (Write 26) ;;
  waitForChar PROMPT.

Definition writeFile (filename : string) : Sketch unit :=
  sendSDCommand "rm" filename PROMPT ;;
  sendSDCommand "new" filename PROMPT ;;
  sendSDCommand "write" filename ENTRY.

(** Element [i] of a six-channel array. *)
Definition chan (a : list float) (i : nat) : float := nth i a (Fin 0).

Definition writeConfig : Sketch unit :=
  writeFile "config.csv" ;;
  emit (Print configHeader) ;;
  emit (Write CR) ;;
  reading (fun d => emit (PrintInt (index (config d)))) ;;
  reading (fun d =>
    emits (flat_map
             (fun i => [Print ","; PrintFloat (chan (calibration (config d)) i)])
             (seq 0 6))) ;;
  emit (Print ",") ;;
  reading (fun d => emit (PrintInt (uvCalibration (config d)))) ;;
  emit (Write CR) ;;
  emit (Write CR) ;;
  waitForChar PROMPT.

(** ** ConfigStore: [loadConfig], [checkHeader], [readConfigData] *)

(** The [timeOut] loop of [checkHeader], one poll of the line per step:
    a character above zero is compared with [header[filePosition]] and
    resets [timeOut]; anything else ends the inner [while], and the
    thousandth such poll in a row gives up. *)
Fixpoint checkHeaderLoop (header : list Z) (headerlen : Z)
    (r : list (option Z)) (timeOut filePosition : Z)
  : bool * list (option Z) :=
  match r with
  | [] => (false, [])
  | p :: r' =>
      let c := int8 (poll_value p) in
      if 0 <? c then
        if c =? nth (Z.to_nat filePosition) header 0 then
          if filePosition =? headerlen - 1 then (true, r')
          else checkHeaderLoop header headerlen r' 0 (filePosition + 1)
        else (false, r')
      else
        if timeOut + 1 <? 1000
        then checkHeaderLoop header headerlen r' (timeOut + 1) filePosition
        else (false, r')
  end.

Definition checkHeader (header : string) (headerlen : Z) : Sketch bool :=
  waitForChar CR ;;
  waitForChar LF ;;
  effect (fun d =>
    let '(b, r) := checkHeaderLoop (codes header) headerlen (rx d) 0 0 in
    Done b (set_rx r d)).

(** The C library's [atoi] and [atof] on the decimal notation that
    [writeConfig] prints: leading white space, an optional sign, digits,
    and for [atof] an optional fraction. *)
Definition is_space (c : Z) : bool :=
  (c =? 32) || ((9 <=? c) && (c <=? 13)).

Definition is_digit (c : Z) : bool := (48 <=? c) && (c <=? 57).

Fixpoint skip_spaces (s : list Z) : list Z :=
  match s with
  | c :: s' => if is_space c then skip_spaces s' else s
  | [] => []
  end.

(** The digits at the head of [s], as a number, with the rest. *)
Fixpoint read_digits (acc : Z) (s : list Z) : Z * list Z :=
  match s with
  | c :: s' => if is_digit c then read_digits (10 * acc + (c - 48)) s' else (acc, s)
  | [] => (acc, [])
  end.

Definition read_sign (s : list Z) : Z * list Z :=
  match s with
  | 45 :: s' => (-1, s')
  | 43 :: s' => (1, s')
  | _ => (1, s)
  end.

Definition atoi (s : list Z) : Z :=
  let '(sg, s1) := read_sign (skip_spaces s) in
  let '(n, _) := read_digits 0 s1 in
  int (sg * n).

Fixpoint count_digits (s : list Z) : nat :=
  match s with
  | c :: s' => if is_digit c then S (count_digits s') else O
  | [] => O
  end.

Definition atof (s : list Z) : float :=
  let '(sg, s1) := read_sign (skip_spaces s) in
  let '(n, s2) := read_digits 0 s1 in
  match s2 with
  | 46 :: s3 =>
      let '(f, _) := read_digits 0 s3 in
      let k := Z.of_nat (count_digits s3) in
      Fin (Qred (inject_Z sg * (inject_Z n + inject_Z f / inject_Z (10 ^ k))))
  | _ => Fin (inject_Z (sg * n))
  end.

(** [updateGlobalConfig]; [ar] is the field just read. *)
Definition updateGlobalConfig (len : Z) (ar : list Z) (config_index : Z)
    (c : Config) : Config :=
  if config_index =? 0 then
    mkConfig (atoi ar) (calibration c) (uvCalibration c)
  else if (0 <? config_index) && (config_index <? 7) then
    mkConfig (index c)
             (<[Z.to_nat (config_index - 1) := atof ar]> (calibration c))
             (uvCalibration c)
  else if config_index =? 7 then
    mkConfig (index c) (calibration c) (atoi ar)
  else c.

Definition dataBufLen : Z := 10.

(** The [timeOut] loop of [readConfigData].  [dataBuf] holds the [nData]
    characters of the field being read; writing a character or the closing
    NUL at index [dataBufLen] is out of the buffer. *)
Fixpoint readConfigLoop (r : list (option Z)) (timeOut config_index : Z)
    (dataBuf : list Z) (c : Config) : option (Config * list (option Z)) :=
  match r with
  | [] => Some (c, [])
  | p :: r' =>
      let ch := int8 (poll_value p) in
      let nData := Z.of_nat (length dataBuf) in
      if 0 <? ch then
        if (ch =? COMMA) || (ch =? CR) || (ch =? LF) then
          if nData <? dataBufLen then
            let c' := updateGlobalConfig nData dataBuf config_index c in
            if (ch =? CR) || (ch =? LF) then Some (c', r')
            else readConfigLoop r' 0 (uint8 (config_index + 1)) [] c'
          else None
        else
          if nData <? dataBufLen
          then readConfigLoop r' 0 config_index (dataBuf ++ [ch]) c
          else None
      else
        if timeOut + 1 <? 1000
        then readConfigLoop r' (timeOut + 1) config_index dataBuf c
        else Some (c, r')
  end.

Definition readConfigData : Sketch unit :=
  c0 ← waitForRealChar ;
  effect (fun d =>
    match readConfigLoop (rx d) 0 0 [c0] (config d) with
    | Some (c, r) => Done tt (set_rx r (set_config c d))
    | None => Undefined
    end) ;;
  waitForChar PROMPT.

(** [loadConfig] of the basic sketch; the advanced sketch differs only in
    naming the command function [sdCommand]. *)
Definition loadConfig : Sketch unit :=
  sendSDCommand "read" "config.csv" CR ;;
  header ← checkHeader configHeader 20 ;
  if header : bool then readConfigData else writeConfig.

(** The globals as the sketches initialise them. *)
Definition bootConfig : Config := mkConfig 0 (replicate 6 (Fin 0)) 0.

Definition bootAverages : Averages :=
  mkAverages (replicate 6 (replicate 10 (Fin 0))) 0 0.

Definition bootGraphs : Graphs :=
  mkGraphs (newWindow 95) (newWindow 46) (newWindow 47) (newWindow 46)
           (newWindow 47) (newWindow 46) (newWindow 47).

Definition boot (line : list (option Z)) : Device :=
  mkDevice bootConfig 0 0 0 bootAverages bootGraphs line [].

Definition bytes (s : string) : list (option Z) := map Some (codes s).

(** ** StreamingRegression and the Measuring loop: what both sketches share *)

(** What one pass of the [while (true)] loop of [measuringMenu1] finds in
    its environment: [millis() - start_time], the six calibrated spectral
    readings, [analogRead(uvSensorPin)], and the level of [selectPin] at
    each poll of [checkForButtonPress]. *)
Record Iteration : Type := mkIteration {
  it_time : Z;
  it_spec : list float;
  it_uv : Z;
  it_select : nat -> Z
}.

(** The locals of [measuringMenu1] that the loop updates ([past_time]
    exists in the basic sketch only). *)
Record MeasureState : Type := mkMeasureState {
  x2 : double;
  xy : list double;
  datalen : Z;
  initial : list double;
  initialTaken : bool;
  past_time : Z
}.

Definition maxlen : Z := 50.
Definition signal_resolution_multiplier : Z := int 1000000.
Definition time_resolution_multiplier : Z := int 1000.
Definition ms_time : Z := int (300000 / maxlen).

(** [double xy[6] = {0, ...}; double x2 = 0; int datalen = 0;
    boolean initialTaken = false; unsigned long past_time = 0;]
    [initial] is declared without a value and is written before it is read. *)
Definition initState : MeasureState :=
  mkMeasureState (Fin 0) (replicate 6 (Fin 0)) 0 (replicate 6 (Fin 0)) false 0.

(** [current_time / (60000.0 / time_resolution_multiplier)] *)
Definition current_time_total_minutes (current_time : Z) : double :=
  fdiv (of_Z current_time) (fdiv (Fin 60000) (of_Z time_resolution_multiplier)).

(** [((signal_resolution_multiplier * specReadings[i]) / initial[i]) - 1] *)
Definition deviation (reading initial_i : float) : double :=
  fsub (fdiv (fmul (of_Z signal_resolution_multiplier) reading) initial_i)
       (of_Z 1).

(** [if (!initialTaken) { for i: initial[i] = specReadings[i]; ... }] *)
Definition captureInitial (it : Iteration) (st : MeasureState) : MeasureState :=
  if negb (initialTaken st)
  then mkMeasureState (x2 st) (xy st) (datalen st)
                      (map (chan (it_spec it)) (seq 0 6)) true (past_time st)
  else st.

Definition updateTimeAverages (reading : float) (channel : nat) (a : Averages)
  : Averages :=
  let cell := Z.to_nat (averageIndex a) in
  let t1 := alter (alter (fun v => fadd v reading) cell) channel (timeAverages a) in
  let sc := int (sampleCounter a + 1) in
  if 10 <=? sc
  then mkAverages (alter (alter (fun v => fdiv v (of_Z 10)) cell) channel t1)
                  0 ((averageIndex a + 1) mod 10)
  else mkAverages t1 sc (averageIndex a).

(** The sums after an accepted sample at [x]: [x2 += x * x] and, for each
    channel, [xy[i] += deviation * x]. *)
Definition accumulate (x : double) (it : Iteration) (st : MeasureState)
  : double * list double :=
  (fadd (x2 st) (fmul x x),
   map (fun i =>
          fadd (chan (xy st) i)
               (fmul (deviation (chan (it_spec it) i) (chan (initial st) i)) x))
       (seq 0 6)).

Definition averageAll (it : Iteration) (a : Averages) : Averages :=
  fold_left (fun a i => updateTimeAverages (chan (it_spec it) i) i a) (seq 0 6) a.

Definition processSlopes (xy : list double) (x2 : double) : list double :=
  map (fun i => fdiv (chan xy i) x2) (seq 0 6).

Inductive TestResult : Type := NO_LEAK | LEAK_DETECTED | RECOMMEND_FURTHER_TESTING.

Definition calculateConcentration (slopes : list double)
    (timeAverages : list (list float)) : double := Fin 0.

Definition calculateResult (concentration : double) : TestResult := NO_LEAK.

(** The [for] loop of [checkForButtonPress] with [n] polls left, at poll
    [i]: the verdict and the last value stored in [selectState]. *)
Fixpoint buttonLoop (n i : nat) (historicSelectState : Z) (pin : nat -> Z)
    (sel : Z) : bool * Z :=
  match n with
  | O => (false, sel)
  | S n' =>
      let s := int8 (pin i) in
      if (s =? 1) && (historicSelectState =? 0) then (true, s)
      else buttonLoop n' (S i) s pin s
  end.

Definition checkForButtonPress (historicSelectState : Z) (pin : nat -> Z)
  : Sketch bool :=
  fun d =>
    let '(b, s) := buttonLoop 80 0 historicSelectState pin (selectState d) in
    Done b (set_selectState s d).

Definition setHomeMenu : Sketch unit :=
  fun d => Done tt (set_menu 0 0 d).

(** What a Measuring session hands over when it ends. *)
Record Report : Type := mkReport {
  slopes : list double;
  concentration : double;
  result : TestResult
}.

(** How a run of the sampling loop over the recorded iterations ends:
    whether the loop was left, with which locals, after how many passes. *)
Record LoopResult : Type := mkLoopResult {
  exited : bool;
  locals : MeasureState;
  passes : nat;
  after : Device
}.

(** The rows a sample adds to the log, after the [append] command. *)
Definition logRow (current_time : Z) (spec : list float) (uvReading : Z)
  : list Event :=
  [PrintInt current_time]
  ++ flat_map (fun i => [Print ","; PrintFloat (chan spec i)]) (seq 0 6)
  ++ [Print ","; PrintInt uvReading; Write 26; Write 26; Write 26].

Definition logHeader : string := "time,red,orange,yellow,green,blue,violet,uv".

(** ** Calibration, buttons and menus: what both sketches share *)

(** What one pass of the calibration loop reads:
    [analogRead(uvSensorPin)] and the six calibrated spectral readings. *)
Record CalSample : Type := mkCalSample {
  cal_uv : Z;
  cal_spec : list float
}.

(** The [for (uint8_t i = 0; i < 20; i++)] loop of [calibrationMenu]:
    [uvReadings] and [specReadings] after the twenty passes, [uvReadings]
    starting at [uvReadings0]. *)
Definition calibrationSums (uvReadings0 : Z) (env : nat -> CalSample)
  : Z * list float :=
  fold_left
    (fun acc i =>
       (int (fst acc + cal_uv (env i)),
        map (fun k => fadd (chan (snd acc) k) (chan (cal_spec (env i)) k))
            (seq 0 6)))
    (seq 0 20) (uvReadings0, replicate 6 (Fin 0)).

(** [calibration[i] = specReadings[i] / 20;]
    [if (calibration[i] < 0) calibration[i] = 0;] *)
Definition clampedAverage (s : float) : float :=
  let c := fdiv s (of_Z 20) in
  if flt c (of_Z 0) then of_Z 0 else c.

(** [calibrationMenu], from the sums on. *)
Definition calibrate (uvReadings0 : Z) (env : nat -> CalSample) : Sketch unit :=
  effect (fun d =>
    let sums := calibrationSums uvReadings0 env in
    Done tt (set_config
               (mkConfig (index (config d))
                         (map (fun k => clampedAverage (chan (snd sums) k)) (seq 0 6))
                         (int (Z.quot (fst sums) 20)))
               d)) ;;
  writeConfig ;;
  emit (Write CR) ;;
  waitForChar PROMPT.

(** The [while (true)] loop of [buttons]: the levels of [selectPin] and
    [switchPin] at each poll; the value returned (1 for select, 0 for
    switch) with what is left in [selectState] and [switchState], or
    nothing when the recorded polls end first. *)
Fixpoint buttonsLoop (historicSelectState historicSwitchState : Z)
    (polls : list (Z * Z)) : option (Z * Z * Z) :=
  match polls with
  | [] => None
  | (s, w) :: polls' =>
      let selectState := int8 s in
      let switchState := int8 w in
      if (selectState =? 1) && (historicSelectState =? 0)
      then Some (1, selectState, switchState)
      else if (switchState =? 1) && (historicSwitchState =? 0)
           then Some (0, selectState, switchState)
           else buttonsLoop selectState switchState polls'
  end.

(** [buttons]: [first] is the pair of levels read before the loop. *)
Definition buttons (first : Z * Z) (polls : list (Z * Z)) : option (Z * Z * Z) :=
  buttonsLoop (int8 (fst first)) (int8 (snd first)) polls.

(** The switch button: [navigateMenu] in the basic sketch, the first
    branch of [loop] in the advanced one. *)
Definition navigateMenu : Sketch unit :=
  fun d =>
    if currentMenu d =? 0 then
      if currentSelection d =? 1 then Done tt (set_menu (currentMenu d) 0 d)
      else if currentSelection d =? 0 then Done tt (set_menu (currentMenu d) 1 d)
      else Done tt d
    else Done tt d.

Definition setMenu (m : Z) : Sketch unit :=
  fun d => Done tt (set_menu m (currentSelection d) d).

(** The select button, with the Measuring session and the calibration it
    may start given as [measure] and [calibration]: [executeSelection] in
    the basic sketch, the second branch of [loop] in the advanced one. *)
Definition selectWith (measure : Sketch Report) (calibration : Sketch unit)
  : Sketch unit :=
  reading (fun d =>
    if currentMenu d =? 0 then
      if currentSelection d =? 0 then setMenu 1 else setMenu 3
    else if currentMenu d =? 1 then
      setMenu 2 ;; measure ;; mret tt
    else if currentMenu d =? 3 then
      setMenu 5 ;; calibration
    else if currentMenu d =? 5 then setHomeMenu
    else mret tt).

(** [setupSD] after the reset pulse, and [setup] from there on. *)
Definition setupSD : Sketch unit := waitForChar ENTRY.

Definition setup : Sketch unit :=
  setupSD ;; gotoCommandMode ;; loadConfig ;; setHomeMenu.

(** ** The basic sketch *)
Module Basic.

Definition startNewLog : Sketch unit :=
  sendSDCommand "rm" "LOG.CSV" PROMPT ;;
  sendSDCommand "new" "LOG.CSV" PROMPT ;;
  emit (Print "append LOG.CSV") ;;
  emit (Write 13) ;;
  emit (Print logHeader) ;;
  emit (Write 26) ;; emit (Write 26) ;; emit (Write 26).

Definition logData (current_time : Z) (spec : list float) (uvReading : Z)
  : list Event :=
  [Print "append LOG.CSV"; Write 13] ++ logRow current_time spec uvReading.

(** [datalen < maxlen && current_time - past_time > ms_time] *)
Definition accepts (current_time : Z) (st : MeasureState) : bool :=
  (datalen st <? maxlen) && (ms_time <? ulong (current_time - past_time st)).

(** Lines 120 to 136 of one pass: the capture of [initial] and the
    rate-limited update of the sums. *)
Definition sample (it : Iteration) (st : MeasureState) : MeasureState :=
  let st1 := captureInitial it st in
  if accepts (it_time it) st1 then
    let '(x2', xy') :=
      accumulate (current_time_total_minutes (it_time it)) it st1 in
    mkMeasureState x2' xy' (int (datalen st1 + 1)) (initial st1)
                   (initialTaken st1) (it_time it)
  else st1.

Definition sampleDevice (it : Iteration) (st : MeasureState) (d : Device)
  : Device :=
  let d1 := set_tx (tx d ++ logData (it_time it) (it_spec it) (it_uv it)) d in
  if accepts (it_time it) (captureInitial it st)
  then set_averages (averageAll it (averages d1)) d1
  else d1.

(** [current_time_total_minutes >= 5 || checkForButtonPress(...)] *)
Definition leaves (historicSelectState : Z) (it : Iteration) (d : Device)
  : bool * Device :=
  if fge (current_time_total_minutes (it_time it)) (of_Z 5) then (true, d)
  else
    let '(b, s) :=
      buttonLoop 80 0 historicSelectState (it_select it) (selectState d) in
    (b, set_selectState s d).

Fixpoint measuringLoop (historicSelectState : Z) (its : list Iteration)
    (n : nat) (st : MeasureState) (d : Device) : LoopResult :=
  match its with
  | [] => mkLoopResult false st n d
  | it :: its' =>
      let st' := sample it st in
      let '(stop, d') := leaves historicSelectState it (sampleDevice it st d) in
      if stop : bool then mkLoopResult true st' (S n) d'
      else measuringLoop historicSelectState its' (S n) st' d'
  end.

Definition measuringMenu1 (historicSelectState : Z) (its : list Iteration)
  : Sketch Report :=
  startNewLog ;;
  st ← effect (fun d =>
         let r := measuringLoop historicSelectState its 0 initState d in
         if exited r then Done (locals r) (after r) else Pending (after r)) ;
  let slopes := processSlopes (xy st) (x2 st) in
  conc ← reading (fun d =>
           ret (calculateConcentration slopes (timeAverages (averages d)))) ;
  setHomeMenu ;;
  ret (mkReport slopes conc (calculateResult conc)).

(** [int uvReadings;] is declared without a value: [stale] is what the
    variable holds when the loop starts adding to it. *)
Definition calibrationMenu (stale : Z) (env : nat -> CalSample) : Sketch unit :=
  calibrate stale env.

Definition executeSelection (historicSelectState : Z) (its : list Iteration)
    (stale : Z) (env : nat -> CalSample) : Sketch unit :=
  selectWith (measuringMenu1 historicSelectState its) (calibrationMenu stale env).

(** One round of [loop]: [button_pressed] is what [buttons] returned. *)
Definition loopRound (button_pressed : Z) (historicSelectState : Z)
    (its : list Iteration) (stale : Z) (env : nat -> CalSample) : Sketch unit :=
  if button_pressed =? 0 then navigateMenu
  else if button_pressed =? 1
       then executeSelection historicSelectState its stale env
       else mret tt.

End Basic.

(** ** The advanced sketch *)
Module Advanced.

(** [datalen < maxlen && (current_time - (datalen * ms_time)) > ms_time] *)
Definition accepts (current_time : Z) (st : MeasureState) : bool :=
  (datalen st <? maxlen)
  && (ms_time <? ulong (current_time - int (datalen st * ms_time))).

(** Lines 243 to 259 of one pass: the capture of [initial] and the
    rate-limited update of the sums. *)
Definition sample (it : Iteration) (st : MeasureState) : MeasureState :=
  let st1 := captureInitial it st in
  if accepts (it_time it) st1 then
    let '(x2', xy') :=
      accumulate (current_time_total_minutes (it_time it)) it st1 in
    mkMeasureState x2' xy' (int (datalen st1 + 1)) (initial st1)
                   (initialTaken st1) (past_time st1)
  else st1.

(** The seven calls of [graphColor] of one pass, in their order. *)
Definition graphAll (it : Iteration) (g : Graphs) : option Graphs :=
  uv ← graphColor 94 25 (uvG g) (of_Z (it_uv it));
  r ← graphColor 46 18 (rG g) (chan (it_spec it) 0);
  o ← graphColor 47 18 (oG g) (chan (it_spec it) 1);
  y ← graphColor 46 17 (yG g) (chan (it_spec it) 2);
  gr ← graphColor 47 17 (gG g) (chan (it_spec it) 3);
  b ← graphColor 46 17 (bG g) (chan (it_spec it) 4);
  v ← graphColor 47 17 (vG g) (chan (it_spec it) 5);
  Some (mkGraphs uv r o y gr b v).

Definition logData (sampleName : string) (current_time : Z)
    (spec : list float) (uvReading : Z) : list Event :=
  [Print "append "; Print sampleName; Write 13]
  ++ logRow current_time spec uvReading.

(** The globals and the log after one pass, before the exit checks. *)
Definition sampleDevice (sampleName : string) (it : Iteration)
    (st : MeasureState) (d : Device) : option Device :=
  let d1 :=
    if accepts (it_time it) (captureInitial it st)
    then set_averages (averageAll it (averages d)) d
    else d in
  g ← graphAll it (graphs d1);
  Some (set_tx (tx d1 ++ logData sampleName (it_time it) (it_spec it) (it_uv it))
               (set_graphs g d1)).

(** [int8_t current_time_minutes = (current_time / 1000) / 60;] *)
Definition current_time_minutes (current_time : Z) : Z :=
  int8 ((current_time / 1000) / 60).

(** [if (current_time_minutes >= 60) goto escape;]
    [if (checkForButtonPress(historicSelectState)) goto escape;] *)
Definition leaves (historicSelectState : Z) (it : Iteration) (d : Device)
  : bool * Device :=
  if 60 <=? current_time_minutes (it_time it) then (true, d)
  else
    let '(b, s) :=
      buttonLoop 80 0 historicSelectState (it_select it) (selectState d) in
    (b, set_selectState s d).

Fixpoint measuringLoop (sampleName : string) (historicSelectState : Z)
    (its : list Iteration) (n : nat) (st : MeasureState) (d : Device)
  : option LoopResult :=
  match its with
  | [] => Some (mkLoopResult false st n d)
  | it :: its' =>
      let st' := sample it st in
      d1 ← sampleDevice sampleName it st d;
      let '(stop, d') := leaves historicSelectState it d1 in
      if stop : bool then Some (mkLoopResult true st' (S n) d')
      else measuringLoop sampleName historicSelectState its' (S n) st' d'
  end.

(** [char sampleName[16]; sprintf(sampleName, "LOG%d.CSV", index++);] *)
Definition nextSampleName : Sketch string :=
  fun d =>
    let name := ("LOG" ++ pretty (index (config d)) ++ ".CSV")%string in
    if Z.of_nat (String.length name) <? 16 then
      Done name
           (set_config (mkConfig (int (index (config d) + 1))
                                 (calibration (config d))
                                 (uvCalibration (config d))) d)
    else Undefined.

(** The start of [measuringMenu1], up to the sampling loop. *)
Definition startSession : Sketch string :=
  sampleName ← nextSampleName ;
  writeConfig ;;
  sdCommand "rm" sampleName PROMPT ;;
  sdCommand "new" sampleName PROMPT ;;
  emit (Print "append ") ;;
  emit (Print sampleName) ;;
  emit (Write 13) ;;
  emit (Print logHeader) ;;
  emit (Write 26) ;; emit (Write 26) ;; emit (Write 26) ;;
  ret sampleName.

Definition measuringMenu1 (historicSelectState : Z) (its : list Iteration)
  : Sketch Report :=
  sampleName ← startSession ;
  st ← effect (fun d =>
         match measuringLoop sampleName historicSelectState its 0 initState d with
         | Some r =>
             if exited r then Done (locals r) (after r) else Pending (after r)
         | None => Undefined
         end) ;
  emit (Write 13) ;;
  let slopes := processSlopes (xy st) (x2 st) in
  conc ← reading (fun d =>
           ret (calculateConcentration slopes (timeAverages (averages d)))) ;
  setHomeMenu ;;
  ret (mkReport slopes conc (calculateResult conc)).

(** [int uvReadings = 0;] *)
Definition calibrationMenu (env : nat -> CalSample) : Sketch unit :=
  calibrate 0 env.

(** One round of [loop]: [button_pressed] is what [buttons] returned. *)
Definition loopRound (button_pressed : Z) (historicSelectState : Z)
    (its : list Iteration) (env : nat -> CalSample) : Sketch unit :=
  if button_pressed =? 0 then navigateMenu
  else if button_pressed =? 1
       then selectWith (measuringMenu1 historicSelectState its)
                       (calibrationMenu env)
       else mret tt.

End Advanced.

(** * Notions used in the statements *)


(** The locals after the given passes, from the start of a session. *)
Definition runSamples (sample : Iteration -> MeasureState -> MeasureState)
    (its : list Iteration) (st : MeasureState) : MeasureState :=
  fold_left (fun st it => sample it st) its st.

(** The passes at which [initial] is written: those that find
    [initialTaken] false. *)
Fixpoint captures (sample : Iteration -> MeasureState -> MeasureState)
    (its : list Iteration) (st : MeasureState) : nat :=
  match its with
  | [] => O
  | it :: its' =>
      ((if initialTaken st then 0 else 1) + captures sample its' (sample it st))%nat
  end.

(** The passes whose sample is accepted, in order. *)
Fixpoint acceptedPasses (accepts : Z -> MeasureState -> bool)
    (sample : Iteration -> MeasureState -> MeasureState)
    (its : list Iteration) (st : MeasureState) : list Iteration :=
  match its with
  | [] => []
  | it :: its' =>
      (if accepts (it_time it) (captureInitial it st) then [it] else [])
      ++ acceptedPasses accepts sample its' (sample it st)
  end.

(** Both sketches' [sample] either only capture, or capture and add the
    sample to the sums. *)
Definition samples (sample : Iteration -> MeasureState -> MeasureState) : Prop :=
  forall it st,
    let st1 := captureInitial it st in
    sample it st = st1
    \/ (datalen st1 < maxlen
        /\ exists pt,
             sample it st
             = mkMeasureState
                 (fst (accumulate (current_time_total_minutes (it_time it)) it st1))
                 (snd (accumulate (current_time_total_minutes (it_time it)) it st1))
                 (int (datalen st1 + 1)) (initial st1) (initialTaken st1) pt).

(** Without an accepted sample the sums are still zero. *)
Definition untouched (st : MeasureState) : Prop :=
  0 <= datalen st <= maxlen
  /\ (datalen st = 0 -> x2 st = Fin 0 /\ xy st = replicate 6 (Fin 0)).

(** Channel [i] was captured as zero: once a sample is accepted its sum
    is not a finite number. *)
Definition poisoned (i : nat) (st : MeasureState) : Prop :=
  initialTaken st = true
  /\ (exists z, chan (initial st) i = Fin z /\ (z == 0)%Q)
  /\ 0 <= datalen st <= maxlen
  /\ (0 < datalen st -> is_finite (chan (xy st) i) = false).

(** What [sendSDCommand] sends before it waits. *)
Definition command (c f : string) : list Event :=
  [Print c; Print " "; Print f; Write 13].

(** Every state the call can stop in has the configuration it started
    with, and has sent only events that satisfy [P] since. *)
Definition sends (P : Event -> Prop) {A} (m : Sketch A) : Prop :=
  forall d d', final (m d) = Some d' ->
    config d' = config d /\ exists es, tx d' = tx d ++ es /\ Forall P es.


(** Runs whose first events are [pre]. *)
Definition begins (pre : list Event) {A} (m : Sketch A) : Prop :=
  forall d d', final (m d) = Some d' ->
    config d' = config d /\ exists es, tx d' = tx d ++ pre ++ es.

(** A character the polling loops take for data: above zero as a signed
    [char]. *)
Definition textChar (c : Z) : Prop := 0 < c <= 127.

(** What [writeConfig] puts into the file it has opened. *)
Definition configImage (c : Config) : list Event :=
  [Print configHeader; Write CR; PrintInt (index c)]
  ++ flat_map (fun i => [Print ","; PrintFloat (chan (calibration c) i)]) (seq 0 6)
  ++ [Print ","; PrintInt (uvCalibration c); Write CR; Write CR].


(** What a call returns, when it returns. *)
Definition returned {A} (o : Outcome A) : option A :=
  match o with
  | Done a _ => Some a
  | _ => None
  end.

(** ** Scenarios *)

(** [selectPin] stays low. *)
Definition quiet : nat -> Z := fun _ => 0.

(** A pass at elapsed time [t] that reads [r] on every channel. *)
Definition uniform (t r : Z) : Iteration :=
  mkIteration t (replicate 6 (of_Z r)) 0 quiet.

(** Initial reading 100, then readings 110, 120, 130 at one, two and three
    minutes. *)
Definition scenarioA : list Iteration :=
  [uniform 250 100; uniform 60000 110; uniform 120000 120; uniform 180000 130].

(** The position in the words of the specification:
    [round((value - min) / (max - min) * (height - 1))], or 0 when the
    extrema coincide. *)
Definition roundedPosition (minX maxX : Q) (h : Z) (v : Q) : Z :=
  if Qeq_bool minX maxX then 0
  else Qfloor ((v - minX) / (maxX - minX) * inject_Z (h - 1) + (1 # 2)).

(** A report whose slopes are the bare quotients of the sums after some
    number of passes: not-a-number on every channel when nothing was
    accepted, not finite on a channel whose first reading was zero. *)
Definition rawQuotients (sample : Iteration -> MeasureState -> MeasureState)
    (its : list Iteration) (rep : Report) : Prop :=
  exists k, (1 <= k <= length its)%nat /\
    let st := runSamples sample (take k its) initState in
    slopes rep = processSlopes (xy st) (x2 st)
    /\ (datalen st = 0 -> slopes rep = replicate 6 NaN)
    /\ (forall i it z,
          (i < 6)%nat -> head its = Some it ->
          chan (it_spec it) i = Fin z -> (z == 0)%Q -> 0 < datalen st ->
          is_finite (chan (slopes rep) i) = false).

(** The line that answers every command at once: the prompts and the
    entry mark that [writeConfig] and the creation of a log wait for. *)
Definition answers : list (option Z) :=
  map Some [PROMPT; PROMPT; ENTRY; PROMPT; PROMPT; PROMPT].

(** ** Notions used in the further properties *)

(** The extrema of a window are the least and the greatest of [seen]. *)
Definition extremaOf (g : GraphWindow) (seen : list Q) : Prop :=
  exists lo hi,
    xMin g = Fin lo /\ xMax g = Fin hi
    /\ Forall (fun q => (lo <= q)%Q /\ (q <= hi)%Q) seen
    /\ Exists (fun q => (q == lo)%Q) seen
    /\ Exists (fun q => (q == hi)%Q) seen.

(** [sample] adds a pass to the sums exactly when [accepts] holds after
    the capture, and [accepts] holds only below the cap. *)
Definition follows (accepts : Z -> MeasureState -> bool)
    (sample : Iteration -> MeasureState -> MeasureState) : Prop :=
  (forall t st, accepts t st = true -> datalen st < maxlen)
  /\ forall it st,
       let st1 := captureInitial it st in
       exists pt,
         sample it st
         = if accepts (it_time it) st1
           then mkMeasureState
                  (fst (accumulate (current_time_total_minutes (it_time it)) it st1))
                  (snd (accumulate (current_time_total_minutes (it_time it)) it st1))
                  (int (datalen st1 + 1)) (initial st1) (initialTaken st1) pt
           else st1.

(** The sum of x squared over the passes [acc]. *)
Definition sumSquares (acc : list Iteration) : double :=
  fold_left
    (fun s it => fadd s (fmul (current_time_total_minutes (it_time it))
                              (current_time_total_minutes (it_time it))))
    acc (Fin 0).

(** The sum of x times y over the passes [acc] on channel [i], y being the
    deviation from the reading of the pass [first]. *)
Definition sumProducts (i : nat) (first : Iteration) (acc : list Iteration)
  : double :=
  fold_left
    (fun s it => fadd s (fmul (deviation (chan (it_spec it) i)
                                         (chan (it_spec first) i))
                              (current_time_total_minutes (it_time it))))
    acc (Fin 0).

(** The level of [selectPin] before poll [j] of a burst of
    [checkForButtonPress]: the level handed in for the first poll, the
    level read at the poll before for the others. *)
Definition levelBefore (historicSelectState : Z) (pin : nat -> Z) (j : nat) : Z :=
  match j with
  | O => historicSelectState
  | S j' => int8 (pin j')
  end.

(** A rising edge at poll [j]. *)
Definition risingAt (historicSelectState : Z) (pin : nat -> Z) (j : nat) : bool :=
  (int8 (pin j) =? 1) && (levelBefore historicSelectState pin j =? 0).

(** The polls that deliver the characters [cs], the character at place
    [k] after [gaps k] polls that find nothing. *)
Fixpoint withGaps (gaps : nat -> nat) (k : nat) (cs : list Z) : list (option Z) :=
  match cs with
  | [] => []
  | c :: cs' => replicate (gaps k) None ++ Some c :: withGaps gaps (S k) cs'
  end.




(** The mean of twenty readings. *)
Definition meanOf (r : nat -> Q) : Q :=
  fold_left (fun s i => s + r i)%Q (seq 0 20) 0%Q / 20.

(** The sum of twenty ultraviolet readings. *)
Definition uvTotal (env : nat -> CalSample) : Z :=
  fold_left (fun s i => s + cal_uv (env i)) (seq 0 20) 0.

(** Every state the call can stop in shows the menu it started with. *)
Definition keepsMenu {A} (m : Sketch A) : Prop :=
  forall d d', final (m d) = Some d' ->
    currentMenu d' = currentMenu d /\ currentSelection d' = currentSelection d.

(** When the call returns, the home menu is shown with NEW SAMPLE
    selected. *)
Definition endsHome {A} (m : Sketch A) : Prop :=
  forall d a d', m d = Done a d' -> currentMenu d' = 0 /\ currentSelection d' = 0.

(** The menus shown between two rounds of [loop]: the home menu, the two
    confirmation menus and the calibration report, with one of the two
    home entries selected. *)
Definition menuOK (d : Device) : Prop :=
  (currentMenu d = 0 \/ currentMenu d = 1 \/ currentMenu d = 3 \/ currentMenu d = 5)
  /\ (currentSelection d = 0 \/ currentSelection d = 1).

(** What the select button does to the menu. *)
Definition selectTransition (d d' : Device) : Prop :=
  (currentMenu d = 0 ->
     currentMenu d' = (if currentSelection d =? 0 then 1 else 3)
     /\ currentSelection d' = currentSelection d)
  /\ (currentMenu d = 1 -> currentMenu d' = 0 /\ currentSelection d' = 0)
  /\ (currentMenu d = 3 ->
        currentMenu d' = 5 /\ currentSelection d' = currentSelection d)
  /\ (currentMenu d = 5 -> currentMenu d' = 0 /\ currentSelection d' = 0).

(** A rising edge between two successive levels of a button pin. *)
Definition edge (before now : Z) : bool :=
  (int8 now =? 1) && (int8 before =? 0).

(** No poll of [polls] finds a rising edge on either pin, [before] being
    the levels read before the first of them. *)
Fixpoint noEdges (before : Z * Z) (polls : list (Z * Z)) : bool :=
  match polls with
  | [] => true
  | p :: polls' =>
      negb (edge (fst before) (fst p)) && negb (edge (snd before) (snd p))
      && noEdges p polls'
  end.

(** The counters of [updateTimeAverages] are in the range of the table. *)
Definition countersOK (a : Averages) : Prop :=
  0 <= sampleCounter a < 10 /\ 0 <= averageIndex a < 10.

(** What one call of [updateTimeAverages] does to [sampleCounter] and
    [averageIndex]. *)
Definition tick (p : Z * Z) : Z * Z :=
  let sc := int (fst p + 1) in
  if 10 <=? sc then (0, (snd p + 1) mod 10) else (sc, snd p).

Definition ticks (l : list nat) (p : Z * Z) : Z * Z :=
  fold_left (fun p _ => tick p) l p.

Definition digits : list Z := [0; 1; 2; 3; 4; 5; 6; 7; 8; 9].

(** The clock does not run backwards: the passes read [millis()] in
    order, from [t] on, below 2^32. *)
Fixpoint clockFrom (t : Z) (its : list Iteration) : Prop :=
  match its with
  | [] => True
  | it :: its' => t <= it_time it < 2 ^ 32 /\ clockFrom (it_time it) its'
  end.

(** The log rows of the given passes, each after its [append] command. *)
Definition rowsOf (append : Z -> list float -> Z -> list Event)
    (its : list Iteration) : list Event :=
  flat_map (fun it => append (it_time it) (it_spec it) (it_uv it)) its.

(** ** Single precision

    The floating values of the sketches are single-precision numbers: on
    the board a [float] and a [double] are both IEEE-754 binary32, and
    every operation rounds its exact result to 24 significant bits, to
    nearest, ties to even; a result that reaches 2^128 after rounding
    becomes an infinity.  Results below 2^-126 keep their 24 bits here
    (no gradual underflow); this does not reach the position of
    [calculateGraphPosition], where such a quotient gives a product below
    1 either way. *)

(** The integer nearest to [q], the even one at a tie. *)
Definition rne (q : Q) : Z :=
  let f := Qfloor q in
  match (q - inject_Z f ?= 1 # 2)%Q with
  | Lt => f
  | Gt => f + 1
  | Eq => if Z.even f then f else f + 1
  end.

(** The binary exponent of a positive rational:
    [2 ^ ilog2 q <= q < 2 ^ (ilog2 q + 1)]. *)
Definition ilog2 (q : Q) : Z :=
  let k := Z.log2 (Qnum q) - Z.log2 (Z.pos (Qden q)) in
  if Qle_bool (2 ^ k) q then k else k - 1.

(** A positive rational rounded to 24 significant bits. *)
Definition round_pos (q : Q) : Q :=
  let e := ilog2 q - 23 in
  (inject_Z (rne (q / 2 ^ e)) * 2 ^ e)%Q.

(** The single-precision value nearest to [q]. *)
Definition single (q : Q) : Q :=
  let c := Qred q in
  Qred (match Z.compare (Qnum c) 0 with
        | Eq => 0
        | Gt => round_pos c
        | Lt => - round_pos (- c)
        end)%Q.

Definition rounded (a : float) : float :=
  match a with
  | Fin q =>
      let s := single q in
      if Qle_bool (2 ^ 128) s then PInf
      else if Qle_bool s (- 2 ^ 128) then NInf
      else Fin s
  | _ => a
  end.

Module Float32.

Definition sub (a b : float) : float := rounded (fsub a b).
Definition div (a b : float) : float := rounded (fdiv a b).
Definition mul (a b : float) : float := rounded (fmul a b).

(** [if (minX != maxX) return ((measurement - minX)/(maxX-minX)) * height;]
    [return 0;] with the two subtractions, the division and the product
    each rounded to single precision, and the product converted to
    [int]. *)
Definition calculateGraphPosition
    (minX maxX : float) (height : Z) (measurement : float) : option Z :=
  if fne minX maxX
  then float_to_int
         (mul (div (sub measurement minX) (sub maxX minX)) (of_Z height))
  else Some 0.

End Float32.

(** The value of [((v - minX) / (maxX - minX)) * height] as single
    precision computes it. *)
Definition floatProduct (minX maxX : Q) (height : Z) (v : Q) : Q :=
  single (single (single (v - minX) / single (maxX - minX)) * inject_Z height).

(** ** The header as it arrives *)

(** A poll that the loops of [checkHeader] and [readConfigData] take for
    no character: nothing waiting, a NUL, or a byte from 0x80 up, which is
    negative as a [char]. *)
Definition idle (p : option Z) : Prop := int8 (poll_value p) <= 0.

(** Fewer than 1000 polls in a row without a character. *)
Definition pause (g : list (option Z)) : Prop :=
  Forall idle g /\ (length g < 1000)%nat.

(** The characters [cs] as they arrive, the character at place [k] after
    the polls [gaps k]. *)
Fixpoint spaced (gaps : nat -> list (option Z)) (k : nat) (cs : list Z)
  : list (option Z) :=
  match cs with
  | [] => []
  | c :: cs' => gaps k ++ Some c :: spaced gaps (S k) cs'
  end.


(** ** The start of an advanced session *)




(** ** The sampling test of the advanced sketch at a given width of [int]

    [int] values wrap at [bits] bits, as the board's compiler makes a
    signed overflow wrap: the constants [signal_resolution_multiplier],
    [time_resolution_multiplier] and [ms_time], the product
    [datalen * ms_time] and the counter [datalen]. *)
Module AdvancedAt.

Definition ms_time (bits : Z) : Z := wrap_signed bits (300000 / maxlen).

(** [datalen < maxlen && (current_time - (datalen * ms_time)) > ms_time] *)
Definition accepts (bits : Z) (current_time : Z) (st : MeasureState) : bool :=
  (datalen st <? maxlen)
  && (ms_time bits
      <? ulong (current_time - wrap_signed bits (datalen st * ms_time bits))).

(** [current_time / (60000.0 / time_resolution_multiplier)] *)
Definition current_time_total_minutes (bits : Z) (current_time : Z) : double :=
  fdiv (of_Z current_time)
       (fdiv (Fin 60000) (of_Z (wrap_signed bits 1000))).

(** [((signal_resolution_multiplier * specReadings[i]) / initial[i]) - 1] *)
Definition deviation (bits : Z) (reading initial_i : float) : double :=
  fsub (fdiv (fmul (of_Z (wrap_signed bits 1000000)) reading) initial_i)
       (of_Z 1).

Definition accumulate (bits : Z) (x : double) (it : Iteration)
    (st : MeasureState) : double * list double :=
  (fadd (x2 st) (fmul x x),
   map (fun i =>
          fadd (chan (xy st) i)
               (fmul (deviation bits (chan (it_spec it) i) (chan (initial st) i)) x))
       (seq 0 6)).

Definition sample (bits : Z) (it : Iteration) (st : MeasureState)
  : MeasureState :=
  let st1 := captureInitial it st in
  if accepts bits (it_time it) st1 then
    let '(x2', xy') :=
      accumulate bits (current_time_total_minutes bits (it_time it)) it st1 in
    mkMeasureState x2' xy' (wrap_signed bits (datalen st1 + 1)) (initial st1)
                   (initialTaken st1) (past_time st1)
  else st1.

End AdvancedAt.

(** Six samples six seconds apart and more, then four passes one
    millisecond apart. *)
Definition tenPasses : list Iteration :=
  map (fun t => uniform t 100)
      [7000; 13001; 19002; 25003; 31004; 37005; 37006; 37007; 37008; 37009].

(** The exact value of [(v - minX) / (maxX - minX) * height]. *)
Definition exactProduct (minX maxX : Q) (height : Z) (v : Q) : Q :=
  (v - minX) / (maxX - minX) * inject_Z height.

(** * Properties *)

(** * Facts about the arithmetic *)

Lemma Qsgn_neg (q : Q) : (Qsgn q <? 0) = true <-> (q < 0)%Q.
Proof.
  unfold Qsgn, Qlt. simpl. rewrite Z.ltb_lt, Z.mul_1_r.
  destruct (Qnum q); simpl; lia.
Qed.

Lemma Qsgn_zero (q : Q) : (Qsgn q =? 0) = true <-> (q == 0)%Q.
Proof.
  unfold Qsgn, Qeq. simpl. rewrite Z.eqb_eq, Z.mul_1_r.
  destruct (Qnum q); simpl; lia.
Qed.

Lemma flt_Fin (x y : Q) : flt (Fin x) (Fin y) = true <-> (x < y)%Q.
Proof.
  simpl. rewrite Qsgn_neg. split; intros H.
  - apply Qlt_minus_iff in H. 
    apply Qlt_minus_iff. 
    assert (E : (y + - x == 0 + - (x - y))%Q) by ring.
    rewrite E. exact H.
  - apply Qlt_minus_iff. apply Qlt_minus_iff in H.
    assert (E : (0 + - (x - y) == y + - x)%Q) by ring.
    rewrite E. exact H.
Qed.

Lemma flt_Fin_false (x y : Q) : flt (Fin x) (Fin y) = false <-> (y <= x)%Q.
Proof.
  rewrite <- not_true_iff_false, flt_Fin. split.
  - apply Qnot_lt_le.
  - intros H1 H2. exact (Qle_not_lt _ _ H1 H2).
Qed.

Lemma feq_Fin (x y : Q) : feq (Fin x) (Fin y) = true <-> (x == y)%Q.
Proof. simpl. apply Qeq_bool_iff. Qed.

Lemma Qtrunc_between (lo hi : Z) (q : Q) :
  lo <= 0 <= hi -> (inject_Z lo <= q)%Q -> (q <= inject_Z hi)%Q ->
  lo <= Qtrunc q <= hi.
Proof.
  destruct q as [n d]. unfold Qtrunc, Qle. simpl. intros H0 Hlo Hhi.
  rewrite Z.mul_1_r in *.
  destruct (Z.le_gt_cases 0 n) as [Hn | Hn].
  - rewrite Z.quot_div_nonneg by lia. split.
    + pose proof (Z.div_pos n (Z.pos d)). lia.
    + apply Z.div_le_upper_bound; lia.
  - replace n with (- (- n)) by lia. rewrite Z.quot_opp_l by lia.
    rewrite Z.quot_div_nonneg by lia. split.
    + assert ((- n) / Z.pos d <= - lo); [|lia].
      apply Z.div_le_upper_bound; lia.
    + pose proof (Z.div_pos (- n) (Z.pos d)). lia.
Qed.

Lemma Qtrunc_floor (q : Q) : (0 <= q)%Q -> Qtrunc q = Qfloor q.
Proof.
  destruct q as [n d]. unfold Qtrunc, Qfloor, Qle. simpl. intros H.
  apply Z.quot_div_nonneg; lia.
Qed.

(** * GraphWindow *)








Lemma int8_small (z : Z) : -128 <= z <= 127 -> int8 z = z.
Proof.
  intros H. unfold int8, wrap_signed.
  change (2 ^ (8 - 1)) with 128. change (2 ^ 8) with 256.
  rewrite Z.mod_small; lia.
Qed.


Section GraphColorStep.
Variables (w h : Z) (size : nat).
Hypothesis width_fits : 1 <= w <= Z.of_nat size.
Hypothesis width_int8 : w <= 127.
Hypothesis height_int8 : -128 <= h <= 127.




Hypothesis height_pos : 1 <= h.

End GraphColorStep.

(** * Single-precision rounding *)

Lemma rne_cases (q : Q) :
  (rne q = Qfloor q /\ (q - inject_Z (Qfloor q) <= 1 # 2)%Q)
  \/ (rne q = Qfloor q + 1 /\ (1 # 2 <= q - inject_Z (Qfloor q))%Q).
Proof.
  unfold rne. cbv zeta.
  destruct (q - inject_Z (Qfloor q) ?= 1 # 2)%Q eqn:E.
  - apply Qeq_alt in E. destruct (Z.even (Qfloor q)); [left | right];
      (split; [reflexivity | lra]).
  - apply Qlt_alt in E. left. split; [reflexivity | lra].
  - apply Qgt_alt in E. right. split; [reflexivity | lra].
Qed.

Lemma Qfloor_bounds (q : Q) :
  (inject_Z (Qfloor q) <= q)%Q /\ (q < inject_Z (Qfloor q) + 1)%Q.
Proof.
  split; [apply Qfloor_le |].
  pose proof (Qlt_floor q) as H. rewrite inject_Z_plus in H. exact H.
Qed.

Lemma rne_mono (x y : Q) : (x <= y)%Q -> rne x <= rne y.
Proof.
  intros H. pose proof (Qfloor_resp_le x y H) as Hf.
  destruct (Z.eq_dec (Qfloor x) (Qfloor y)) as [E | E].
  - unfold rne. cbv zeta. rewrite E.
    destruct (x - inject_Z (Qfloor y) ?= 1 # 2)%Q eqn:E1;
      destruct (y - inject_Z (Qfloor y) ?= 1 # 2)%Q eqn:E2;
      first [apply Qeq_alt in E1 | apply Qlt_alt in E1 | apply Qgt_alt in E1];
      first [apply Qeq_alt in E2 | apply Qlt_alt in E2 | apply Qgt_alt in E2];
      try (destruct (Z.even (Qfloor y))); try lia; exfalso; lra.
  - destruct (rne_cases x) as [[-> _] | [-> _]];
      destruct (rne_cases y) as [[-> _] | [-> _]]; lia.
Qed.

Lemma rne_inject (n : Z) : rne (inject_Z n) = n.
Proof.
  unfold rne. cbv zeta. rewrite Qfloor_Z.
  replace (inject_Z n - inject_Z n ?= 1 # 2)%Q with Lt; [reflexivity |].
  symmetry. apply (proj1 (Qlt_alt _ _)). lra.
Qed.

Lemma rne_comp (x y : Q) : (x == y)%Q -> rne x = rne y.
Proof.
  intros H. apply Z.le_antisymm; apply rne_mono; rewrite H; apply Qle_refl.
Qed.

(** Powers of two. *)
Lemma pow2_pos (e : Z) : (0 < 2 ^ e)%Q.
Proof. apply Qpower_0_lt. reflexivity. Qed.

Lemma pow2_plus (a b : Z) : (2 ^ (a + b) == 2 ^ a * 2 ^ b)%Q.
Proof. apply Qpower_plus. discriminate. Qed.

Lemma pow2_succ (a : Z) : (2 ^ (a + 1) == 2 * 2 ^ a)%Q.
Proof. rewrite pow2_plus. change (2 ^ 1)%Q with 2%Q. ring. Qed.

Lemma pow2_le (a b : Z) : a <= b -> (2 ^ a <= 2 ^ b)%Q.
Proof. intros H. apply Qpower_le_compat_l; [exact H | discriminate]. Qed.

Lemma pow2_Z (a : Z) : 0 <= a -> (inject_Z (2 ^ a) == 2 ^ a)%Q.
Proof. intros H. apply (Zpower_Qpower 2 a H). Qed.

Lemma Qmake_div (n : Z) (d : positive) : (n # d == inject_Z n / inject_Z (Z.pos d))%Q.
Proof. apply Qmake_Qdiv. Qed.

Lemma ratio_bracket (qn qd qA qB : Q) :
  (0 < qA)%Q -> (0 < qB)%Q ->
  (qA <= qn)%Q -> (qn < 2 * qA)%Q -> (qB <= qd)%Q -> (qd < 2 * qB)%Q ->
  (qA / (2 * qB) < qn / qd)%Q /\ (qn / qd < 2 * qA / qB)%Q.
Proof.
  intros QA QB Q1 Q2 Q3 Q4.
  assert (Qd : (0 < qd)%Q) by lra.
  split.
  - apply Qlt_shift_div_l; [exact Qd |].
    assert (H : (qA * / (2 * qB) * qd < qA * / (2 * qB) * (2 * qB))%Q).
    { apply Qmult_lt_l; [| exact Q4].
      apply Qmult_lt_0_compat; [exact QA |]. apply Qinv_lt_0_compat. lra. }
    assert (H' : (qA * / (2 * qB) * (2 * qB) == qA)%Q) by (field; lra).
    rewrite H' in H. unfold Qdiv. lra.
  - apply Qlt_shift_div_r; [exact Qd |].
    assert (H : (2 * qA / qB * qB <= 2 * qA / qB * qd)%Q).
    { apply Qmult_le_l; [| exact Q3].
      unfold Qdiv. apply Qmult_lt_0_compat; [lra |]. now apply Qinv_lt_0_compat. }
    assert (H' : (2 * qA / qB * qB == 2 * qA)%Q) by (field; lra).
    rewrite H' in H. lra.
Qed.

Lemma inject_Z_pos (z : Z) : 0 < z -> (0 < inject_Z z)%Q.
Proof. intros H. change 0%Q with (inject_Z 0). now rewrite <- Zlt_Qlt. Qed.

(** The quotient of two positive integers lies between the powers of two
    that their binary lengths give. *)
Lemma ratio_log2 (n d : Z) :
  0 < n -> 0 < d ->
  (2 ^ (Z.log2 n - Z.log2 d - 1) < inject_Z n / inject_Z d)%Q
  /\ (inject_Z n / inject_Z d < 2 ^ (Z.log2 n - Z.log2 d + 1))%Q.
Proof.
  intros Hn Hd.
  destruct (Z.log2_spec n Hn) as [Hn1 Hn2].
  destruct (Z.log2_spec d Hd) as [Hd1 Hd2].
  pose proof (Z.log2_nonneg n) as Ln. pose proof (Z.log2_nonneg d) as Ld.
  set (a := Z.log2 n) in *. set (b := Z.log2 d) in *.
  assert (Ha : (inject_Z (2 ^ a) == 2 ^ a)%Q) by (apply pow2_Z; lia).
  assert (Hb : (inject_Z (2 ^ b) == 2 ^ b)%Q) by (apply pow2_Z; lia).
  assert (E1 : (2 ^ (a - b - 1) == 2 ^ a / (2 * 2 ^ b))%Q).
  { replace (a - b - 1) with (a - (b + 1)) by lia.
    rewrite Qpower_minus by discriminate. rewrite pow2_succ. reflexivity. }
  assert (E2 : (2 ^ (a - b + 1) == 2 * 2 ^ a / 2 ^ b)%Q).
  { replace (a - b + 1) with ((a + 1) - b) by lia.
    rewrite Qpower_minus by discriminate. rewrite pow2_succ. reflexivity. }
  rewrite E1, E2, <- Ha, <- Hb.
  rewrite Z.pow_succ_r in Hn2, Hd2 by lia.
  apply ratio_bracket.
  - apply inject_Z_pos. apply Z.pow_pos_nonneg; lia.
  - apply inject_Z_pos. apply Z.pow_pos_nonneg; lia.
  - now rewrite <- Zle_Qle.
  - change 2%Q with (inject_Z 2). rewrite <- inject_Z_mult, <- Zlt_Qlt. exact Hn2.
  - now rewrite <- Zle_Qle.
  - change 2%Q with (inject_Z 2). rewrite <- inject_Z_mult, <- Zlt_Qlt. exact Hd2.
Qed.

Lemma Qle_bool_false (x y : Q) : Qle_bool x y = false -> (y < x)%Q.
Proof.
  intros H. apply Qnot_le_lt. intros Hle. apply Qle_bool_iff in Hle. congruence.
Qed.

Lemma ilog2_spec (q : Q) :
  (0 < q)%Q -> (2 ^ ilog2 q <= q)%Q /\ (q < 2 ^ (ilog2 q + 1))%Q.
Proof.
  intros Hq. unfold ilog2. cbv zeta.
  destruct q as [n d]. cbn [Qnum Qden].
  assert (Hn : 0 < n).
  { unfold Qlt in Hq. cbn in Hq. lia. }
  destruct (ratio_log2 n (Z.pos d) Hn ltac:(lia)) as [L U].
  rewrite <- Qmake_div in L, U.
  set (k := Z.log2 n - Z.log2 (Z.pos d)) in *.
  destruct (Qle_bool (2 ^ k) (n # d)) eqn:E.
  - apply Qle_bool_iff in E. split; [exact E | exact U].
  - apply Qle_bool_false in E. split.
    + apply Qlt_le_weak. exact L.
    + replace (k - 1 + 1) with k by lia. exact E.
Qed.

Lemma ilog2_mono (x y : Q) : (0 < x)%Q -> (x <= y)%Q -> ilog2 x <= ilog2 y.
Proof.
  intros Hx Hxy.
  destruct (ilog2_spec x Hx) as [Lx _].
  destruct (ilog2_spec y ltac:(lra)) as [_ Uy].
  assert (H : (2 ^ ilog2 x < 2 ^ (ilog2 y + 1))%Q) by lra.
  apply Qpower_lt_compat_l_inv in H; [lia | reflexivity].
Qed.

(** The significand of a positive rational. *)
Lemma significand_range (q : Q) :
  (0 < q)%Q ->
  (inject_Z (2 ^ 23) <= q / 2 ^ (ilog2 q - 23))%Q
  /\ (q / 2 ^ (ilog2 q - 23) < inject_Z (2 ^ 24))%Q.
Proof.
  intros Hq. destruct (ilog2_spec q Hq) as [L U].
  set (e := ilog2 q) in *.
  pose proof (pow2_pos (e - 23)) as Pe.
  assert (E1 : (2 ^ e == inject_Z (2 ^ 23) * 2 ^ (e - 23))%Q).
  { rewrite pow2_Z by lia. rewrite <- pow2_plus. now replace (23 + (e - 23)) with e by lia. }
  assert (E2 : (2 ^ (e + 1) == inject_Z (2 ^ 24) * 2 ^ (e - 23))%Q).
  { rewrite pow2_Z by lia. rewrite <- pow2_plus.
    now replace (24 + (e - 23)) with (e + 1) by lia. }
  split.
  - apply Qle_shift_div_l; [exact Pe |]. rewrite <- E1. exact L.
  - apply Qlt_shift_div_r; [exact Pe |]. rewrite <- E2. exact U.
Qed.

Lemma round_pos_bounds (q : Q) :
  (0 < q)%Q ->
  (2 ^ ilog2 q <= round_pos q)%Q /\ (round_pos q <= 2 ^ (ilog2 q + 1))%Q.
Proof.
  intros Hq. destruct (significand_range q Hq) as [L U].
  unfold round_pos. cbv zeta. set (e := ilog2 q) in *.
  pose proof (pow2_pos (e - 23)) as Pe.
  assert (E1 : (2 ^ e == inject_Z (2 ^ 23) * 2 ^ (e - 23))%Q).
  { rewrite pow2_Z by lia. rewrite <- pow2_plus. now replace (23 + (e - 23)) with e by lia. }
  assert (E2 : (2 ^ (e + 1) == inject_Z (2 ^ 24) * 2 ^ (e - 23))%Q).
  { rewrite pow2_Z by lia. rewrite <- pow2_plus.
    now replace (24 + (e - 23)) with (e + 1) by lia. }
  assert (R1 : 2 ^ 23 <= rne (q / 2 ^ (e - 23))).
  { rewrite <- (rne_inject (2 ^ 23)). now apply rne_mono. }
  assert (R2 : rne (q / 2 ^ (e - 23)) <= 2 ^ 24).
  { rewrite <- (rne_inject (2 ^ 24)). apply rne_mono. now apply Qlt_le_weak. }
  rewrite E1, E2. split; apply Qmult_le_compat_r; try (apply Qlt_le_weak; exact Pe);
    now rewrite <- Zle_Qle.
Qed.

Lemma round_pos_mono (x y : Q) :
  (0 < x)%Q -> (x <= y)%Q -> (round_pos x <= round_pos y)%Q.
Proof.
  intros Hx Hxy. assert (Hy : (0 < y)%Q) by lra.
  pose proof (ilog2_mono x y Hx Hxy) as He.
  destruct (Z.eq_dec (ilog2 x) (ilog2 y)) as [E | E].
  - unfold round_pos. cbv zeta. rewrite E.
    pose proof (pow2_pos (ilog2 y - 23)) as Pe.
    apply Qmult_le_compat_r; [| now apply Qlt_le_weak].
    rewrite <- Zle_Qle. apply rne_mono.
    apply Qmult_le_compat_r; [exact Hxy |].
    apply Qlt_le_weak. now apply Qinv_lt_0_compat.
  - destruct (round_pos_bounds x Hx) as [_ Ux].
    destruct (round_pos_bounds y Hy) as [Ly _].
    pose proof (pow2_le (ilog2 x + 1) (ilog2 y) ltac:(lia)) as Hp.
    lra.
Qed.

Lemma round_pos_positive (q : Q) : (0 < q)%Q -> (0 < round_pos q)%Q.
Proof.
  intros Hq. destruct (round_pos_bounds q Hq) as [L _].
  pose proof (pow2_pos (ilog2 q)). lra.
Qed.

Lemma single_comp (x y : Q) : (x == y)%Q -> single x = single y.
Proof. intros H. unfold single. now rewrite (Qred_complete x y H). Qed.

Lemma Qnum_sign (q : Q) :
  (Z.compare (Qnum q) 0 = Eq /\ (q == 0)%Q)
  \/ (Z.compare (Qnum q) 0 = Gt /\ (0 < q)%Q)
  \/ (Z.compare (Qnum q) 0 = Lt /\ (q < 0)%Q).
Proof.
  destruct q as [n d]. cbn [Qnum]. unfold Qeq, Qlt. cbn [Qnum Qden].
  destruct (Z.compare_spec n 0) as [H | H | H];
    [left | right; right | right; left]; split; try reflexivity; lia.
Qed.

Lemma single_cases (q : Q) :
  ((q == 0)%Q /\ (single q == 0)%Q)
  \/ ((0 < q)%Q /\ (single q == round_pos (Qred q))%Q)
  \/ ((q < 0)%Q /\ (single q == - round_pos (- Qred q))%Q).
Proof.
  unfold single. cbv zeta. pose proof (Qred_correct q) as Hr.
  destruct (Qnum_sign (Qred q)) as [[-> H] | [[-> H] | [-> H]]];
    rewrite Qred_correct; rewrite Hr in H;
    [left | right; left | right; right]; split; try exact H; reflexivity.
Qed.

Lemma single_positive (q : Q) : (0 < q)%Q -> (0 < single q)%Q.
Proof.
  intros Hq. destruct (single_cases q) as [[H _] | [[_ ->] | [H _]]]; try lra.
  apply round_pos_positive. now rewrite Qred_correct.
Qed.

Lemma single_negative (q : Q) : (q < 0)%Q -> (single q < 0)%Q.
Proof.
  intros Hq. destruct (single_cases q) as [[H _] | [[H _] | [_ ->]]]; try lra.
  assert (H : (0 < round_pos (- Qred q))%Q).
  { apply round_pos_positive. rewrite Qred_correct. lra. }
  lra.
Qed.

Lemma single_zero (q : Q) : (q == 0)%Q -> (single q == 0)%Q.
Proof.
  intros Hq. destruct (single_cases q) as [[_ H] | [[H _] | [H _]]];
    [exact H | lra | lra].
Qed.

(** Rounding keeps the order. *)
Lemma single_mono (x y : Q) : (x <= y)%Q -> (single x <= single y)%Q.
Proof.
  intros H.
  destruct (single_cases x) as [[Hx Ex] | [[Hx Ex] | [Hx Ex]]];
    destruct (single_cases y) as [[Hy Ey] | [[Hy Ey] | [Hy Ey]]];
    try (exfalso; lra).
  - lra.
  - pose proof (single_positive y Hy). lra.
  - rewrite Ex, Ey. apply round_pos_mono; rewrite !Qred_correct; lra.
  - pose proof (single_negative x Hx). lra.
  - pose proof (single_negative x Hx). pose proof (single_positive y Hy). lra.
  - rewrite Ex, Ey.
    assert (H' : (round_pos (- Qred y) <= round_pos (- Qred x))%Q).
    { apply round_pos_mono; rewrite !Qred_correct; lra. }
    lra.
Qed.

(** The integers up to 127 are single-precision values. *)
Lemma single_small_table :
  forallb (fun n => Qeq_bool (single (inject_Z (Z.of_nat n))) (inject_Z (Z.of_nat n)))
          (seq 0 128) = true.
Proof. vm_compute. reflexivity. Qed.

Lemma single_small (n : Z) : 0 <= n <= 127 -> (single (inject_Z n) == inject_Z n)%Q.
Proof.
  intros H. pose proof single_small_table as T.
  rewrite forallb_forall in T. specialize (T (Z.to_nat n)).
  rewrite Z2Nat.id in T by lia. apply Qeq_bool_iff. apply T.
  apply in_seq. lia.
Qed.

(** * The position in single precision *)

Lemma rounded_Fin (q : Q) :
  (- 2 ^ 128 < single q)%Q -> (single q < 2 ^ 128)%Q ->
  rounded (Fin q) = Fin (single q).
Proof.
  intros L U. unfold rounded. cbv zeta.
  destruct (Qle_bool (2 ^ 128) (single q)) eqn:E1.
  { apply Qle_bool_iff in E1. lra. }
  destruct (Qle_bool (single q) (- 2 ^ 128)) eqn:E2.
  { apply Qle_bool_iff in E2. lra. }
  reflexivity.
Qed.

Lemma single_pow127 : (single (2 ^ 127) == 2 ^ 127)%Q.
Proof. apply Qeq_bool_iff. vm_compute. reflexivity. Qed.

Lemma pow127_lt_pow128 : (2 ^ 127 < 2 ^ 128)%Q.
Proof. apply Qpower_lt_compat_l; [lia | reflexivity]. Qed.

(** A value between 0 and 2^127 stays finite and in that range. *)
Lemma single_in_range (q : Q) :
  (0 <= q)%Q -> (q <= 2 ^ 127)%Q ->
  (0 <= single q)%Q /\ (single q <= 2 ^ 127)%Q
  /\ rounded (Fin q) = Fin (single q).
Proof.
  intros H0 H1.
  pose proof (single_small 0 ltac:(lia)) as S0. change (inject_Z 0) with 0%Q in S0.
  pose proof (single_mono _ _ H0) as M0. pose proof (single_mono _ _ H1) as M1.
  pose proof single_pow127 as E. pose proof pow127_lt_pow128 as P.
  pose proof (pow2_pos 128) as P128.
  split; [lra |]. split; [lra |]. apply rounded_Fin; lra.
Qed.

Lemma pow127_ge_127 : (127 <= 2 ^ 127)%Q.
Proof.
  apply Qle_trans with (2 ^ 7)%Q; [unfold Qle; simpl; lia |].
  apply pow2_le. lia.
Qed.

Lemma floatProduct_range (b t v : Q) (h : Z) :
  (b <= v)%Q -> (v <= t)%Q -> (b < t)%Q -> 0 <= h <= 127 ->
  (0 < single (t - b))%Q
  /\ (0 <= floatProduct b t h v)%Q /\ (floatProduct b t h v <= inject_Z h)%Q.
Proof.
  intros Hb Ht Hlt Hh.
  pose proof (single_small 0 ltac:(lia)) as S0. change (inject_Z 0) with 0%Q in S0.
  pose proof (single_small 1 ltac:(lia)) as S1. change (inject_Z 1) with 1%Q in S1.
  pose proof (single_small h Hh) as Sh.
  assert (P2 : (0 < single (t - b))%Q) by (apply single_positive; lra).
  assert (P1 : (0 <= single (v - b))%Q).
  { rewrite <- S0. apply single_mono. lra. }
  assert (P12 : (single (v - b) <= single (t - b))%Q) by (apply single_mono; lra).
  set (s1 := single (v - b)) in *. set (s2 := single (t - b)) in *.
  assert (R0 : (0 <= s1 / s2)%Q).
  { apply Qle_shift_div_l; [exact P2 | lra]. }
  assert (R1 : (s1 / s2 <= 1)%Q).
  { apply Qle_shift_div_r; [exact P2 | lra]. }
  assert (Q0 : (0 <= single (s1 / s2))%Q).
  { rewrite <- S0. now apply single_mono. }
  assert (Q1 : (single (s1 / s2) <= 1)%Q).
  { rewrite <- S1. now apply single_mono. }
  set (r := single (s1 / s2)) in *.
  assert (Hq : (0 <= inject_Z h)%Q).
  { change 0%Q with (inject_Z 0). rewrite <- Zle_Qle. lia. }
  assert (M0 : (0 <= r * inject_Z h)%Q) by (apply Qmult_le_0_compat; assumption).
  assert (M1 : (r * inject_Z h <= inject_Z h)%Q).
  { rewrite <- (Qmult_1_l (inject_Z h)) at 2. now apply Qmult_le_compat_r. }
  split; [exact P2 |]. unfold floatProduct. fold s1 s2 r.
  pose proof (single_mono _ _ M0) as H0. pose proof (single_mono _ _ M1) as H1.
  split; lra.
Qed.

(** With extrema that are 2^127 apart at most, no operation overflows and
    the call computes the product. *)
Lemma Float32_product (b t v : Q) (h : Z) :
  (b <= v)%Q -> (v <= t)%Q -> (b < t)%Q -> (t - b <= 2 ^ 127)%Q ->
  0 <= h <= 127 ->
  Float32.mul (Float32.div (Float32.sub (Fin v) (Fin b)) (Float32.sub (Fin t) (Fin b)))
              (of_Z h)
  = Fin (floatProduct b t h v).
Proof.
  intros Hb Ht Hlt Hr Hh.
  destruct (floatProduct_range b t v h Hb Ht Hlt Hh) as (P2 & P0 & P1).
  pose proof pow127_ge_127 as P127.
  assert (HH : (inject_Z h <= 127)%Q).
  { change 127%Q with (inject_Z 127). rewrite <- Zle_Qle. lia. }
  assert (HH0 : (0 <= inject_Z h)%Q).
  { change 0%Q with (inject_Z 0). rewrite <- Zle_Qle. lia. }
  (* the two differences *)
  assert (E1 : Float32.sub (Fin v) (Fin b) = Fin (single (v - b))).
  { unfold Float32.sub, fsub, fopp, fadd.
    destruct (single_in_range (v - b) ltac:(lra) ltac:(lra)) as (_ & _ & E).
    rewrite <- E. unfold rounded. cbv zeta.
    rewrite (single_comp (Qred (v + Qred (- b))) (v - b)); [reflexivity |].
    rewrite !Qred_correct. ring. }
  assert (E2 : Float32.sub (Fin t) (Fin b) = Fin (single (t - b))).
  { unfold Float32.sub, fsub, fopp, fadd.
    destruct (single_in_range (t - b) ltac:(lra) ltac:(lra)) as (_ & _ & E).
    rewrite <- E. unfold rounded. cbv zeta.
    rewrite (single_comp (Qred (t + Qred (- b))) (t - b)); [reflexivity |].
    rewrite !Qred_correct. ring. }
  rewrite E1, E2.
  pose proof (single_small 0 ltac:(lia)) as S0. change (inject_Z 0) with 0%Q in S0.
  assert (P1' : (0 <= single (v - b))%Q).
  { rewrite <- S0. apply single_mono. lra. }
  assert (P12 : (single (v - b) <= single (t - b))%Q) by (apply single_mono; lra).
  set (s1 := single (v - b)) in *. set (s2 := single (t - b)) in *.
  assert (R0 : (0 <= s1 / s2)%Q) by (apply Qle_shift_div_l; [exact P2 | lra]).
  assert (R1 : (s1 / s2 <= 1)%Q) by (apply Qle_shift_div_r; [exact P2 | lra]).
  (* the quotient *)
  assert (E3 : Float32.div (Fin s1) (Fin s2) = Fin (single (s1 / s2))).
  { unfold Float32.div, fdiv.
    destruct (Qsgn s2 =? 0) eqn:Ez; [apply Qsgn_zero in Ez; lra |].
    destruct (single_in_range (s1 / s2) R0 ltac:(lra)) as (_ & _ & E).
    rewrite <- E. unfold rounded. cbv zeta.
    rewrite (single_comp (Qred (s1 / s2)) (s1 / s2)); [reflexivity |].
    apply Qred_correct. }
  rewrite E3.
  pose proof (single_small 1 ltac:(lia)) as S1. change (inject_Z 1) with 1%Q in S1.
  assert (Q0 : (0 <= single (s1 / s2))%Q) by (rewrite <- S0; now apply single_mono).
  assert (Q1 : (single (s1 / s2) <= 1)%Q) by (rewrite <- S1; now apply single_mono).
  set (r := single (s1 / s2)) in *.
  (* the product *)
  unfold of_Z, Float32.mul, fmul.
  assert (M0 : (0 <= r * inject_Z h)%Q) by nra.
  assert (M1 : (r * inject_Z h <= 2 ^ 127)%Q) by nra.
  destruct (single_in_range (r * inject_Z h) M0 M1) as (_ & _ & E).
  unfold floatProduct. fold s1 s2 r. rewrite <- E. unfold rounded. cbv zeta.
  rewrite (single_comp (Qred (r * inject_Z h)) (r * inject_Z h)); [reflexivity |].
  apply Qred_correct.
Qed.

(** * The error of single-precision rounding *)

Lemma rne_near (m : Q) :
  (inject_Z (rne m) - m <= 1 # 2)%Q /\ (m - inject_Z (rne m) <= 1 # 2)%Q.
Proof.
  destruct (Qfloor_bounds m) as [L U].
  destruct (rne_cases m) as [[-> H] | [-> H]].
  - split; lra.
  - rewrite inject_Z_plus. change (inject_Z 1) with 1%Q. split; lra.
Qed.

Lemma round_pos_error (q : Q) :
  (0 < q)%Q ->
  (q * (1 - (1 # 16777216)) <= round_pos q)%Q
  /\ (round_pos q <= q * (1 + (1 # 16777216)))%Q.
Proof.
  intros Hq. destruct (significand_range q Hq) as [L _].
  destruct (rne_near (q / 2 ^ (ilog2 q - 23))) as [N1 N2].
  unfold round_pos. cbv zeta.
  pose proof (pow2_pos (ilog2 q - 23)) as Pe.
  set (p := (2 ^ (ilog2 q - 23))%Q) in *.
  set (m := (q / p)%Q) in *.
  assert (Em : (q == m * p)%Q) by (subst m; field; lra).
  change (inject_Z (2 ^ 23)) with (8388608%Q) in L.
  set (z := inject_Z (rne m)) in *.
  rewrite Em. split; nra.
Qed.

Lemma single_error (q : Q) :
  (0 <= q)%Q ->
  (q * (1 - (1 # 16777216)) <= single q)%Q
  /\ (single q <= q * (1 + (1 # 16777216)))%Q.
Proof.
  intros Hq. destruct (single_cases q) as [[H E] | [[H E] | [H _]]]; [| | lra].
  - rewrite E. split; lra.
  - rewrite E. pose proof (Qred_correct q) as Hr.
    destruct (round_pos_error (Qred q)) as [L U]; [lra |].
    split; lra.
Qed.

(** The roundings of the chain move a product of at most 127 by less
    than 2^-14. *)
Lemma rounding_chain (x rho r E pi P H u : Q) :
  (u == 1 # 16777216)%Q ->
  (0 <= x)%Q -> (x <= 1)%Q -> (0 <= H)%Q -> (H <= 127)%Q ->
  (0 <= rho)%Q ->
  (rho * (1 - u) <= x * (1 + u))%Q -> (x * (1 - u) <= rho * (1 + u))%Q ->
  (rho * (1 - u) <= r)%Q -> (r <= rho * (1 + u))%Q ->
  (pi == r * H)%Q -> (E == x * H)%Q ->
  (pi * (1 - u) <= P)%Q -> (P <= pi * (1 + u))%Q ->
  (E - (1 # 16384) <= P)%Q /\ (P <= E + (1 # 16384))%Q.
Proof.
  intros Hu Hx0 Hx1 HH0 HH1 Hrho U1 L1 L2 U2 Hpi HE L3 U3.
  assert (Hr0 : (0 <= r)%Q) by nra.
  (* upper: P (1-u)^2 <= E (1+u)^3 *)
  assert (A1 : (r * (1 - u) <= x * ((1 + u) * (1 + u)))%Q) by nra.
  assert (A2 : (pi * (1 - u) <= E * ((1 + u) * (1 + u)))%Q).
  { rewrite Hpi, HE.
    assert (X : (r * (1 - u) * H <= x * ((1 + u) * (1 + u)) * H)%Q)
      by (apply Qmult_le_compat_r; assumption).
    nra. }
  assert (Hpi0 : (0 <= pi)%Q) by (rewrite Hpi; nra).
  assert (A3 : (P * (1 - u) <= E * ((1 + u) * (1 + u) * (1 + u)))%Q) by nra.
  (* lower: P (1+u)^2 >= E (1-u)^3 *)
  assert (B1 : (x * ((1 - u) * (1 - u)) <= r * (1 + u))%Q) by nra.
  assert (B2 : (E * ((1 - u) * (1 - u)) <= pi * (1 + u))%Q).
  { rewrite Hpi, HE.
    assert (X : (x * ((1 - u) * (1 - u)) * H <= r * (1 + u) * H)%Q)
      by (apply Qmult_le_compat_r; assumption).
    nra. }
  assert (B3 : (E * ((1 - u) * (1 - u) * (1 - u)) <= P * (1 + u))%Q) by nra.
  assert (HE0 : (0 <= E)%Q) by (rewrite HE; nra).
  assert (HE1 : (E <= 127)%Q) by (rewrite HE; nra).
  rewrite Hu in A3, B3. split; nra.
Qed.

(** The single-precision product is within 2^-14 of the exact one. *)
Lemma floatProduct_close (b t v : Q) (h : Z) :
  (b <= v)%Q -> (v <= t)%Q -> (b < t)%Q -> 0 <= h <= 127 ->
  (exactProduct b t h v - (1 # 16384) <= floatProduct b t h v)%Q
  /\ (floatProduct b t h v <= exactProduct b t h v + (1 # 16384))%Q.
Proof.
  intros Hb Ht Hlt Hh.
  assert (HA : (0 <= v - b)%Q) by lra.
  assert (HB : (0 < t - b)%Q) by lra.
  assert (HAB : (v - b <= t - b)%Q) by lra.
  destruct (single_error (v - b) HA) as [L1 U1].
  destruct (single_error (t - b) ltac:(lra)) as [L2 U2].
  destruct (floatProduct_range b t v h Hb Ht Hlt Hh) as (P2 & _ & _).
  set (A := (v - b)%Q) in *. set (B := (t - b)%Q) in *.
  set (s1 := single A) in *. set (s2 := single B) in *.
  assert (Hs1 : (0 <= s1)%Q) by nra.
  set (x := (A / B)%Q). set (rho := (s1 / s2)%Q).
  assert (Ex : (A == x * B)%Q) by (subst x; field; lra).
  assert (Erho : (s1 == rho * s2)%Q) by (subst rho; field; lra).
  assert (Hx0 : (0 <= x)%Q) by (subst x; apply Qle_shift_div_l; lra).
  assert (Hx1 : (x <= 1)%Q) by (subst x; apply Qle_shift_div_r; lra).
  assert (Hrho : (0 <= rho)%Q) by (subst rho; apply Qle_shift_div_l; lra).
  destruct (single_error rho Hrho) as [L3 U3].
  assert (HH0 : (0 <= inject_Z h)%Q).
  { change 0%Q with (inject_Z 0). rewrite <- Zle_Qle. lia. }
  assert (HH1 : (inject_Z h <= 127)%Q).
  { change 127%Q with (inject_Z 127). rewrite <- Zle_Qle. lia. }
  assert (Hpi0 : (0 <= single rho * inject_Z h)%Q) by nra.
  destruct (single_error (single rho * inject_Z h) Hpi0) as [L4 U4].
  assert (R1 : (rho * (1 - (1 # 16777216)) <= x * (1 + (1 # 16777216)))%Q).
  { assert (Y : (B * (rho * (1 - (1 # 16777216)) - x * (1 + (1 # 16777216))) <= 0)%Q)
      by nra.
    nra. }
  assert (R2 : (x * (1 - (1 # 16777216)) <= rho * (1 + (1 # 16777216)))%Q).
  { assert (Y : (B * (x * (1 - (1 # 16777216)) - rho * (1 + (1 # 16777216))) <= 0)%Q)
      by nra.
    nra. }
  unfold floatProduct, exactProduct. fold A B s1 s2 rho x.
  apply (rounding_chain x rho (single rho) (x * inject_Z h)
           (single rho * inject_Z h) _ (inject_Z h) (1 # 16777216));
    try assumption; reflexivity.
Qed.

(** * The Measuring loop *)

Lemma Basic_samples : samples Basic.sample.
Proof.
  intros it st st1. unfold Basic.sample. fold st1.
  destruct (Basic.accepts (it_time it) st1) eqn:E; [right | left; reflexivity].
  unfold Basic.accepts in E. apply andb_true_iff in E. destruct E as [E _].
  apply Z.ltb_lt in E. split; [exact E |]. eexists. reflexivity.
Qed.

Lemma Advanced_samples : samples Advanced.sample.
Proof.
  intros it st st1. unfold Advanced.sample. fold st1.
  destruct (Advanced.accepts (it_time it) st1) eqn:E; [right | left; reflexivity].
  unfold Advanced.accepts in E. apply andb_true_iff in E. destruct E as [E _].
  apply Z.ltb_lt in E. split; [exact E |]. eexists. reflexivity.
Qed.

Lemma captureInitial_taken it st :
  initialTaken (captureInitial it st) = true.
Proof. unfold captureInitial. destruct (initialTaken st) eqn:E; simpl; auto. Qed.

Lemma captureInitial_initial it st :
  initial (captureInitial it st)
  = if initialTaken st then initial st else map (chan (it_spec it)) (seq 0 6).
Proof. unfold captureInitial. destruct (initialTaken st); reflexivity. Qed.

Section Samples.
Variable sample : Iteration -> MeasureState -> MeasureState.
Hypothesis sample_ok : samples sample.

Lemma sample_taken it st : initialTaken (sample it st) = true.
Proof.
  destruct (sample_ok it st) as [-> | (_ & pt & ->)];
    [| cbn [initialTaken]]; apply captureInitial_taken.
Qed.

Lemma sample_initial it st :
  initial (sample it st)
  = if initialTaken st then initial st else map (chan (it_spec it)) (seq 0 6).
Proof.
  destruct (sample_ok it st) as [-> | (_ & pt & ->)];
    [| cbn [initial]]; apply captureInitial_initial.
Qed.

Lemma run_keeps_initial its : forall st,
  initialTaken st = true ->
  initialTaken (runSamples sample its st) = true
  /\ initial (runSamples sample its st) = initial st.
Proof.
  induction its as [| it its IH]; intros st Ht; [now split |].
  cbn [runSamples fold_left].
  destruct (IH (sample it st) (sample_taken it st)) as [H1 H2].
  split; [exact H1 |]. unfold runSamples in H2. rewrite H2.
  rewrite sample_initial, Ht. reflexivity.
Qed.

Lemma captures_taken its : forall st,
  initialTaken st = true -> captures sample its st = O.
Proof.
  induction its as [| it its IH]; intros st Ht; [reflexivity |].
  cbn [captures]. rewrite Ht, (IH _ (sample_taken it st)). reflexivity.
Qed.

(** The initial reading is that of the first pass, and it is written
    once. *)
Lemma initial_from_first_pass it its :
  let st := runSamples sample (it :: its) initState in
  initialTaken st = true
  /\ initial st = map (chan (it_spec it)) (seq 0 6)
  /\ captures sample (it :: its) initState = 1%nat.
Proof.
  cbn zeta. cbn [runSamples fold_left captures].
  destruct (run_keeps_initial its (sample it initState) (sample_taken _ _))
    as [H1 H2].
  split; [exact H1 |]. split.
  - unfold runSamples in H2. rewrite H2, sample_initial. reflexivity.
  - cbn [initState initialTaken]. now rewrite captures_taken by apply sample_taken.
Qed.
End Samples.

(** ** The loop and its locals *)

Lemma runSamples_snoc sample its it st :
  runSamples sample (its ++ [it]) st = sample it (runSamples sample its st).
Proof. unfold runSamples. now rewrite fold_left_app. Qed.

(** The locals the basic loop ends with are those of the passes it made. *)
Lemma Basic_loop_locals sel (its : list Iteration) : forall n st d,
  let r := Basic.measuringLoop sel its n st d in
  exists k, passes r = (n + k)%nat /\ (k <= length its)%nat
            /\ (exited r = true \/ its <> [] -> (1 <= k)%nat)
            /\ locals r = runSamples Basic.sample (take k its) st.
Proof.
  induction its as [| it its IH]; intros n st d; cbn zeta.
  - exists O. cbn. repeat split; try lia. intros [H | H]; [discriminate | congruence].
  - cbn [Basic.measuringLoop].
    destruct (Basic.leaves sel it (Basic.sampleDevice it st d)) as [stop d'].
    destruct stop.
    + exists 1%nat. cbn. repeat split; lia.
    + destruct (IH (S n) (Basic.sample it st) d') as (k & H1 & H2 & H3 & H4).
      exists (S k). rewrite H1, H4. cbn [length take runSamples fold_left].
      repeat split; lia.
Qed.

Lemma Advanced_loop_locals name sel (its : list Iteration) : forall n st d r,
  Advanced.measuringLoop name sel its n st d = Some r ->
  exists k, passes r = (n + k)%nat /\ (k <= length its)%nat
            /\ (exited r = true \/ its <> [] -> (1 <= k)%nat)
            /\ locals r = runSamples Advanced.sample (take k its) st.
Proof.
  induction its as [| it its IH]; intros n st d r; cbn [Advanced.measuringLoop].
  - intros [= <-]. exists O. cbn. repeat split; try lia.
    intros [H | H]; [discriminate | congruence].
  - destruct (Advanced.sampleDevice name it st d) as [d1 |]; [| discriminate].
    cbn [mbind option_bind].
    destruct (Advanced.leaves sel it d1) as [stop d'].
    destruct stop.
    + intros [= <-]. exists 1%nat. cbn. repeat split; lia.
    + intros Hr. destruct (IH _ _ _ _ Hr) as (k & H1 & H2 & H3 & H4).
      exists (S k). rewrite H1, H4. cbn [length take runSamples fold_left].
      repeat split; lia.
Qed.

(** ** The exit check of the basic sketch *)

Lemma minutes_value (t : Z) :
  current_time_total_minutes t = Fin (Qred (inject_Z t / 60)).
Proof. reflexivity. Qed.

Lemma basic_ceiling (t : Z) :
  fge (current_time_total_minutes t) (of_Z 5) = (300 <=? t).
Proof.
  rewrite minutes_value. unfold fge, of_Z.
  assert (E : (Qred (inject_Z t / 60) == t # 60)%Q).
  { rewrite Qred_correct. unfold Qeq, Qdiv, Qmult, Qinv, inject_Z. simpl. lia. }
  destruct (300 <=? t) eqn:Ht.
  - apply Z.leb_le in Ht. apply orb_true_iff.
    destruct (Z.eq_dec t 300) as [-> | Hne].
    + right. apply feq_Fin. reflexivity.
    + left. apply flt_Fin. rewrite E. unfold Qlt, inject_Z. simpl. lia.
  - apply Z.leb_gt in Ht. apply orb_false_iff. split.
    + apply flt_Fin_false. rewrite E. unfold Qle, inject_Z. simpl. lia.
    + apply not_true_iff_false. rewrite feq_Fin, E.
      unfold Qeq, inject_Z. simpl. lia.
Qed.

Lemma buttonLoop_quiet (n : nat) : forall i h s,
  fst (buttonLoop n i h (fun _ => 0) s) = false.
Proof.
  induction n as [| n IH]; intros i h s; [reflexivity |].
  cbn [buttonLoop]. change (int8 0) with 0. cbn. apply IH.
Qed.

(** With no select edge, the basic loop is left at the first pass whose
    elapsed time has reached 300 milliseconds. *)
Lemma Basic_leaves_at_300ms sel it d :
  it_select it = (fun _ => 0) ->
  fst (Basic.leaves sel it d) = (300 <=? it_time it).
Proof.
  intros Hq. unfold Basic.leaves. rewrite basic_ceiling.
  destruct (300 <=? it_time it); [reflexivity |].
  rewrite Hq.
  pose proof (buttonLoop_quiet 80 0 sel (selectState d)) as Hb.
  destruct (buttonLoop 80 0 sel (fun _ => 0) (selectState d)) as [b s].
  exact Hb.
Qed.

(** ** Division by zero in the regression *)

Lemma fadd_nonfinite_r a b : is_finite b = false -> is_finite (fadd a b) = false.
Proof. destruct a, b; simpl; congruence. Qed.

Lemma fmul_nonfinite_l a b : is_finite a = false -> is_finite (fmul a b) = false.
Proof.
  destruct a, b; simpl; try congruence; intros _;
    unfold inf_of_sign;
    repeat match goal with |- context [if ?c then _ else _] => destruct c end;
    reflexivity.
Qed.

Lemma fsub_nonfinite_l a b : is_finite a = false -> is_finite (fsub a b) = false.
Proof. destruct a, b; simpl; congruence. Qed.

Lemma fdiv_nonfinite_l a b : is_finite a = false -> is_finite (fdiv a b) = false.
Proof.
  destruct a, b; simpl; try congruence; intros _;
    unfold inf_of_sign;
    repeat match goal with |- context [if ?c then _ else _] => destruct c end;
    reflexivity.
Qed.

Lemma fdiv_by_zero a (z : Q) : (z == 0)%Q -> is_finite (fdiv a (Fin z)) = false.
Proof.
  intros Hz. apply Qsgn_zero in Hz.
  destruct a; simpl; rewrite ?Hz; unfold inf_of_sign;
    repeat match goal with |- context [if ?c then _ else _] => destruct c end;
    reflexivity.
Qed.

Lemma deviation_by_zero r (z : Q) :
  (z == 0)%Q -> is_finite (deviation r (Fin z)) = false.
Proof.
  intros Hz. unfold deviation. apply fsub_nonfinite_l. now apply fdiv_by_zero.
Qed.

Lemma chan_map (f : nat -> float) (i : nat) :
  (i < 6)%nat -> chan (map f (seq 0 6)) i = f i.
Proof.
  intros H. unfold chan.
  do 6 (destruct i as [| i]; [reflexivity |]). lia.
Qed.

Lemma int_small (z : Z) : 0 <= z <= maxlen -> int z = z.
Proof.
  intros H. unfold int, wrap_signed, int_bits, maxlen in *.
  rewrite Z.mod_small; simpl; lia.
Qed.

Lemma captureInitial_sums it st :
  x2 (captureInitial it st) = x2 st /\ xy (captureInitial it st) = xy st
  /\ datalen (captureInitial it st) = datalen st.
Proof. unfold captureInitial. destruct (initialTaken st); now cbn. Qed.

Section Division.
Variable sample : Iteration -> MeasureState -> MeasureState.
Hypothesis sample_ok : samples sample.

Lemma sample_untouched it st : untouched st -> untouched (sample it st).
Proof.
  intros [Hd Hz]. destruct (captureInitial_sums it st) as (E1 & E2 & E3).
  destruct (sample_ok it st) as [-> | (Hlt & pt & ->)]; unfold untouched.
  - rewrite E1, E2, E3. now split.
  - cbn [datalen x2 xy]. rewrite E3 in *. rewrite int_small by lia.
    split; lia.
Qed.

Lemma run_untouched its : forall st,
  untouched st -> untouched (runSamples sample its st).
Proof.
  induction its as [| it its IH]; intros st H; [exact H |].
  cbn [runSamples fold_left]. apply IH. now apply sample_untouched.
Qed.

Lemma no_sample_all_nan its :
  let st := runSamples sample its initState in
  datalen st = 0 -> processSlopes (xy st) (x2 st) = replicate 6 NaN.
Proof.
  cbn zeta. intros H0.
  destruct (run_untouched its initState) as [_ Hz].
  { split; [cbn; unfold maxlen; lia | intros _; split; reflexivity]. }
  destruct (Hz H0) as [-> ->]. reflexivity.
Qed.

Lemma sample_poisoned i it st :
  (i < 6)%nat -> poisoned i st -> poisoned i (sample it st).
Proof.
  intros Hi (Ht & (z & Hz & Hz0) & Hd & Hx).
  destruct (captureInitial_sums it st) as (E1 & E2 & E3).
  pose proof (captureInitial_initial it st) as Ei. rewrite Ht in Ei.
  pose proof (captureInitial_taken it st) as Et.
  destruct (sample_ok it st) as [-> | (Hlt & pt & ->)]; unfold poisoned.
  - rewrite Et, Ei, E2, E3. repeat split; try assumption; try lia.
    exists z. now split.
  - cbn [initialTaken initial datalen xy accumulate snd].
    rewrite Et, Ei, E3 in *. rewrite int_small by lia.
    repeat split; try lia. { exists z. now split. }
    intros _. rewrite chan_map by exact Hi.
    apply fadd_nonfinite_r, fmul_nonfinite_l.
    rewrite Hz. now apply deviation_by_zero.
Qed.

Lemma run_poisoned i its : forall st,
  (i < 6)%nat -> poisoned i st -> poisoned i (runSamples sample its st).
Proof.
  induction its as [| it its IH]; intros st Hi H; [exact H |].
  cbn [runSamples fold_left]. apply IH; [exact Hi |].
  now apply sample_poisoned.
Qed.

Lemma first_pass_poisoned i it (z : Q) :
  (i < 6)%nat -> chan (it_spec it) i = Fin z -> (z == 0)%Q ->
  poisoned i (sample it initState).
Proof.
  intros Hi Hz Hz0.
  assert (Hc : poisoned i (captureInitial it initState)).
  { unfold poisoned, captureInitial. cbn.
    repeat split; try (unfold maxlen; lia).
    exists z. split; [| exact Hz0].
    change (chan (map (chan (it_spec it)) (seq 0 6)) i = Fin z).
    now rewrite chan_map. }
  destruct Hc as (Ht & (z' & Hz' & Hz0') & Hd & Hx).
  destruct (captureInitial_sums it initState) as (E1 & E2 & E3).
  destruct (sample_ok it initState) as [-> | (Hlt & pt & ->)]; unfold poisoned.
  - repeat split; try assumption; try lia. exists z'. now split.
  - cbn [initialTaken initial datalen xy accumulate snd].
    rewrite int_small by lia.
    repeat split; try assumption; try lia. { exists z'. now split. }
    intros _. rewrite chan_map by exact Hi.
    apply fadd_nonfinite_r, fmul_nonfinite_l.
    rewrite Hz'. now apply deviation_by_zero.
Qed.

Lemma zero_initial_slope_not_finite i it its (z : Q) :
  let st := runSamples sample (it :: its) initState in
  (i < 6)%nat -> chan (it_spec it) i = Fin z -> (z == 0)%Q ->
  0 < datalen st ->
  is_finite (chan (processSlopes (xy st) (x2 st)) i) = false.
Proof.
  cbn zeta. intros Hi Hz Hz0 Hd.
  destruct (run_poisoned i its (sample it initState) Hi
              (first_pass_poisoned i it z Hi Hz Hz0)) as (_ & _ & _ & Hx).
  unfold processSlopes. rewrite chan_map by exact Hi.
  apply fdiv_nonfinite_l. apply Hx. exact Hd.
Qed.
End Division.

(** * The serial line *)

Lemma bind_Done {A B} (m : Sketch A) (k : A -> Sketch B) d a d1 :
  m d = Done a d1 -> (m ≫= k) d = k a d1.
Proof. intros H. unfold mbind, sketch_bind, bind. now rewrite H. Qed.

Lemma bind_Pending {A B} (m : Sketch A) (k : A -> Sketch B) d d1 :
  m d = Pending d1 -> (m ≫= k) d = Pending d1.
Proof. intros H. unfold mbind, sketch_bind, bind. now rewrite H. Qed.

Lemma bind_Undefined {A B} (m : Sketch A) (k : A -> Sketch B) d :
  m d = Undefined -> (m ≫= k) d = Undefined.
Proof. intros H. unfold mbind, sketch_bind, bind. now rewrite H. Qed.

Lemma sendSDCommand_sent c f ch d :
  sendSDCommand c f ch d
  = waitForChar ch (set_tx (tx d ++ command c f) d).
Proof.
  unfold sendSDCommand, mbind, sketch_bind, bind, emit, command. cbn.
  rewrite <- !app_assoc. reflexivity.
Qed.

Lemma sendSDCommand_answered c f ch d r :
  waitFor ch (rx d) = Some r ->
  sendSDCommand c f ch d = Done tt (set_rx r (set_tx (tx d ++ command c f) d)).
Proof.
  intros H. rewrite sendSDCommand_sent. unfold waitForChar. cbn. now rewrite H.
Qed.

(** ** Runs that only add to what has been sent *)

Lemma sends_ret P {A} (a : A) : sends P (mret a).
Proof.
  intros d d' [= <-]. split; [reflexivity |]. exists []. 
  split; [now rewrite app_nil_r | constructor].
Qed.

Lemma sends_bind P {A B} (m : Sketch A) (k : A -> Sketch B) :
  sends P m -> (forall a, sends P (k a)) -> sends P (m ≫= k).
Proof.
  intros Hm Hk d d'. unfold mbind, sketch_bind, bind.
  destruct (m d) as [a d1 | d1 |] eqn:E.
  - intros H. destruct (Hm d d1) as (Hc & es1 & Ht & HP); [now rewrite E |].
    destruct (Hk a d1 d' H) as (Hc' & es2 & Ht' & HP').
    split; [congruence |]. exists (es1 ++ es2).
    split; [rewrite Ht', Ht; now rewrite app_assoc | now apply Forall_app].
  - intros [= <-]. apply Hm. now rewrite E.
  - discriminate.
Qed.

Lemma sends_emit P e : P e -> sends P (emit e).
Proof.
  intros H d d' [= <-]. split; [reflexivity |]. exists [e].
  split; [reflexivity | now constructor].
Qed.

Lemma sends_emits P es : Forall P es -> sends P (emits es).
Proof.
  intros H d d' [= <-]. split; [reflexivity |]. exists es. now split.
Qed.

Lemma sends_waitForChar P c : sends P (waitForChar c).
Proof.
  intros d d'. unfold waitForChar.
  destruct (waitFor c (rx d)); intros [= <-];
    (split; [reflexivity |]; exists []; split; [now rewrite app_nil_r | constructor]).
Qed.

Lemma sends_reading P {A} (k : Device -> Sketch A) :
  (forall d0, sends P (k d0)) -> sends P (reading k).
Proof. intros H d d'. unfold reading. apply H. Qed.


Lemma sends_setHomeMenu P : sends P setHomeMenu.
Proof.
  intros d d' [= <-]. split; [reflexivity |]. exists [].
  split; [now rewrite app_nil_r | constructor].
Qed.

Lemma sends_weaken (P Q : Event -> Prop) {A} (m : Sketch A) :
  (forall e, P e -> Q e) -> sends P m -> sends Q m.
Proof.
  intros HPQ Hm d d' H. destruct (Hm d d' H) as (Hc & es & Ht & HP).
  split; [exact Hc |]. exists es. split; [exact Ht |].
  eapply Forall_impl; eauto.
Qed.

(** ** Configuration writes during a Measuring session *)





Ltac sends_any :=
  repeat first
    [ apply sends_ret
    | apply sends_emit; exact I
    | apply sends_emits; apply Forall_true; intros; exact I
    | apply sends_waitForChar
    | apply sends_setHomeMenu
    | apply sends_reading; intros ?
    | apply sends_bind; [| intros ?] ].

Lemma writeConfig_sends_any : sends (fun _ => True) writeConfig.
Proof. unfold writeConfig, writeFile, sendSDCommand. sends_any. Qed.



Lemma begins_bind pre {A B} (m : Sketch A) (k : A -> Sketch B) :
  begins pre m -> (forall a, sends (fun _ => True) (k a)) ->
  begins pre (m ≫= k).
Proof.
  intros Hm Hk d d'. unfold mbind, sketch_bind, bind.
  destruct (m d) as [a d1 | d1 |] eqn:E.
  - intros H. destruct (Hm d d1) as (Hc & es1 & Ht); [now rewrite E |].
    destruct (Hk a d1 d' H) as (Hc' & es2 & Ht' & _).
    split; [congruence |]. exists (es1 ++ es2).
    rewrite Ht', Ht. now rewrite <- !app_assoc.
  - intros [= <-]. apply Hm. now rewrite E.
  - discriminate.
Qed.

Lemma begins_sendSDCommand c f ch : begins (command c f) (sendSDCommand c f ch).
Proof.
  intros d d'. rewrite sendSDCommand_sent. unfold waitForChar. cbn [rx set_tx].
  destruct (waitFor ch (rx d)); intros [= <-]; cbn [config tx set_rx set_tx];
    (split; [reflexivity |]; exists []; now rewrite app_nil_r).
Qed.

Lemma writeConfig_begins : begins (command "rm" "config.csv") writeConfig.
Proof.
  unfold writeConfig.
  apply begins_bind; [| intros _; sends_any].
  unfold writeFile.
  apply begins_bind; [apply begins_sendSDCommand |].
  intros _. unfold sendSDCommand. sends_any.
Qed.





(** * The header check *)

Lemma textChar_int8 c : textChar c -> int8 c = c.
Proof. intros H. apply int8_small. unfold textChar in H. lia. Qed.

(** Characters that agree with the header are consumed one by one. *)
Lemma checkHeaderLoop_agree (pre : list Z) : forall done more len tail t,
  Forall textChar pre ->
  Z.of_nat (length done + length pre) < len ->
  exists t',
    checkHeaderLoop (done ++ pre ++ more) len (map Some pre ++ tail) t
                    (Z.of_nat (length done))
    = checkHeaderLoop (done ++ pre ++ more) len tail t'
                      (Z.of_nat (length done + length pre)).
Proof.
  induction pre as [| c pre IH]; intros done more len tail t Hpos Hlen.
  - exists t. cbn. now rewrite Nat.add_0_r.
  - apply Forall_cons in Hpos as [Hc Hpos].
    cbn [map app checkHeaderLoop poll_value]. rewrite (textChar_int8 c Hc).
    replace (0 <? c) with true by (symmetry; apply Z.ltb_lt; apply Hc).
    rewrite Nat2Z.id.
    replace (nth (length done) (done ++ c :: pre ++ more) 0) with c.
    2:{ rewrite app_nth2 by lia. now rewrite Nat.sub_diag. }
    rewrite Z.eqb_refl.
    replace (Z.of_nat (length done) =? len - 1) with false.
    2:{ symmetry. apply Z.eqb_neq. cbn [length] in Hlen. lia. }
    destruct (IH (done ++ [c]) more len tail 0 Hpos) as [t' Ht'].
    { rewrite length_app. cbn [length] in *. lia. }
    exists t'. rewrite <- app_assoc in Ht'. cbn [app] in Ht'.
    rewrite length_app in Ht'. cbn [length] in Ht'.
    replace (Z.of_nat (length done) + 1) with (Z.of_nat (length done + 1)) by lia.
    rewrite Ht'. f_equal. cbn [length]. lia.
Qed.

(** A header that stops short, or goes on with a different character, is
    turned down; [rest] is what is left on the line. *)
Lemma checkHeaderLoop_rejects (header : list Z) (n : nat) (tail : list (option Z)) :
  Forall textChar (take n header) ->
  (n < length header)%nat ->
  (tail = []
   \/ exists c rest, tail = Some c :: rest /\ textChar c /\ c <> nth n header 0) ->
  checkHeaderLoop header (Z.of_nat (length header))
                  (map Some (take n header) ++ tail) 0 0
  = (false, match tail with [] => [] | _ :: rest => rest end).
Proof.
  intros Hpos Hn Htail.
  pose proof (checkHeaderLoop_agree (take n header) [] (drop n header)
                (Z.of_nat (length header)) tail 0 Hpos) as H.
  cbn [app length Nat.add] in H. rewrite take_drop in H.
  rewrite length_take_le in H by lia. change (Z.of_nat 0) with 0 in H.
  destruct H as [t' ->]; [lia |].
  destruct Htail as [-> | (c & rest & -> & Hc & Hne)]; [reflexivity |].
  cbn [checkHeaderLoop poll_value]. rewrite (textChar_int8 c Hc).
  replace (0 <? c) with true by (symmetry; apply Z.ltb_lt; apply Hc).
  rewrite Nat2Z.id.
  replace (c =? nth n header 0) with false by (symmetry; now apply Z.eqb_neq).
  reflexivity.
Qed.

Lemma configHeader_text : Forall textChar (codes configHeader).
Proof.
  unfold textChar. vm_compute codes.
  repeat (apply Forall_cons; split; [lia |]). apply Forall_nil. exact I.
Qed.

(** [writeConfig] with every wait answered. *)
Lemma writeConfig_answered d r1 r2 r3 r4 :
  waitFor PROMPT (rx d) = Some r1 -> waitFor PROMPT r1 = Some r2 ->
  waitFor ENTRY r2 = Some r3 -> waitFor PROMPT r3 = Some r4 ->
  writeConfig d
  = Done tt (set_rx r4
              (set_tx (tx d ++ command "rm" "config.csv"
                            ++ command "new" "config.csv"
                            ++ command "write" "config.csv"
                            ++ configImage (config d)) d)).
Proof.
  intros H1 H2 H3 H4. unfold writeConfig, writeFile.
  unfold mbind, sketch_bind, bind.
  rewrite (sendSDCommand_answered _ _ _ d r1 H1).
  rewrite (sendSDCommand_answered _ _ _ _ r2) by exact H2.
  rewrite (sendSDCommand_answered _ _ _ _ r3) by exact H3.
  unfold emit, emits, reading, waitForChar.
  cbn [tx rx config set_tx set_rx]. rewrite H4.
  unfold configImage, command. cbn [flat_map seq app].
  repeat rewrite <- app_assoc. reflexivity.
Qed.

(** [loadConfig] when the line answers the command and then the header is
    turned down. *)
Lemma loadConfig_rejected d r1 r2 r3 b r4 :
  waitFor CR (rx d) = Some r1 -> waitFor CR r1 = Some r2 ->
  waitFor LF r2 = Some r3 ->
  checkHeaderLoop (codes configHeader) 20 r3 0 0 = (b, r4) ->
  loadConfig d
  = (if b then readConfigData else writeConfig)
      (set_rx r4 (set_tx (tx d ++ command "read" "config.csv") d)).
Proof.
  intros H1 H2 H3 H4. unfold loadConfig, checkHeader.
  unfold mbind, sketch_bind, bind.
  rewrite (sendSDCommand_answered _ _ _ d r1 H1).
  unfold waitForChar, effect. cbn [rx set_rx set_tx].
  rewrite H2. cbn [rx set_rx set_tx]. rewrite H3. cbn [rx set_rx set_tx].
  rewrite H4. reflexivity.
Qed.

(** When [writeConfig] returns, every wait was answered and the whole file
    went out. *)
Lemma writeConfig_returns d d' :
  writeConfig d = Done tt d' ->
  config d' = config d
  /\ tx d' = tx d ++ command "rm" "config.csv" ++ command "new" "config.csv"
                  ++ command "write" "config.csv" ++ configImage (config d).
Proof.
  destruct (waitFor PROMPT (rx d)) as [r1 |] eqn:E1.
  2:{ unfold writeConfig, writeFile. unfold mbind, sketch_bind, bind.
      rewrite sendSDCommand_sent. unfold waitForChar. cbn [rx set_tx].
      rewrite E1. discriminate. }
  destruct (waitFor PROMPT r1) as [r2 |] eqn:E2.
  2:{ unfold writeConfig, writeFile. unfold mbind, sketch_bind, bind.
      rewrite (sendSDCommand_answered _ _ _ d r1 E1).
      rewrite sendSDCommand_sent. unfold waitForChar. cbn [rx set_tx set_rx].
      rewrite E2. discriminate. }
  destruct (waitFor ENTRY r2) as [r3 |] eqn:E3.
  2:{ unfold writeConfig, writeFile. unfold mbind, sketch_bind, bind.
      rewrite (sendSDCommand_answered _ _ _ d r1 E1).
      rewrite (sendSDCommand_answered _ _ _ _ r2) by exact E2.
      rewrite sendSDCommand_sent. unfold waitForChar. cbn [rx set_tx set_rx].
      rewrite E3. discriminate. }
  destruct (waitFor PROMPT r3) as [r4 |] eqn:E4.
  - rewrite (writeConfig_answered d r1 r2 r3 r4 E1 E2 E3 E4).
    intros [= <-]. split; reflexivity.
  - unfold writeConfig, writeFile. unfold mbind, sketch_bind, bind.
    rewrite (sendSDCommand_answered _ _ _ d r1 E1).
    rewrite (sendSDCommand_answered _ _ _ _ r2) by exact E2.
    rewrite (sendSDCommand_answered _ _ _ _ r3) by exact E3.
    unfold emit, emits, reading, waitForChar.
    cbn [tx rx config set_tx set_rx]. rewrite E4. discriminate.
Qed.

(** * The header as it arrives *)

(** Polls without a character only count towards the time-out. *)
Lemma checkHeaderLoop_idle (g : list (option Z)) : forall header len r t fp,
  Forall idle g -> 0 <= t -> t + Z.of_nat (length g) < 1000 ->
  checkHeaderLoop header len (g ++ r) t fp
  = checkHeaderLoop header len r (t + Z.of_nat (length g)) fp.
Proof.
  induction g as [| p g IH]; intros header len r t fp Hg H0 Ht.
  - cbn. now rewrite Z.add_0_r.
  - apply Forall_cons in Hg as [Hp Hg]. cbn [length] in Ht.
    cbn [app checkHeaderLoop]. unfold idle in Hp.
    replace (0 <? int8 (poll_value p)) with false
      by (symmetry; apply Z.ltb_ge; exact Hp).
    replace (t + 1 <? 1000) with true by (symmetry; apply Z.ltb_lt; lia).
    rewrite IH by (try assumption; lia). f_equal. cbn [length]. lia.
Qed.

(** The thousandth of them in a row ends the check. *)
Lemma checkHeaderLoop_gives_up (g : list (option Z)) header len r t fp :
  Forall idle g -> 0 <= t -> t + Z.of_nat (length g) = 1000 -> g <> [] ->
  checkHeaderLoop header len (g ++ r) t fp = (false, r).
Proof.
  intros Hg H0 Ht Hne.
  destruct (exists_last Hne) as (g' & p & ->).
  apply Forall_app in Hg as [Hg' Hp]. apply Forall_cons in Hp as [Hp _].
  rewrite length_app in Ht. cbn [length] in Ht.
  rewrite <- app_assoc. rewrite checkHeaderLoop_idle by (try assumption; lia).
  cbn [app checkHeaderLoop]. unfold idle in Hp.
  replace (0 <? int8 (poll_value p)) with false
    by (symmetry; apply Z.ltb_ge; exact Hp).
  replace (t + Z.of_nat (length g') + 1 <? 1000) with false
    by (symmetry; apply Z.ltb_ge; lia).
  reflexivity.
Qed.

(** A line that falls silent ends it as well. *)
Lemma checkHeaderLoop_silent (g : list (option Z)) header len t fp :
  Forall idle g -> 0 <= t -> t + Z.of_nat (length g) < 1000 ->
  checkHeaderLoop header len g t fp = (false, []).
Proof.
  intros Hg H0 Ht. rewrite <- (app_nil_r g).
  rewrite checkHeaderLoop_idle by assumption. reflexivity.
Qed.

(** Characters that agree with the header are consumed one by one, with
    whatever pauses come before them. *)
Lemma checkHeaderLoop_spaced (pre : list Z) : forall done more len tail gaps k,
  Forall textChar pre -> (forall j, pause (gaps j)) ->
  Z.of_nat (length done + length pre) < len ->
  checkHeaderLoop (done ++ pre ++ more) len (spaced gaps k pre ++ tail) 0
                  (Z.of_nat (length done))
  = checkHeaderLoop (done ++ pre ++ more) len tail 0
                    (Z.of_nat (length done + length pre)).
Proof.
  induction pre as [| c pre IH]; intros done more len tail gaps k Hpos Hg Hlen.
  - cbn. now rewrite Nat.add_0_r.
  - apply Forall_cons in Hpos as [Hc Hpos].
    destruct (Hg k) as [Hi Hl].
    cbn [spaced]. rewrite <- app_assoc.
    rewrite checkHeaderLoop_idle by (try assumption; lia).
    cbn [app checkHeaderLoop poll_value]. rewrite (textChar_int8 c Hc).
    replace (0 <? c) with true by (symmetry; apply Z.ltb_lt; apply Hc).
    rewrite Nat2Z.id.
    replace (nth (length done) (done ++ c :: pre ++ more) 0) with c.
    2:{ rewrite app_nth2 by lia. now rewrite Nat.sub_diag. }
    rewrite Z.eqb_refl.
    replace (Z.of_nat (length done) =? len - 1) with false.
    2:{ symmetry. apply Z.eqb_neq. cbn [length] in Hlen. lia. }
    pose proof (IH (done ++ [c]) more len tail gaps (S k) Hpos Hg) as H.
    rewrite <- app_assoc in H. cbn [app] in H.
    rewrite length_app in H. cbn [length] in H.
    replace (Z.of_nat (length done) + 1) with (Z.of_nat (length done + 1)) by lia.
    rewrite H by (cbn [length] in Hlen; lia). f_equal. cbn [length]. lia.
Qed.

(** A header that goes on with a different character, or with a pause
    of 1000 polls, or not at all, is turned down; [rest] is what is left
    on the line. *)
Lemma checkHeaderLoop_turns_down (header : list Z) (n : nat)
    (gaps : nat -> list (option Z)) (tail rest : list (option Z)) :
  Forall textChar (take n header) ->
  (n < length header)%nat ->
  (forall j, pause (gaps j)) ->
  ((exists g, tail = g /\ pause g /\ rest = [])
   \/ (exists g c, tail = g ++ Some c :: rest /\ pause g /\ textChar c
                   /\ c <> nth n header 0)
   \/ (exists g, tail = g ++ rest /\ Forall idle g /\ length g = 1000%nat)) ->
  checkHeaderLoop header (Z.of_nat (length header))
                  (spaced gaps 0 (take n header) ++ tail) 0 0
  = (false, rest).
Proof.
  intros Hpos Hn Hg Htail.
  pose proof (checkHeaderLoop_spaced (take n header) [] (drop n header)
                (Z.of_nat (length header)) tail gaps 0 Hpos Hg) as H.
  cbn [app length Nat.add] in H. rewrite take_drop in H.
  rewrite length_take_le in H by lia. change (Z.of_nat 0) with 0 in H.
  rewrite H by lia. clear H.
  destruct Htail as [(g & -> & [Hi Hl] & ->)
                    | [(g & c & -> & [Hi Hl] & Hc & Hne)
                      | (g & -> & Hi & Hl)]].
  - apply checkHeaderLoop_silent; [exact Hi | lia | lia].
  - rewrite checkHeaderLoop_idle by (try assumption; lia).
    cbn [checkHeaderLoop poll_value]. rewrite (textChar_int8 c Hc).
    replace (0 <? c) with true by (symmetry; apply Z.ltb_lt; apply Hc).
    rewrite Nat2Z.id.
    replace (c =? nth n header 0) with false by (symmetry; now apply Z.eqb_neq).
    reflexivity.
  - apply checkHeaderLoop_gives_up; [exact Hi | lia | lia |].
    intros ->. discriminate Hl.
Qed.

(** * The start of an advanced session *)







(** ** What a finished session reports *)

Lemma Basic_menu_report sel its d rep d' :
  Basic.measuringMenu1 sel its d = Done rep d' ->
  exists k, (1 <= k <= length its)%nat
    /\ slopes rep
       = processSlopes (xy (runSamples Basic.sample (take k its) initState))
                       (x2 (runSamples Basic.sample (take k its) initState))
    /\ concentration rep = Fin 0 /\ result rep = NO_LEAK.
Proof.
  unfold Basic.measuringMenu1.
  destruct (Basic.startNewLog d) as [[] d1 | d1 |] eqn:E.
  2:{ rewrite (bind_Pending _ _ _ _ E). discriminate. }
  2:{ rewrite (bind_Undefined _ _ _ E). discriminate. }
  rewrite (bind_Done _ _ _ _ _ E). cbv beta.
  unfold mbind, sketch_bind, bind, effect, reading, setHomeMenu, mret, sketch_ret, ret.
  destruct (Basic_loop_locals sel its 0 initState d1) as (k & _ & Hk & Hex & Hl).
  destruct (exited (Basic.measuringLoop sel its 0 initState d1)); [| discriminate].
  intros [= <- _]. exists k. cbn [slopes concentration result].
  rewrite Hl. repeat split; try reflexivity; try lia; try (apply Hex; now left).
Qed.

Lemma Advanced_menu_report sel its d rep d' :
  Advanced.measuringMenu1 sel its d = Done rep d' ->
  exists k, (1 <= k <= length its)%nat
    /\ slopes rep
       = processSlopes (xy (runSamples Advanced.sample (take k its) initState))
                       (x2 (runSamples Advanced.sample (take k its) initState))
    /\ concentration rep = Fin 0 /\ result rep = NO_LEAK.
Proof.
  unfold Advanced.measuringMenu1.
  destruct (Advanced.startSession d) as [name d1 | d1 |] eqn:E.
  2:{ rewrite (bind_Pending _ _ _ _ E). discriminate. }
  2:{ rewrite (bind_Undefined _ _ _ E). discriminate. }
  rewrite (bind_Done _ _ _ _ _ E). cbv beta.
  unfold mbind, sketch_bind, bind, effect, reading, setHomeMenu, mret, sketch_ret,
    ret, emit.
  destruct (Advanced.measuringLoop name sel its 0 initState d1) as [r |] eqn:El;
    [| discriminate].
  destruct (Advanced_loop_locals name sel its 0 initState d1 r El)
    as (k & _ & Hk & Hex & Hl).
  destruct (exited r); [| discriminate].
  intros [= <- _]. exists k. cbn [slopes concentration result].
  rewrite Hl. repeat split; try reflexivity; try lia; try (apply Hex; now left).
Qed.

(** * GraphWindow *)

(** C4 (the code departs from the claim).  Width 3, height 18,
    observations 10, 20, 15, 5: after three calls the window holds the
    positions 0, 17, 8; the fourth call, on the full window, leaves
    17, 17, 0.  The oldest position and the one before the newest are both
    gone and the second is doubled, where dropping the oldest alone would
    leave 17, 8, 0. *)
Theorem graph_overflow_loses_two :
  (stored <$> observeAll 3 18 (newWindow 3) (map of_Z [10; 20; 15]))
  = Some [0; 17; 8]
  /\ observeAll 3 18 (newWindow 3) (map of_Z [10; 20; 15; 5])
     = Some {| xMin := of_Z 5; xMax := of_Z 20; xLen := 3; xAr := [17; 17; 0] |}
  /\ (stored <$> observeAll 3 18 (newWindow 3) (map of_Z [10; 20; 15; 5]))
     <> Some [17; 8; 0].
Proof. repeat split. vm_compute. discriminate. Qed.







(** C6, as stated, fails: between the extrema 10 and 20, on a plot of
    height 18, the value 17 maps to 0.7 * 17 = 11.9; the sketch stores 11,
    in single precision as in exact arithmetic; rounding gives 12. *)
Lemma position_not_rounded :
  Float32.calculateGraphPosition (of_Z 10) (of_Z 20) (18 - 1) (of_Z 17) = Some 11
  /\ calculateGraphPosition (of_Z 10) (of_Z 20) (18 - 1) (of_Z 17) = Some 11
  /\ roundedPosition 10 20 18 17 = 12
  /\ (stored <$> observeAll 46 18 (newWindow 46) (map of_Z [10; 20; 17]))
     = Some [0; 17; 11].
Proof. repeat split. Qed.

(** Nor is the position the integer part of the exact quotient: each of
    the operations rounds.  Between the single-precision values 0.3 and
    2, on a plot of height 18, the value 1.5 has the exact product
    11.9999999 and the single-precision product 12. *)
Lemma position_not_exact_floor :
  Float32.calculateGraphPosition (Fin (5033165 # 16777216)) (Fin 2) (18 - 1)
                                 (Fin (3 # 2)) = Some 12
  /\ floatProduct (5033165 # 16777216) 2 (18 - 1) (3 # 2) == 12
  /\ Qfloor (exactProduct (5033165 # 16777216) 2 (18 - 1) (3 # 2)) = 11
  /\ single (3 # 10) = (5033165 # 16777216)%Q.
Proof. repeat split. Qed.

(** Extrema further apart than the type can hold leave the scale: their
    difference is infinite, the quotient 0 or not a number. *)
Lemma position_overflow :
  Float32.calculateGraphPosition (Fin (- 2 ^ 127)) (Fin (2 ^ 127)) (18 - 1) (Fin 0)
  = Some 0
  /\ Float32.calculateGraphPosition (Fin (- 2 ^ 127)) (Fin (2 ^ 127)) (18 - 1)
                                    (Fin (2 ^ 127))
     = None.
Proof. split; vm_compute; reflexivity. Qed.

(** C6, amended.  For a value between the running extrema, the position
    is the single-precision value of
    [((v - min) / (max - min)) * (height - 1)], the two differences, the
    quotient and the product each rounded to single precision, with its
    fraction cut off (not rounded to the nearest integer) when the
    extrema differ, and 0 when they are equal; it lies between 0 and
    [height - 1].  The extrema are at most 2^127 apart, so that their
    difference is finite.  The roundings move the product by less than
    2^-14, so the position is the integer part of the exact product
    unless that product lies within 2^-14 of an integer, where it can be
    the integer next to it. *)
Theorem position_is_truncated_product (b t v : Q) (h : Z) :
  (b <= v)%Q -> (v <= t)%Q -> (t - b <= 2 ^ 127)%Q -> 1 <= h <= 128 ->
  Float32.calculateGraphPosition (Fin b) (Fin t) (h - 1) (Fin v)
  = Some (if Qeq_bool b t then 0 else Qfloor (floatProduct b t (h - 1) v))
  /\ 0 <= (if Qeq_bool b t then 0 else Qfloor (floatProduct b t (h - 1) v))
       <= h - 1
  /\ (Qeq_bool b t = false ->
      (exactProduct b t (h - 1) v - 1 - (1 # 16384)
       < inject_Z (Qfloor (floatProduct b t (h - 1) v)))%Q
      /\ (inject_Z (Qfloor (floatProduct b t (h - 1) v))
          <= exactProduct b t (h - 1) v + (1 # 16384))%Q).
Proof.
  intros Hb Ht Hr Hh. unfold Float32.calculateGraphPosition, fne. cbn [feq].
  destruct (Qeq_bool b t) eqn:E; cbn [negb];
    [split; [reflexivity | split; [lia | discriminate]] |].
  assert (Hlt : (b < t)%Q).
  { destruct (Qlt_le_dec b t) as [H | H]; [exact H |]. exfalso.
    assert (Heq : (b == t)%Q) by lra. apply Qeq_bool_iff in Heq. congruence. }
  destruct (floatProduct_range b t v (h - 1) Hb Ht Hlt ltac:(lia))
    as (P2 & P0 & P1).
  destruct (floatProduct_close b t v (h - 1) Hb Ht Hlt ltac:(lia)) as (C1 & C2).
  rewrite (Float32_product b t v (h - 1) Hb Ht Hlt Hr ltac:(lia)).
  cbn [float_to_int].
  set (q := floatProduct b t (h - 1) v) in *.
  assert (Hp : 0 <= Qtrunc q <= h - 1).
  { apply Qtrunc_between; [lia | exact P0 | exact P1]. }
  replace ((INT_MIN <=? Qtrunc q) && (Qtrunc q <=? INT_MAX)) with true.
  2:{ symmetry. apply andb_true_iff. unfold INT_MIN, INT_MAX, int_bits.
      split; apply Z.leb_le; simpl; lia. }
  rewrite <- (Qtrunc_floor q P0). split; [reflexivity |]. split; [exact Hp |].
  intros _. rewrite (Qtrunc_floor q P0).
  destruct (Qfloor_bounds q) as [F1 F2]. split; lra.
Qed.

Lemma position_is_truncated_product_witness :
  Float32.calculateGraphPosition (Fin (5033165 # 16777216)) (Fin 2) (18 - 1)
                                 (Fin (3 # 2))
  = Some (if Qeq_bool (5033165 # 16777216) 2 then 0
          else Qfloor (floatProduct (5033165 # 16777216) 2 (18 - 1) (3 # 2)))
  /\ 0 <= (if Qeq_bool (5033165 # 16777216) 2 then 0
           else Qfloor (floatProduct (5033165 # 16777216) 2 (18 - 1) (3 # 2)))
       <= 18 - 1
  /\ (Qeq_bool (5033165 # 16777216) 2 = false ->
      (exactProduct (5033165 # 16777216) 2 (18 - 1) (3 # 2) - 1 - (1 # 16384)
       < inject_Z (Qfloor (floatProduct (5033165 # 16777216) 2 (18 - 1) (3 # 2))))%Q
      /\ (inject_Z (Qfloor (floatProduct (5033165 # 16777216) 2 (18 - 1) (3 # 2)))
          <= exactProduct (5033165 # 16777216) 2 (18 - 1) (3 # 2) + (1 # 16384))%Q).
Proof.
  apply (position_is_truncated_product (5033165 # 16777216) 2 (3 # 2) 18);
    [unfold Qle; simpl; lia | unfold Qle; simpl; lia
    | apply Qle_bool_iff; vm_compute; reflexivity | lia].
Defined.

(** * StreamingRegression *)

(** C1, as stated, fails.  On scenario A (first reading 100, then 110,
    120, 130 at one, two and three minutes) three samples are accepted,
    but neither the deviations nor the sums nor the slope have the stated
    values 100000, 200000, 300000, 14, 1400000 and 100000. *)
Lemma scenarioA_not_as_stated :
  let st := runSamples Basic.sample scenarioA initState in
  map it_time (acceptedPasses Basic.accepts Basic.sample scenarioA initState)
  = [60000; 120000; 180000]
  /\ map (fun r => feq (deviation (of_Z r) (chan (initial st) 0)) (of_Z (1000 * (r - 100))))
         [110; 120; 130]
     = [false; false; false]
  /\ feq (x2 st) (of_Z 14) = false
  /\ feq (chan (xy st) 0) (of_Z 1400000) = false
  /\ feq (chan (processSlopes (xy st) (x2 st)) 0) (of_Z 100000) = false.
Proof. repeat split. Qed.

(** C1, amended.  On scenario A each accepted sample contributes
    x = elapsed minutes times the time resolution multiplier 1000, so
    x = 1000, 2000, 3000, and y = scale * reading / initial - 1, so
    y = 1099999, 1199999, 1299999.  The sums are sumXX = 14000000 and
    sumXY = 7399994000 and the reduced slope is
    7399994000 / 14000000 = 528.571.  The advanced sketch accepts
    the same samples and reaches the same sums. *)
Theorem scenarioA_sums :
  let st := runSamples Basic.sample scenarioA initState in
  let st' := runSamples Advanced.sample scenarioA initState in
  map it_time (acceptedPasses Basic.accepts Basic.sample scenarioA initState)
  = [60000; 120000; 180000]
  /\ chan (initial st) 0 = of_Z 100
  /\ map current_time_total_minutes [60000; 120000; 180000]
     = map of_Z [1000; 2000; 3000]
  /\ map (fun r => deviation (of_Z r) (chan (initial st) 0)) [110; 120; 130]
     = map of_Z [1099999; 1199999; 1299999]
  /\ x2 st = of_Z 14000000
  /\ chan (xy st) 0 = of_Z 7399994000
  /\ chan (processSlopes (xy st) (x2 st)) 0 = Fin (528571 # 1000)
  /\ datalen st = 3
  /\ (x2 st', xy st', initial st', datalen st') = (x2 st, xy st, initial st, datalen st).
Proof. vm_compute. repeat split. Qed.

(** C2 (the code departs from the claim).  The exit check of the basic
    sketch compares elapsed milliseconds divided by 60 with 5: with no
    select edge the loop is left at the first pass whose elapsed time has
    reached 300 milliseconds.  A session whose passes fall at 250 ms,
    900 ms and 1600 ms ends with the second pass, 900 ms into the five
    minutes, with no sample accepted. *)
Theorem basic_loop_leaves_at_300ms :
  (forall sel t spec uv d,
     fst (Basic.leaves sel (mkIteration t spec uv quiet) d) = (300 <=? t))
  /\ (let r := Basic.measuringLoop 0 [uniform 250 100; uniform 900 100; uniform 1600 100]
                 0 initState (boot []) in
      exited r = true /\ passes r = 2%nat /\ datalen (locals r) = 0).
Proof.
  split.
  - intros sel t spec uv d. now apply Basic_leaves_at_300ms.
  - repeat split.
Qed.

(** C3, as stated, fails.  A session that ends before any sample is
    accepted reports not-a-number on all six channels, and one whose first
    reading is zero reports an infinite slope; both reports are complete,
    with the placeholder concentration and result. *)
Lemma zero_denominators_unreported :
  returned (Basic.measuringMenu1 0 [uniform 250 100; uniform 900 100]
                                 (boot [Some PROMPT; Some PROMPT]))
  = Some (mkReport (replicate 6 NaN) (Fin 0) NO_LEAK)
  /\ returned (Basic.measuringMenu1 0 [uniform 250 0; uniform 7000 5]
                                    (boot [Some PROMPT; Some PROMPT]))
     = Some (mkReport (replicate 6 PInf) (Fin 0) NO_LEAK).
Proof. split; vm_compute; reflexivity. Qed.

Lemma rawQuotients_intro sample its rep k :
  samples sample -> (1 <= k <= length its)%nat ->
  slopes rep
  = processSlopes (xy (runSamples sample (take k its) initState))
                  (x2 (runSamples sample (take k its) initState)) ->
  rawQuotients sample its rep.
Proof.
  intros Hs Hk Hrep. exists k. split; [exact Hk |]. cbn zeta.
  split; [exact Hrep |]. split.
  - intros H0. rewrite Hrep. now apply no_sample_all_nan.
  - intros i it z Hi Hhd Hz Hz0 Hd. rewrite Hrep.
    destruct its as [| it0 rest]; [discriminate |].
    injection Hhd as ->. destruct k as [| k]; [lia |].
    cbn [take] in *.
    now apply (zero_initial_slope_not_finite sample Hs i it (take k rest) z).
Qed.

(** C3, amended.  [processSlopes] divides without a guard and no failure
    value exists: a finished session reports the bare quotients of its
    sums; when no sample was accepted (sumXX is zero) every channel's slope
    is not-a-number, and when a channel's captured initial reading is zero
    and a sample was accepted, that channel's slope is not a finite number;
    they are handed to the result calculation as they are. *)
Theorem slopes_are_raw_quotients (sel : Z) (its : list Iteration)
    (d d' : Device) (rep : Report) :
  (Basic.measuringMenu1 sel its d = Done rep d' ->
   rawQuotients Basic.sample its rep)
  /\ (Advanced.measuringMenu1 sel its d = Done rep d' ->
      rawQuotients Advanced.sample its rep).
Proof.
  split; intros H.
  - destruct (Basic_menu_report sel its d rep d' H) as (k & Hk & Hrep & _).
    exact (rawQuotients_intro _ its rep k Basic_samples Hk Hrep).
  - destruct (Advanced_menu_report sel its d rep d' H) as (k & Hk & Hrep & _).
    exact (rawQuotients_intro _ its rep k Advanced_samples Hk Hrep).
Qed.

Lemma slopes_are_raw_quotients_witness :
  rawQuotients Basic.sample [uniform 250 100; uniform 900 100]
               (mkReport (replicate 6 NaN) (Fin 0) NO_LEAK)
  /\ rawQuotients Advanced.sample
                  [uniform 250 0; uniform 7000 5; uniform 3600000 5]
                  (mkReport (replicate 6 PInf) (Fin 0) NO_LEAK).
Proof.
  split.
  - apply (proj1 (slopes_are_raw_quotients 0 [uniform 250 100; uniform 900 100]
                    (boot [Some PROMPT; Some PROMPT])
                    (default (boot [])
                       (final (Basic.measuringMenu1 0
                                 [uniform 250 100; uniform 900 100]
                                 (boot [Some PROMPT; Some PROMPT]))))
                    (mkReport (replicate 6 NaN) (Fin 0) NO_LEAK))).
    vm_compute. reflexivity.
  - apply (proj2 (slopes_are_raw_quotients 0
                    [uniform 250 0; uniform 7000 5; uniform 3600000 5]
                    (boot answers)
                    (default (boot [])
                       (final (Advanced.measuringMenu1 0
                                 [uniform 250 0; uniform 7000 5; uniform 3600000 5]
                                 (boot answers))))
                    (mkReport (replicate 6 PInf) (Fin 0) NO_LEAK))).
    vm_compute. reflexivity.
Defined.

(** C7, as stated, fails.  With passes at 250 ms (reading 100) and
    7000 ms (reading 110) the first accepted sample is the second pass,
    yet the initial reading is the 100 of the first. *)
Lemma initial_not_from_first_accepted :
  let its := [uniform 250 100; uniform 7000 110] in
  let r := Basic.measuringLoop 0 its 0 initState (boot []) in
  it_spec <$> head (acceptedPasses Basic.accepts Basic.sample its initState)
  = Some (replicate 6 (of_Z 110))
  /\ passes r = 2%nat
  /\ initial (locals r) = replicate 6 (of_Z 100)
  /\ Some (initial (locals r))
     <> (it_spec <$> head (acceptedPasses Basic.accepts Basic.sample its initState)).
Proof. vm_compute. repeat split. discriminate. Qed.

(** C7, amended.  In every Measuring session, in both sketches, the
    initial reading is written exactly once, and it is the reading of the
    first pass of the loop, whether or not that sample passes the
    acceptance check. *)
Theorem initial_from_first_pass_of_session (sel : Z) (it : Iteration)
    (its : list Iteration) (d : Device) (name : string) (r' : LoopResult) :
  (let r := Basic.measuringLoop sel (it :: its) 0 initState d in
   initialTaken (locals r) = true
   /\ initial (locals r) = map (chan (it_spec it)) (seq 0 6)
   /\ captures Basic.sample (take (passes r) (it :: its)) initState = 1%nat)
  /\ (Advanced.measuringLoop name sel (it :: its) 0 initState d = Some r' ->
      initialTaken (locals r') = true
      /\ initial (locals r') = map (chan (it_spec it)) (seq 0 6)
      /\ captures Advanced.sample (take (passes r') (it :: its)) initState = 1%nat).
Proof.
  split.
  - cbn zeta.
    destruct (Basic_loop_locals sel (it :: its) 0 initState d)
      as (k & Hp & _ & Hk & Hl).
    cbn zeta in *. rewrite Hp, Hl. cbn [Nat.add].
    destruct k as [| k]; [exfalso; assert (1 <= 0)%nat by (apply Hk; now right); lia |].
    cbn [take]. apply (initial_from_first_pass _ Basic_samples).
  - intros H.
    destruct (Advanced_loop_locals name sel (it :: its) 0 initState d r' H)
      as (k & Hp & _ & Hk & Hl).
    rewrite Hp, Hl. cbn [Nat.add].
    destruct k as [| k]; [exfalso; assert (1 <= 0)%nat by (apply Hk; now right); lia |].
    cbn [take]. apply (initial_from_first_pass _ Advanced_samples).
Qed.

Lemma initial_from_first_pass_of_session_witness :
  exists r',
    Advanced.measuringLoop "LOG0.CSV" 0 [uniform 250 100; uniform 7000 110] 0
                           initState (boot [])
    = Some r'
    /\ initialTaken (locals r') = true
    /\ initial (locals r') = map (chan (it_spec (uniform 250 100))) (seq 0 6)
    /\ captures Advanced.sample
                (take (passes r') [uniform 250 100; uniform 7000 110]) initState
       = 1%nat.
Proof.
  destruct (Advanced.measuringLoop "LOG0.CSV" 0 [uniform 250 100; uniform 7000 110]
                                   0 initState (boot [])) as [r' |] eqn:E.
  - exists r'. split; [reflexivity |].
    exact (proj2 (initial_from_first_pass_of_session 0 (uniform 250 100)
                    [uniform 7000 110] (boot []) "LOG0.CSV" r') E).
  - vm_compute in E. discriminate E.
Defined.

(** * ConfigStore *)

(** C8, as stated, fails.  A stored file whose first line is the header
    with more text after it, ["index,r,o,y,g,b,v,uv7,1.50"], differs from
    the header, yet [loadConfig] at boot takes the header as found, reads
    index 7 and a first calibration value of 1.5 out of the rest of that
    line, and writes nothing back. *)
Lemma longer_first_line_is_adopted :
  let line := [Some CR; Some CR; Some LF]
              ++ bytes "index,r,o,y,g,b,v,uv7,1.50"
              ++ [Some CR; Some LF; Some PROMPT] in
  returned (loadConfig (boot line)) = Some tt
  /\ (config <$> final (loadConfig (boot line)))
     = Some (mkConfig 7 (Fin (3 # 2) :: replicate 5 (Fin 0)) 0)
  /\ (tx <$> final (loadConfig (boot line)))
     = Some (command "read" "config.csv").
Proof. vm_compute. repeat split. Qed.

(** A byte that the header check passes over does not count as a
    difference either: with the byte 0xC3 inside the header the file is
    taken as found, and the row after it is adopted. *)
Lemma header_with_high_byte_is_adopted :
  let line := [Some CR; Some CR; Some LF]
              ++ bytes "ind" ++ [Some 195] ++ bytes "ex,r,o,y,g,b,v,uv"
              ++ [Some CR; Some LF]
              ++ bytes "7,1.50,0.00,0.00,0.00,0.00,0.00,3"
              ++ [Some CR; Some LF; Some PROMPT] in
  returned (loadConfig (boot line)) = Some tt
  /\ (config <$> final (loadConfig (boot line)))
     = Some (mkConfig 7 (Fin (3 # 2) :: replicate 5 (Fin 0)) 3)
  /\ (tx <$> final (loadConfig (boot line)))
     = Some (command "read" "config.csv").
Proof. vm_compute. repeat split. Qed.

(** C8, amended.  At boot, let the first line arrive as [n] < 20
    characters that agree with the header, each after a pause of fewer
    than 1000 polls that bring no character (nothing waiting, a NUL, or a
    byte from 0x80 up: such bytes are passed over, not compared), and then
    depart from it: after one more such pause comes a character with a
    code from 1 to 127 that differs from the header, or the line falls
    silent, or the polls without a character reach 1000 in a row.  Then
    [loadConfig] keeps the zero-valued profile the globals start with
    (index 0, six calibration values 0, ultraviolet baseline 0) and goes
    on to [writeConfig]; when that returns, the header and the zero row
    have been sent to the file.  A first line whose characters agree with
    the header on the first 20 is not covered. *)
Theorem load_falls_back_on_header_mismatch
    (line r1 r2 r3 tail rest : list (option Z))
    (gaps : nat -> list (option Z)) (n : nat) :
  waitFor CR line = Some r1 -> waitFor CR r1 = Some r2 ->
  waitFor LF r2 = Some r3 ->
  (n < 20)%nat ->
  (forall j, pause (gaps j)) ->
  r3 = spaced gaps 0 (take n (codes configHeader)) ++ tail ->
  ((exists g, tail = g /\ pause g /\ rest = [])
   \/ (exists g c, tail = g ++ Some c :: rest /\ pause g /\ textChar c
                   /\ c <> nth n (codes configHeader) 0)
   \/ (exists g, tail = g ++ rest /\ Forall idle g /\ length g = 1000%nat)) ->
  let d := mkDevice bootConfig 0 0 0 bootAverages bootGraphs rest
                    (command "read" "config.csv") in
  loadConfig (boot line) = writeConfig d
  /\ (forall d', final (writeConfig d) = Some d' ->
        config d' = bootConfig
        /\ exists es, tx d' = command "read" "config.csv"
                              ++ command "rm" "config.csv" ++ es)
  /\ (forall d', writeConfig d = Done tt d' ->
        config d' = bootConfig
        /\ tx d' = command "read" "config.csv"
                   ++ command "rm" "config.csv" ++ command "new" "config.csv"
                   ++ command "write" "config.csv"
                   ++ [Print configHeader; Write CR; PrintInt 0;
                       Print ","; PrintFloat (Fin 0); Print ","; PrintFloat (Fin 0);
                       Print ","; PrintFloat (Fin 0); Print ","; PrintFloat (Fin 0);
                       Print ","; PrintFloat (Fin 0); Print ","; PrintFloat (Fin 0);
                       Print ","; PrintInt 0; Write CR; Write CR]).
Proof.
  intros H1 H2 H3 Hn Hg Hr3 Htail d.
  assert (Hrej : checkHeaderLoop (codes configHeader) 20 r3 0 0 = (false, rest)).
  { rewrite Hr3.
    apply (checkHeaderLoop_turns_down (codes configHeader) n gaps tail rest).
    - apply Forall_take, configHeader_text.
    - exact Hn.
    - exact Hg.
    - exact Htail. }
  split; [| split].
  - rewrite (loadConfig_rejected (boot line) r1 r2 r3 false rest H1 H2 H3 Hrej).
    reflexivity.
  - intros d' Hd'. destruct (writeConfig_begins d d' Hd') as (Hc & es & Ht).
    split; [exact Hc |]. exists es. exact Ht.
  - intros d' Hd'. destruct (writeConfig_returns d d' Hd') as (Hc & Ht).
    split; [exact Hc |]. rewrite Ht. reflexivity.
Qed.

Lemma load_falls_back_on_header_mismatch_witness :
  loadConfig
    (boot ([Some CR; Some CR; Some LF]
           ++ bytes "ind" ++ [Some 195; None] ++ bytes "ex,r,o,y,g,b,v,u"
           ++ [None; Some 0] ++ bytes "x"
           ++ [Some CR; Some LF; Some PROMPT; Some PROMPT; Some ENTRY;
               Some PROMPT]))
  = writeConfig
      (mkDevice bootConfig 0 0 0 bootAverages bootGraphs
                [Some CR; Some LF; Some PROMPT; Some PROMPT; Some ENTRY;
                 Some PROMPT]
                (command "read" "config.csv"))
  /\ returned
       (writeConfig
          (mkDevice bootConfig 0 0 0 bootAverages bootGraphs
                    [Some CR; Some LF; Some PROMPT; Some PROMPT; Some ENTRY;
                     Some PROMPT]
                    (command "read" "config.csv"))) = Some tt.
Proof.
  split; [| vm_compute; reflexivity].
  refine (proj1 (load_falls_back_on_header_mismatch
                   _
                   ([Some CR; Some LF]
                    ++ bytes "ind" ++ [Some 195; None] ++ bytes "ex,r,o,y,g,b,v,u"
                    ++ [None; Some 0] ++ bytes "x"
                    ++ [Some CR; Some LF; Some PROMPT; Some PROMPT; Some ENTRY;
                        Some PROMPT])
                   ([Some LF]
                    ++ bytes "ind" ++ [Some 195; None] ++ bytes "ex,r,o,y,g,b,v,u"
                    ++ [None; Some 0] ++ bytes "x"
                    ++ [Some CR; Some LF; Some PROMPT; Some PROMPT; Some ENTRY;
                        Some PROMPT])
                   (bytes "ind" ++ [Some 195; None] ++ bytes "ex,r,o,y,g,b,v,u"
                    ++ [None; Some 0] ++ bytes "x"
                    ++ [Some CR; Some LF; Some PROMPT; Some PROMPT; Some ENTRY;
                        Some PROMPT])
                   ([None; Some 0] ++ bytes "x"
                    ++ [Some CR; Some LF; Some PROMPT; Some PROMPT; Some ENTRY;
                        Some PROMPT])
                   [Some CR; Some LF; Some PROMPT; Some PROMPT; Some ENTRY;
                    Some PROMPT]
                   (fun k => if Nat.eqb k 3 then [Some 195; None] else [])
                   19 _ _ _ _ _ _ _)).
  - reflexivity.
  - reflexivity.
  - reflexivity.
  - lia.
  - intros j. unfold pause, idle. destruct (Nat.eqb j 3); split;
      try (cbn [length]; lia); repeat constructor; vm_compute; discriminate.
  - reflexivity.
  - right. left. exists [None; Some 0], 120.
    split; [reflexivity |]. split.
    + unfold pause, idle. split; [| cbn [length]; lia].
      repeat constructor; vm_compute; discriminate.
    + split; [unfold textChar; lia |]. vm_compute. discriminate.
Defined.

(** * Configuration writes and the Measuring session *)




(** * Further properties of the graph windows *)








Lemma graphColor_extrema (w h : Z) (g g' : GraphWindow) (m : float) :
  graphColor w h g m = Some g' ->
  xMax g' = (if fgt m (xMax g) || feq (xMax g) (of_Z (-1)) then m else xMax g)
  /\ xMin g' = (if flt m (xMin g) || feq (xMin g) (of_Z (-1)) then m else xMin g).
Proof.
  unfold graphColor.
  destruct (calculateGraphPosition _ _ _ _) as [p |]; [| discriminate].
  cbn [mbind option_bind].
  destruct (xLen g <? w).
  - destruct (array_set _ _ _); [| discriminate]. cbn [mbind option_bind].
    intros [= <-]. split; reflexivity.
  - destruct (shiftLoop _ _ _); [| discriminate]. cbn [mbind option_bind].
    destruct (array_set _ _ _); [| discriminate]. cbn [mbind option_bind].
    intros [= <-]. split; reflexivity.
Qed.

Lemma not_sentinel (q : Q) : ~ (q == -1)%Q -> feq (Fin q) (of_Z (-1)) = false.
Proof.
  intros H. apply not_true_iff_false. intros E. apply feq_Fin in E. now apply H.
Qed.

Lemma extremaOf_step (w h : Z) (g g' : GraphWindow) (seen : list Q) (q : Q) :
  extremaOf g seen -> Forall (fun q => ~ (q == -1)%Q) seen ->
  graphColor w h g (Fin q) = Some g' ->
  extremaOf g' (seen ++ [q]).
Proof.
  intros (lo & hi & Hlo & Hhi & Hall & Elo & Ehi) Hs Hg.
  destruct (graphColor_extrema w h g g' (Fin q) Hg) as [Hmax Hmin].
  rewrite Hhi in Hmax. rewrite Hlo in Hmin.
  assert (Hhi1 : ~ (hi == -1)%Q).
  { apply Exists_exists in Ehi as (x & Hx & Ex).
    rewrite Forall_forall in Hs. rewrite <- Ex. now apply Hs. }
  assert (Hlo1 : ~ (lo == -1)%Q).
  { apply Exists_exists in Elo as (x & Hx & Ex).
    rewrite Forall_forall in Hs. rewrite <- Ex. now apply Hs. }
  rewrite (not_sentinel hi Hhi1), orb_false_r in Hmax.
  rewrite (not_sentinel lo Hlo1), orb_false_r in Hmin.
  unfold fgt in Hmax.
  assert (Hle : (lo <= hi)%Q).
  { apply Exists_exists in Elo as (x & Hx & Ex).
    rewrite Forall_forall in Hall. destruct (Hall x Hx) as [_ H]. now rewrite <- Ex. }
  destruct (flt (Fin hi) (Fin q)) eqn:E1; destruct (flt (Fin q) (Fin lo)) eqn:E2.
  - apply flt_Fin in E1, E2. exfalso.
    apply (Qlt_irrefl q). eapply Qlt_le_trans; [exact E2 |].
    eapply Qle_trans; [exact Hle |]. now apply Qlt_le_weak.
  - apply flt_Fin in E1. apply flt_Fin_false in E2.
    exists lo, q. repeat split; try assumption.
    + apply Forall_app. split.
      * eapply Forall_impl; [exact Hall |]. intros x [H1 H2]. split; [exact H1 |].
        eapply Qle_trans; [exact H2 |]. now apply Qlt_le_weak.
      * constructor; [| constructor]. split; [exact E2 | apply Qle_refl].
    + apply Exists_app. now left.
    + apply Exists_app. right. constructor. reflexivity.
  - apply flt_Fin_false in E1. apply flt_Fin in E2.
    exists q, hi. repeat split; try assumption.
    + apply Forall_app. split.
      * eapply Forall_impl; [exact Hall |]. intros x [H1 H2]. split; [| exact H2].
        eapply Qle_trans; [| exact H1]. now apply Qlt_le_weak.
      * constructor; [| constructor]. split; [apply Qle_refl | exact E1].
    + apply Exists_app. right. constructor. reflexivity.
    + apply Exists_app. now left.
  - apply flt_Fin_false in E1, E2.
    exists lo, hi. repeat split; try assumption.
    + apply Forall_app. split; [exact Hall |].
      constructor; [| constructor]. split; assumption.
    + apply Exists_app. now left.
    + apply Exists_app. now left.
Qed.

Lemma observeAll_extrema (w h : Z) (qs : list Q) : forall g g' seen,
  extremaOf g seen -> Forall (fun q => ~ (q == -1)%Q) (seen ++ qs) ->
  observeAll w h g (map Fin qs) = Some g' ->
  extremaOf g' (seen ++ qs).
Proof.
  induction qs as [| q qs IH]; intros g g' seen Hg Hs.
  - intros [= <-]. now rewrite app_nil_r.
  - cbn [map observeAll].
    destruct (graphColor w h g (Fin q)) as [g1 |] eqn:E1; [| discriminate].
    cbn [mbind option_bind]. intros H.
    replace (seen ++ q :: qs) with ((seen ++ [q]) ++ qs) in *
      by (rewrite <- app_assoc; reflexivity).
    apply (IH g1 g' (seen ++ [q])); [| exact Hs | exact H].
    apply (extremaOf_step w h g g1 seen q Hg); [| exact E1].
    apply Forall_app in Hs as [Hs _]. apply Forall_app in Hs as [Hs _]. exact Hs.
Qed.

(** X4.  The running extrema of [graphColor].  As long as no observed value
    equals -1, the stored minimum and maximum are the least and the
    greatest of all values observed since the window was new.  The value
    -1 marks an extremum as unset: a maximum of -1 is replaced by whatever
    comes next, also by a smaller value. *)
Theorem running_extrema (w h : Z) (size : nat) (q0 : Q) (qs : list Q)
    (g : GraphWindow) :
  (Forall (fun q => ~ (q == -1)%Q) (q0 :: qs) ->
   observeAll w h (newWindow size) (map Fin (q0 :: qs)) = Some g ->
   extremaOf g (q0 :: qs))
  /\ (observeAll w h (newWindow size) [Fin (-1); Fin q0] = Some g ->
      xMax g = Fin q0).
Proof.
  split.
  - intros Hs. cbn [map observeAll].
    destruct (graphColor w h (newWindow size) (Fin q0)) as [g1 |] eqn:E1;
      [| discriminate].
    cbn [mbind option_bind]. intros H.
    apply (observeAll_extrema w h qs g1 g [q0]); [| exact Hs | exact H].
    destruct (graphColor_extrema _ _ _ _ _ E1) as [Hmax Hmin].
    cbn [newWindow xMax xMin] in Hmax, Hmin.
    replace (feq (of_Z (-1)) (of_Z (-1))) with true in * by reflexivity.
    rewrite orb_true_r in Hmax, Hmin.
    exists q0, q0. repeat split; try assumption.
    + constructor; [| constructor]. split; apply Qle_refl.
    + constructor. reflexivity.
    + constructor. reflexivity.
  - cbn [observeAll].
    destruct (graphColor w h (newWindow size) (Fin (-1))) as [g1 |] eqn:E1;
      [| discriminate].
    cbn [mbind option_bind].
    destruct (graphColor w h g1 (Fin q0)) as [g2 |] eqn:E2; [| discriminate].
    cbn [mbind option_bind]. intros [= <-].
    destruct (graphColor_extrema _ _ _ _ _ E1) as [Hmax1 _].
    destruct (graphColor_extrema _ _ _ _ _ E2) as [Hmax2 _].
    cbn [newWindow xMax] in Hmax1.
    replace (feq (of_Z (-1)) (of_Z (-1))) with true in * by reflexivity.
    rewrite orb_true_r in Hmax1. rewrite Hmax1 in Hmax2.
    replace (feq (Fin (-1)) (of_Z (-1))) with true in Hmax2 by reflexivity.
    now rewrite orb_true_r in Hmax2.
Qed.

Lemma running_extrema_witness :
  (exists g,
     observeAll 46 18 (newWindow 46) (map Fin [10; 20; 15; 5]%Q) = Some g
     /\ extremaOf g [10; 20; 15; 5]%Q)
  /\ (exists g,
        observeAll 46 18 (newWindow 46) [Fin (-1); Fin (-5)] = Some g
        /\ xMax g = Fin (-5)).
Proof.
  split.
  - destruct (observeAll 46 18 (newWindow 46) (map Fin [10; 20; 15; 5]%Q))
      as [g |] eqn:E.
    + exists g. split; [reflexivity |].
      apply (proj1 (running_extrema 46 18 46 10 [20; 15; 5]%Q g)); [| exact E].
      repeat (constructor; [unfold Qeq; simpl; lia |]). constructor.
    + vm_compute in E. discriminate E.
  - destruct (observeAll 46 18 (newWindow 46) [Fin (-1); Fin (-5)]) as [g |] eqn:E.
    + exists g. split; [reflexivity |].
      exact (proj2 (running_extrema 46 18 46 (-5) [] g) E).
    + vm_compute in E. discriminate E.
Defined.

(** * Further properties of the Measuring loop *)

Lemma Advanced_minutes (t : Z) :
  0 <= t < 7680000 -> Advanced.current_time_minutes t = t / 1000 / 60.
Proof.
  intros H. unfold Advanced.current_time_minutes. apply int8_small.
  assert (0 <= t / 1000 / 60 < 128); [| lia].
  split.
  - apply Z.div_pos; [apply Z.div_pos |]; lia.
  - apply Z.div_lt_upper_bound; [lia |]. apply Z.div_lt_upper_bound; lia.
Qed.

(** X5.  The ceiling of the advanced sketch.  With no select edge, and while
    the elapsed time is below 128 minutes, the loop is left exactly at the
    passes whose elapsed time has reached 60 minutes.  The minute count is
    kept in an [int8_t]: at 128 minutes it has wrapped to -128 and the
    check no longer fires. *)
Theorem advanced_loop_leaves_at_60min (sel t : Z) (spec : list float)
    (uv : Z) (d : Device) :
  (0 <= t < 7680000 ->
   fst (Advanced.leaves sel (mkIteration t spec uv quiet) d) = (3600000 <=? t))
  /\ fst (Advanced.leaves sel (mkIteration 7680000 spec uv quiet) d) = false.
Proof.
  split.
  - intros Ht. unfold Advanced.leaves. cbn [it_time it_select].
    rewrite (Advanced_minutes t Ht).
    assert (E : (60 <=? t / 1000 / 60) = (3600000 <=? t)).
    { destruct (3600000 <=? t) eqn:E1.
      - apply Z.leb_le in E1. apply Z.leb_le.
        apply Z.div_le_lower_bound; [lia |].
        apply Z.div_le_lower_bound; lia.
      - apply Z.leb_gt in E1. apply Z.leb_gt.
        apply Z.div_lt_upper_bound; [lia |].
        apply Z.div_lt_upper_bound; lia. }
    rewrite E. destruct (3600000 <=? t); [reflexivity |].
    pose proof (buttonLoop_quiet 80 0 sel (selectState d)) as Hb.
    unfold quiet.
    destruct (buttonLoop 80 0 sel (fun _ => 0) (selectState d)) as [b s].
    exact Hb.
  - unfold Advanced.leaves. cbn [it_time it_select].
    change (60 <=? Advanced.current_time_minutes 7680000) with false. cbv iota.
    pose proof (buttonLoop_quiet 80 0 sel (selectState d)) as Hb.
    unfold quiet.
    destruct (buttonLoop 80 0 sel (fun _ => 0) (selectState d)) as [b s].
    exact Hb.
Qed.

Lemma advanced_loop_leaves_at_60min_witness :
  fst (Advanced.leaves 0 (mkIteration 3600000 [] 0 quiet) (boot []))
  = (3600000 <=? 3600000).
Proof.
  apply (proj1 (advanced_loop_leaves_at_60min 0 3600000 [] 0 (boot []))). lia.
Defined.

Lemma ulong_small (t : Z) : 0 <= t < 2 ^ 32 -> ulong t = t.
Proof. intros H. unfold ulong, wrap_unsigned. now apply Z.mod_small. Qed.

Lemma Basic_accepts_late (t : Z) (st : MeasureState) :
  0 <= t < 2 ^ 32 -> past_time st = 0 ->
  Basic.accepts t st = true -> 6000 < t.
Proof.
  intros Ht Hp H. unfold Basic.accepts in H. apply andb_true_iff in H as [_ H].
  rewrite Hp, Z.sub_0_r, (ulong_small t Ht) in H. apply Z.ltb_lt in H.
  exact H.
Qed.

Lemma captureInitial_past it st :
  past_time (captureInitial it st) = past_time st.
Proof. unfold captureInitial. destruct (initialTaken st); reflexivity. Qed.

Lemma Basic_loop_one_sample sel (its : list Iteration) : forall n st d,
  Forall (fun it => 0 <= it_time it < 2 ^ 32) its ->
  datalen st = 0 -> past_time st = 0 ->
  let r := Basic.measuringLoop sel its n st d in
  0 <= datalen (locals r) <= 1
  /\ (datalen (locals r) = 1 -> exited r = true).
Proof.
  induction its as [| it its IH]; intros n st d Hts Hd Hp; cbn zeta.
  - cbn. rewrite Hd. split; [lia | discriminate].
  - apply Forall_cons in Hts as [Ht Hts].
    cbn [Basic.measuringLoop].
    destruct (captureInitial_sums it st) as (_ & _ & Hd1).
    pose proof (captureInitial_past it st) as Hp1.
    unfold Basic.sample.
    destruct (Basic.accepts (it_time it) (captureInitial it st)) eqn:Ea.
    + assert (Hlate : 6000 < it_time it).
      { apply (Basic_accepts_late _ (captureInitial it st)); try assumption.
        now rewrite Hp1. }
      unfold Basic.leaves. rewrite basic_ceiling.
      replace (300 <=? it_time it) with true by (symmetry; apply Z.leb_le; lia).
      cbn [accumulate exited locals datalen]. rewrite Hd1, Hd.
      change (int (0 + 1)) with 1. split; [lia | reflexivity].
    + destruct (Basic.leaves sel it (Basic.sampleDevice it st d)) as [stop d'].
      destruct stop.
      * cbn [exited locals]. rewrite Hd1, Hd. split; [lia | reflexivity].
      * apply IH; [exact Hts | now rewrite Hd1 | now rewrite Hp1].
Qed.

(** X6.  In the basic sketch a sample is accepted only more than 6000 ms into
    the session, and the exit check fires from 300 ms on: the pass that
    accepts a sample also ends the loop, so a session never accepts more
    than one sample. *)
Theorem basic_session_accepts_at_most_one (sel : Z) (its : list Iteration)
    (d : Device) :
  Forall (fun it => 0 <= it_time it < 2 ^ 32) its ->
  let r := Basic.measuringLoop sel its 0 initState d in
  0 <= datalen (locals r) <= 1
  /\ (datalen (locals r) = 1 -> exited r = true).
Proof.
  intros Hts. apply Basic_loop_one_sample; [exact Hts | reflexivity | reflexivity].
Qed.

Lemma basic_session_accepts_at_most_one_witness :
  let r := Basic.measuringLoop 0 [uniform 250 100; uniform 7000 110; uniform 14000 120]
             0 initState (boot []) in
  0 <= datalen (locals r) <= 1
  /\ (datalen (locals r) = 1 -> exited r = true).
Proof.
  apply (basic_session_accepts_at_most_one 0
           [uniform 250 100; uniform 7000 110; uniform 14000 120] (boot [])).
  repeat (constructor; [simpl; lia |]). constructor.
Defined.

(** * The sums of the regression *)

Lemma Basic_follows : follows Basic.accepts Basic.sample.
Proof.
  split.
  - intros t st H. unfold Basic.accepts in H. apply andb_true_iff in H as [H _].
    now apply Z.ltb_lt.
  - intros it st st1. unfold Basic.sample. fold st1.
    exists (it_time it). destruct (Basic.accepts (it_time it) st1); reflexivity.
Qed.

Lemma Advanced_follows : follows Advanced.accepts Advanced.sample.
Proof.
  split.
  - intros t st H. unfold Advanced.accepts in H. apply andb_true_iff in H as [H _].
    now apply Z.ltb_lt.
  - intros it st st1. unfold Advanced.sample. fold st1.
    exists (past_time st1). destruct (Advanced.accepts (it_time it) st1); reflexivity.
Qed.

Lemma captureInitial_id it st :
  initialTaken st = true -> captureInitial it st = st.
Proof. intros H. unfold captureInitial. now rewrite H. Qed.

Section Sums.
Variable accepts : Z -> MeasureState -> bool.
Variable sample : Iteration -> MeasureState -> MeasureState.
Hypothesis sample_follows : follows accepts sample.

(** From a state whose initial reading is taken, the sums grow by the
    terms of the accepted passes, in order. *)
Lemma sums_from (its : list Iteration) : forall st,
  initialTaken st = true -> 0 <= datalen st <= maxlen ->
  let st' := runSamples sample its st in
  let acc := acceptedPasses accepts sample its st in
  initialTaken st' = true /\ initial st' = initial st
  /\ datalen st' = datalen st + Z.of_nat (length acc)
  /\ datalen st' <= maxlen
  /\ x2 st'
     = fold_left
         (fun s it => fadd s (fmul (current_time_total_minutes (it_time it))
                                   (current_time_total_minutes (it_time it))))
         acc (x2 st)
  /\ forall i, (i < 6)%nat ->
       chan (xy st') i
       = fold_left
           (fun s it => fadd s (fmul (deviation (chan (it_spec it) i)
                                                (chan (initial st) i))
                                     (current_time_total_minutes (it_time it))))
           acc (chan (xy st) i).
Proof.
  induction its as [| it its IH]; intros st Ht Hd; cbn zeta.
  - cbn. repeat split; try reflexivity; try assumption; lia.
  - cbn [runSamples fold_left acceptedPasses].
    destruct sample_follows as [Hcap Hstep].
    destruct (Hstep it st) as [pt Hs]. cbn zeta in Hs.
    rewrite (captureInitial_id it st Ht) in *.
    destruct (accepts (it_time it) st) eqn:Ea.
    + pose proof (Hcap _ _ Ea) as Hlt.
      assert (Ht' : initialTaken (sample it st) = true) by (rewrite Hs; exact Ht).
      assert (Hd' : 0 <= datalen (sample it st) <= maxlen).
      { rewrite Hs. cbn [datalen]. rewrite int_small by lia. lia. }
      destruct (IH (sample it st) Ht' Hd') as (H1 & H2 & H3 & H4 & H5 & H6).
      cbn zeta in *. unfold runSamples in *.
      split; [exact H1 |]. split; [rewrite H2, Hs; reflexivity |].
      split.
      { rewrite H3, Hs. cbn [datalen app length]. rewrite int_small by lia. lia. }
      split; [exact H4 |]. split.
      { rewrite H5. cbn [app fold_left]. rewrite Hs. reflexivity. }
      intros i Hi. rewrite (H6 i Hi). cbn [app fold_left].
      rewrite Hs. cbn [initial xy accumulate snd].
      rewrite chan_map by exact Hi. reflexivity.
    + rewrite Hs in *. cbn [app]. apply (IH st Ht Hd).
Qed.

(** The sums of a session are the sums over its accepted passes. *)
Lemma session_sums (it0 : Iteration) (its : list Iteration) :
  let st := runSamples sample (it0 :: its) initState in
  let acc := acceptedPasses accepts sample (it0 :: its) initState in
  datalen st = Z.of_nat (length acc)
  /\ datalen st <= maxlen
  /\ x2 st = sumSquares acc
  /\ forall i, (i < 6)%nat ->
       chan (xy st) i = sumProducts i it0 acc
       /\ chan (processSlopes (xy st) (x2 st)) i
          = fdiv (sumProducts i it0 acc) (sumSquares acc).
Proof.
  cbn zeta. cbn [runSamples fold_left acceptedPasses].
  destruct sample_follows as [Hcap Hstep].
  destruct (Hstep it0 initState) as [pt Hs]. cbn zeta in Hs.
  set (st1 := captureInitial it0 initState) in *.
  assert (Ht1 : initialTaken st1 = true) by apply captureInitial_taken.
  assert (Hi1 : initial st1 = map (chan (it_spec it0)) (seq 0 6)) by reflexivity.
  assert (Hsums1 : x2 st1 = Fin 0 /\ xy st1 = replicate 6 (Fin 0) /\ datalen st1 = 0)
    by (repeat split; reflexivity).
  destruct Hsums1 as (Hx1 & Hxy1 & Hd1).
  assert (Hz : forall i, (i < 6)%nat -> chan (replicate 6 (Fin 0)) i = Fin 0).
  { intros i Hi. do 6 (destruct i as [| i]; [reflexivity |]). lia. }
  destruct (accepts (it_time it0) st1) eqn:Ea.
  - assert (Ht' : initialTaken (sample it0 initState) = true)
      by (rewrite Hs; exact Ht1).
    assert (Hd' : 0 <= datalen (sample it0 initState) <= maxlen).
    { rewrite Hs. cbn [datalen]. rewrite Hd1. change (int (0 + 1)) with 1.
      unfold maxlen. lia. }
    destruct (sums_from its (sample it0 initState) Ht' Hd')
      as (_ & _ & H3 & H4 & H5 & H6).
    cbn zeta in *. unfold runSamples in *.
    assert (Hx : x2 (fold_left (fun st it => sample it st) its (sample it0 initState))
                 = sumSquares ([it0] ++ acceptedPasses accepts sample its
                                           (sample it0 initState))).
    { rewrite H5. unfold sumSquares. cbn [app fold_left]. rewrite Hs.
      cbn [x2 accumulate fst]. rewrite Hx1. reflexivity. }
    split.
    { rewrite H3, Hs. cbn [datalen app length]. rewrite Hd1.
      change (int (0 + 1)) with 1. lia. }
    split; [exact H4 |]. split; [exact Hx |].
    intros i Hi.
    assert (Hp : chan (xy (fold_left (fun st it => sample it st) its
                             (sample it0 initState))) i
                 = sumProducts i it0 ([it0] ++ acceptedPasses accepts sample its
                                                (sample it0 initState))).
    { rewrite (H6 i Hi). unfold sumProducts. cbn [app fold_left].
      rewrite Hs. cbn [initial xy accumulate snd]. rewrite Hi1, Hxy1.
      rewrite !chan_map by exact Hi. rewrite (Hz i Hi). reflexivity. }
    split; [exact Hp |].
    unfold processSlopes. rewrite chan_map by exact Hi. now rewrite Hp, Hx.
  - rewrite Hs. cbn [app].
    destruct (sums_from its st1 Ht1) as (_ & _ & H3 & H4 & H5 & H6).
    { rewrite Hd1. unfold maxlen. lia. }
    cbn zeta in *. unfold runSamples in *.
    assert (Hx : x2 (fold_left (fun st it => sample it st) its st1)
                 = sumSquares (acceptedPasses accepts sample its st1)).
    { rewrite H5, Hx1. reflexivity. }
    split; [rewrite H3, Hd1; lia |]. split; [exact H4 |]. split; [exact Hx |].
    intros i Hi.
    assert (Hp : chan (xy (fold_left (fun st it => sample it st) its st1)) i
                 = sumProducts i it0 (acceptedPasses accepts sample its st1)).
    { rewrite (H6 i Hi). unfold sumProducts. rewrite Hi1, Hxy1.
      rewrite chan_map by exact Hi. rewrite (Hz i Hi). reflexivity. }
    split; [exact Hp |].
    unfold processSlopes. rewrite chan_map by exact Hi. now rewrite Hp, Hx.
Qed.
End Sums.

(** X7.  The regression as the loop computes it.  In each sketch, after any
    passes of a session, [datalen] is the number of accepted passes and
    never exceeds 50; sumXX is the sum of x squared over the accepted
    passes, sumXY of a channel the sum of x times y over them, y being the
    deviation from the reading of the first pass, and the slope their
    quotient: a least-squares line through the origin over the accepted
    samples only. *)
Theorem slopes_fit_accepted_passes (it0 : Iteration) (its : list Iteration) (i : nat) :
  (i < 6)%nat ->
  (let st := runSamples Basic.sample (it0 :: its) initState in
   let acc := acceptedPasses Basic.accepts Basic.sample (it0 :: its) initState in
   datalen st = Z.of_nat (length acc) /\ datalen st <= 50
   /\ x2 st = sumSquares acc /\ chan (xy st) i = sumProducts i it0 acc
   /\ chan (processSlopes (xy st) (x2 st)) i
      = fdiv (sumProducts i it0 acc) (sumSquares acc))
  /\ (let st := runSamples Advanced.sample (it0 :: its) initState in
      let acc := acceptedPasses Advanced.accepts Advanced.sample (it0 :: its) initState in
      datalen st = Z.of_nat (length acc) /\ datalen st <= 50
      /\ x2 st = sumSquares acc /\ chan (xy st) i = sumProducts i it0 acc
      /\ chan (processSlopes (xy st) (x2 st)) i
         = fdiv (sumProducts i it0 acc) (sumSquares acc)).
Proof.
  intros Hi. split; cbn zeta.
  - destruct (session_sums _ _ Basic_follows it0 its) as (H1 & H2 & H3 & H4).
    destruct (H4 i Hi) as [H5 H6]. repeat split; assumption.
  - destruct (session_sums _ _ Advanced_follows it0 its) as (H1 & H2 & H3 & H4).
    destruct (H4 i Hi) as [H5 H6]. repeat split; assumption.
Qed.

Lemma slopes_fit_accepted_passes_witness :
  let st := runSamples Advanced.sample scenarioA initState in
  let acc := acceptedPasses Advanced.accepts Advanced.sample scenarioA initState in
  datalen st = Z.of_nat (length acc) /\ datalen st <= 50
  /\ x2 st = sumSquares acc
  /\ chan (xy st) 0 = sumProducts 0 (uniform 250 100) acc
  /\ chan (processSlopes (xy st) (x2 st)) 0
     = fdiv (sumProducts 0 (uniform 250 100) acc) (sumSquares acc).
Proof.
  apply (proj2 (slopes_fit_accepted_passes (uniform 250 100)
                  [uniform 60000 110; uniform 120000 120; uniform 180000 130]
                  0 ltac:(lia))).
Defined.

(** * Buttons *)

Lemma existsb_seq_shift (f : nat -> bool) (n : nat) :
  existsb f (seq 1 n) = existsb (fun j => f (S j)) (seq 0 n).
Proof.
  rewrite <- seq_shift. induction (seq 0 n) as [| x l IH]; [reflexivity |].
  cbn. now rewrite IH.
Qed.

Lemma existsb_same (f g : nat -> bool) (l : list nat) :
  (forall j, f j = g j) -> existsb f l = existsb g l.
Proof.
  intros H. induction l as [| x l IH]; [reflexivity |]. cbn. now rewrite H, IH.
Qed.

Lemma buttonLoop_edges (n : nat) : forall i h pin s,
  fst (buttonLoop n i h pin s)
  = existsb (risingAt h (fun j => pin (i + j)%nat)) (seq 0 n).
Proof.
  induction n as [| n IH]; intros i h pin s; [reflexivity |].
  cbn [buttonLoop]. change (seq 0 (S n)) with (0%nat :: seq 1 n).
  cbn [existsb]. unfold risingAt at 1. cbn [levelBefore].
  rewrite Nat.add_0_r.
  destruct ((int8 (pin i) =? 1) && (h =? 0)); [reflexivity |].
  cbn [orb]. rewrite IH, existsb_seq_shift.
  apply existsb_same. intros j. unfold risingAt.
  replace (i + S j)%nat with (S i + j)%nat by lia.
  destruct j as [| j]; cbn [levelBefore].
  - now rewrite !Nat.add_0_r.
  - replace (i + S j)%nat with (S i + j)%nat by lia. reflexivity.
Qed.

(** X8.  [checkForButtonPress] reports a press exactly when one of its 80
    polls finds [selectPin] at 1 after a level of 0, the level handed in
    counting for the first poll.  A button held down since before the
    burst (handed in as 1, read as 1 throughout) is not a press. *)
Theorem checkForButtonPress_rising_edge (h : Z) (pin : nat -> Z) (d : Device) :
  returned (checkForButtonPress h pin d)
  = Some (existsb (risingAt h pin) (seq 0 80))
  /\ returned (checkForButtonPress 1 (fun _ => 1) d) = Some false.
Proof.
  split.
  - unfold checkForButtonPress.
    pose proof (buttonLoop_edges 80 0 h pin (selectState d)) as H.
    destruct (buttonLoop 80 0 h pin (selectState d)) as [b s].
    cbn [returned fst] in *. rewrite H. reflexivity.
  - unfold checkForButtonPress.
    pose proof (buttonLoop_edges 80 0 1 (fun _ => 1) (selectState d)) as H.
    destruct (buttonLoop 80 0 1 (fun _ => 1) (selectState d)) as [b s].
    cbn [returned fst] in *. rewrite H. reflexivity.
Qed.

(** * Waiting on the line *)

Lemma waitFor_first (c : Z) (pre : list (option Z)) : forall r,
  Forall (fun p => p <> Some c) pre ->
  waitFor c (pre ++ Some c :: r) = Some r.
Proof.
  induction pre as [| p pre IH]; intros r H.
  - cbn. now rewrite Z.eqb_refl.
  - apply Forall_cons in H as [Hp H]. cbn [app waitFor].
    destruct p as [b |]; [| now apply IH].
    destruct (b =? c) eqn:E; [| now apply IH].
    apply Z.eqb_eq in E. subst b. now contradiction Hp.
Qed.

Lemma waitFor_never (c : Z) (r : list (option Z)) :
  Forall (fun p => p <> Some c) r -> waitFor c r = None.
Proof.
  induction r as [| p r IH]; intros H; [reflexivity |].
  apply Forall_cons in H as [Hp H]. cbn [waitFor].
  destruct p as [b |]; [| now apply IH].
  destruct (b =? c) eqn:E; [| now apply IH].
  apply Z.eqb_eq in E. subst b. now contradiction Hp.
Qed.

(** X9.  [waitForChar] throws away whatever arrives before the first byte [c],
    takes that byte, and sends nothing; if [c] never arrives it does not
    return. *)
Theorem waitForChar_takes_first (c : Z) (pre r : list (option Z)) (d : Device) :
  Forall (fun p => p <> Some c) pre ->
  (rx d = pre ++ Some c :: r -> waitForChar c d = Done tt (set_rx r d))
  /\ (rx d = pre -> waitForChar c d = Pending (set_rx [] d)).
Proof.
  intros Hpre. split; intros E; unfold waitForChar; rewrite E.
  - now rewrite waitFor_first.
  - now rewrite waitFor_never.
Qed.

Lemma waitForChar_takes_first_witness :
  waitForChar PROMPT (boot [None; Some CR; Some LF; Some PROMPT; Some ENTRY])
  = Done tt (set_rx [Some ENTRY]
               (boot [None; Some CR; Some LF; Some PROMPT; Some ENTRY]))
  /\ waitForChar PROMPT (boot [None; Some CR; Some LF])
     = Pending (set_rx [] (boot [None; Some CR; Some LF])).
Proof.
  assert (H : Forall (fun p => p <> Some PROMPT) [None; Some CR; Some LF]).
  { repeat (constructor; [discriminate |]). constructor. }
  split.
  - apply (proj1 (waitForChar_takes_first PROMPT [None; Some CR; Some LF]
                    [Some ENTRY] _ H)). reflexivity.
  - apply (proj2 (waitForChar_takes_first PROMPT [None; Some CR; Some LF]
                    [Some ENTRY] _ H)). reflexivity.
Defined.

(** * The patience of the header check *)

Lemma checkHeaderLoop_gap (g : nat) : forall header len r t fp,
  t + Z.of_nat g < 1000 -> 0 <= t ->
  checkHeaderLoop header len (replicate g None ++ r) t fp
  = checkHeaderLoop header len r (t + Z.of_nat g) fp.
Proof.
  induction g as [| g IH]; intros header len r t fp Ht H0.
  - cbn. now rewrite Z.add_0_r.
  - cbn [replicate app checkHeaderLoop poll_value].
    change (int8 (-1)) with (-1). change (0 <? -1) with false. cbv iota.
    replace (t + 1 <? 1000) with true by (symmetry; apply Z.ltb_lt; lia).
    rewrite IH by lia. f_equal. lia.
Qed.

Lemma checkHeaderLoop_accepts (pre : list Z) : forall done gaps k rest,
  pre <> [] -> Forall textChar pre -> (forall j, (gaps j < 1000)%nat) ->
  checkHeaderLoop (done ++ pre) (Z.of_nat (length (done ++ pre)))
                  (withGaps gaps k pre ++ rest) 0 (Z.of_nat (length done))
  = (true, rest).
Proof.
  induction pre as [| c pre IH]; intros done gaps k rest Hne Hpos Hg;
    [congruence |].
  apply Forall_cons in Hpos as [Hc Hpos].
  cbn [withGaps]. rewrite <- app_assoc.
  rewrite checkHeaderLoop_gap by (specialize (Hg k); lia).
  cbn [app checkHeaderLoop poll_value]. rewrite (textChar_int8 c Hc).
  replace (0 <? c) with true by (symmetry; apply Z.ltb_lt; apply Hc).
  rewrite Nat2Z.id.
  replace (nth (length done) (done ++ c :: pre) 0) with c.
  2:{ rewrite app_nth2 by lia. now rewrite Nat.sub_diag. }
  rewrite Z.eqb_refl.
  destruct pre as [| c' pre].
  - replace (Z.of_nat (length done) =? Z.of_nat (length (done ++ [c])) - 1)
      with true.
    2:{ symmetry. apply Z.eqb_eq. rewrite length_app. cbn [length]. lia. }
    reflexivity.
  - replace (Z.of_nat (length done)
             =? Z.of_nat (length (done ++ c :: c' :: pre)) - 1) with false.
    2:{ symmetry. apply Z.eqb_neq. rewrite length_app. cbn [length]. lia. }
    pose proof (IH (done ++ [c]) gaps (S k) rest ltac:(discriminate) Hpos Hg) as H.
    rewrite <- app_assoc in H. cbn [app] in H.
    replace (Z.of_nat (length done) + 1) with (Z.of_nat (length done + 1)) by lia.
    rewrite <- H. rewrite !length_app. cbn [length].
    reflexivity.
Qed.

(** X10.  The header check waits up to 1000 polls for each character.  The
    header is accepted however its 20 characters are spread out, as long
    as fewer than 1000 empty polls come before each; after 1000 empty
    polls in a row the check gives up and turns the file down, also when
    the header arrives right after. *)
Theorem checkHeader_patience (gaps : nat -> nat) (rest : list (option Z)) :
  (forall j, (gaps j < 1000)%nat) ->
  checkHeaderLoop (codes configHeader) 20
                  (withGaps gaps 0 (codes configHeader) ++ rest) 0 0
  = (true, rest)
  /\ checkHeaderLoop (codes configHeader) 20
                     (replicate 1000 None ++ bytes configHeader ++ rest) 0 0
     = (false, bytes configHeader ++ rest).
Proof.
  intros Hg. split.
  - apply (checkHeaderLoop_accepts (codes configHeader) [] gaps 0 rest).
    + discriminate.
    + apply configHeader_text.
    + exact Hg.
  - change (replicate 1000 None) with (replicate 999 (@None Z) ++ [None]).
    rewrite <- app_assoc.
    rewrite checkHeaderLoop_gap by lia.
    reflexivity.
Qed.

Lemma checkHeader_patience_witness :
  checkHeaderLoop (codes configHeader) 20
                  (withGaps (fun _ => 999%nat) 0 (codes configHeader) ++ [Some CR]) 0 0
  = (true, [Some CR])
  /\ checkHeaderLoop (codes configHeader) 20
                     (replicate 1000 None ++ bytes configHeader ++ [Some CR]) 0 0
     = (false, bytes configHeader ++ [Some CR]).
Proof.
  apply (checkHeader_patience (fun _ => 999%nat) [Some CR]). intros j. lia.
Defined.

(** * Reading the data row *)













(** * Calibration *)

Lemma calibration_fold (env : nat -> CalSample) (r : nat -> nat -> Q) (k : nat)
    (l : list nat) : forall acc s,
  (k < 6)%nat ->
  (forall i, In i l -> chan (cal_spec (env i)) k = Fin (r i k)) ->
  chan (snd acc) k = Fin s ->
  exists s',
    chan (snd (fold_left
                 (fun acc i =>
                    (int (fst acc + cal_uv (env i)),
                     map (fun k => fadd (chan (snd acc) k) (chan (cal_spec (env i)) k))
                         (seq 0 6)))
                 l acc)) k = Fin s'
    /\ (s' == fold_left (fun s i => s + r i k) l s)%Q.
Proof.
  induction l as [| i l IH]; intros acc s Hk Hr Hs.
  - exists s. split; [exact Hs | reflexivity].
  - cbn [fold_left].
    destruct (IH (int (fst acc + cal_uv (env i)),
                  map (fun k => fadd (chan (snd acc) k) (chan (cal_spec (env i)) k))
                      (seq 0 6))
                 (Qred (s + r i k)) Hk) as (s' & E & Hs').
    + intros j Hj. apply Hr. now right.
    + cbn [snd]. rewrite chan_map by exact Hk.
      rewrite Hs, (Hr i (or_introl eq_refl)). reflexivity.
    + exists s'. split; [exact E |]. rewrite Hs'.
      clear - l. revert s. induction l as [| j l IHl]; intros s.
      * cbn. apply Qred_correct.
      * cbn [fold_left]. 
        assert (Hgen : forall a b, (a == b)%Q ->
                  (fold_left (fun s i => s + r i k) l a
                   == fold_left (fun s i => s + r i k) l b)%Q).
        { clear. induction l as [| x l IHl]; intros a b Hab; [exact Hab |].
          cbn [fold_left]. apply IHl. now rewrite Hab. }
        apply Hgen. rewrite Qred_correct. reflexivity.
Qed.

Lemma clampedAverage_Fin (s : Q) :
  exists c, clampedAverage (Fin s) = Fin c
            /\ (0 <= c)%Q
            /\ ((0 <= s / 20)%Q -> (c == s / 20)%Q)
            /\ ((s / 20 < 0)%Q -> (c == 0)%Q).
Proof.
  unfold clampedAverage, of_Z. cbn [fdiv].
  change (Qsgn (inject_Z 20) =? 0) with false. cbv iota.
  assert (E : (Qred (s / inject_Z 20) == s / 20)%Q) by apply Qred_correct.
  destruct (flt (Fin (Qred (s / inject_Z 20))) (Fin (inject_Z 0))) eqn:El.
  - apply flt_Fin in El. rewrite E in El. exists (inject_Z 0).
    split; [reflexivity |]. split; [apply Qle_refl |]. split.
    + intros H. exfalso. exact (Qlt_irrefl _ (Qlt_le_trans _ _ _ El H)).
    + intros _. reflexivity.
  - apply flt_Fin_false in El. exists (Qred (s / inject_Z 20)).
    split; [reflexivity |]. split; [exact El |]. split.
    + intros _. exact E.
    + intros H. exfalso. rewrite E in El. exact (Qlt_irrefl _ (Qlt_le_trans _ _ _ H El)).
Qed.

Lemma calibrate_after_sums :
  sends (fun _ => True) (writeConfig ;; emit (Write CR) ;; waitForChar PROMPT).
Proof.
  apply sends_bind; [apply writeConfig_sends_any | intros _]. sends_any.
Qed.

Lemma calibrate_config uv0 env d d' :
  final (calibrate uv0 env d) = Some d' ->
  config d'
  = mkConfig (index (config d))
             (map (fun k => clampedAverage (chan (snd (calibrationSums uv0 env)) k))
                  (seq 0 6))
             (int (Z.quot (fst (calibrationSums uv0 env)) 20)).
Proof.
  unfold calibrate. unfold mbind at 1. unfold sketch_bind at 1. unfold bind at 1.
  unfold effect at 1. intros H.
  destruct (calibrate_after_sums _ d' H) as [Hc _]. rewrite Hc. reflexivity.
Qed.

(** X13.  The calibration clamp.  After [calibrationMenu], in either sketch and
    for finite readings, each calibration value is the mean of the twenty
    readings of its channel when that mean is not negative and 0 when it
    is, so it is never negative; the session index is left as it was. *)
Theorem calibration_clamps_means (uv0 : Z) (env : nat -> CalSample)
    (r : nat -> nat -> Q) (d d' : Device) (k : nat) :
  (forall i, (i < 20)%nat -> chan (cal_spec (env i)) k = Fin (r i k)) ->
  (k < 6)%nat ->
  final (calibrate uv0 env d) = Some d' ->
  index (config d') = index (config d)
  /\ exists c,
       chan (calibration (config d')) k = Fin c
       /\ (0 <= c)%Q
       /\ ((0 <= meanOf (fun i => r i k))%Q -> (c == meanOf (fun i => r i k))%Q)
       /\ ((meanOf (fun i => r i k) < 0)%Q -> (c == 0)%Q).
Proof.
  intros Hr Hk Hfin. rewrite (calibrate_config uv0 env d d' Hfin).
  cbn [index calibration]. split; [reflexivity |].
  rewrite chan_map by exact Hk.
  destruct (calibration_fold env r k (seq 0 20) (uv0, replicate 6 (Fin 0)) 0 Hk)
    as (s & Es & Hs).
  { intros i Hi. apply Hr. apply in_seq in Hi. lia. }
  { cbn [snd]. do 6 (destruct k as [| k]; [reflexivity |]). lia. }
  unfold calibrationSums. rewrite Es.
  destruct (clampedAverage_Fin s) as (c & Ec & Hc0 & Hc1 & Hc2).
  assert (Em : (s / 20 == meanOf (fun i => r i k))%Q).
  { unfold meanOf. now rewrite Hs. }
  exists c. split; [exact Ec |]. split; [exact Hc0 |]. rewrite <- Em.
  split; assumption.
Qed.


Lemma calibration_clamps_means_witness :
  index (config (default (boot [])
           (final (Advanced.calibrationMenu
                     (fun i => mkCalSample 100
                                 (replicate 6 (Fin (inject_Z (Z.of_nat i) - 15))))
                     (boot answers)))))
  = index (config (boot answers))
  /\ exists c,
       chan (calibration (config (default (boot [])
               (final (Advanced.calibrationMenu
                         (fun i => mkCalSample 100
                                     (replicate 6 (Fin (inject_Z (Z.of_nat i) - 15))))
                         (boot answers)))))) 0 = Fin c
       /\ (0 <= c)%Q
       /\ ((0 <= meanOf (fun i => inject_Z (Z.of_nat i) - 15))%Q ->
           (c == meanOf (fun i => inject_Z (Z.of_nat i) - 15))%Q)
       /\ ((meanOf (fun i => inject_Z (Z.of_nat i) - 15) < 0)%Q -> (c == 0)%Q).
Proof.
  apply (calibration_clamps_means 0
           (fun i => mkCalSample 100 (replicate 6 (Fin (inject_Z (Z.of_nat i) - 15))))
           (fun i _ => inject_Z (Z.of_nat i) - 15)%Q
           (boot answers)
           (default (boot [])
              (final (Advanced.calibrationMenu
                        (fun i => mkCalSample 100
                                    (replicate 6 (Fin (inject_Z (Z.of_nat i) - 15))))
                        (boot answers))))
           0).
  - intros i Hi. reflexivity.
  - lia.
  - vm_compute. reflexivity.
Defined.

Lemma int_fits (z : Z) : 0 <= z <= 32767 -> int z = z.
Proof.
  intros H. unfold int, wrap_signed, int_bits.
  rewrite Z.mod_small; simpl; lia.
Qed.

Lemma uv_fold (env : nat -> CalSample) (l : list nat) : forall acc,
  (forall i, In i l -> 0 <= cal_uv (env i) <= 1023) ->
  0 <= fst acc ->
  fst acc + 1023 * Z.of_nat (length l) <= 32767 ->
  fst (fold_left
         (fun acc i =>
            (int (fst acc + cal_uv (env i)),
             map (fun k => fadd (chan (snd acc) k) (chan (cal_spec (env i)) k))
                 (seq 0 6)))
         l acc)
  = fold_left (fun s i => s + cal_uv (env i)) l (fst acc).
Proof.
  induction l as [| i l IH]; intros acc Hr H0 Hmax; [reflexivity |].
  cbn [fold_left]. cbn [length] in Hmax.
  pose proof (Hr i (or_introl eq_refl)) as Hi.
  assert (Ei : int (fst acc + cal_uv (env i)) = fst acc + cal_uv (env i)).
  { apply int_fits. lia. }
  rewrite IH.
  - cbn [fst]. now rewrite Ei.
  - intros j Hj. apply Hr. now right.
  - cbn [fst]. rewrite Ei. lia.
  - cbn [fst]. rewrite Ei. lia.
Qed.

Lemma uv_fold_bounds (env : nat -> CalSample) (l : list nat) : forall a,
  (forall i, In i l -> 0 <= cal_uv (env i) <= 1023) ->
  a <= fold_left (fun s i => s + cal_uv (env i)) l a
       <= a + 1023 * Z.of_nat (length l).
Proof.
  induction l as [| i l IH]; intros a Hr; cbn [fold_left length]; [lia |].
  pose proof (Hr i (or_introl eq_refl)) as Hi.
  specialize (IH (a + cal_uv (env i)) (fun j Hj => Hr j (or_intror Hj))). lia.
Qed.

(** X14.  The ultraviolet baseline of the advanced sketch.  With readings in the
    range of [analogRead], [calibrationMenu] leaves in [uvCalibration] the
    integer quotient by 20 of the sum of the twenty readings, which lies
    in the same range. *)
Theorem advanced_uv_baseline (env : nat -> CalSample) (d d' : Device) :
  (forall i, (i < 20)%nat -> 0 <= cal_uv (env i) <= 1023) ->
  final (Advanced.calibrationMenu env d) = Some d' ->
  uvCalibration (config d') = uvTotal env / 20
  /\ 0 <= uvCalibration (config d') <= 1023.
Proof.
  intros Hr Hfin.
  pose proof (calibrate_config 0 env d d' Hfin) as Hc.
  assert (Hin : forall i, In i (seq 0 20) -> 0 <= cal_uv (env i) <= 1023).
  { intros i Hi. apply Hr. apply in_seq in Hi. lia. }
  assert (Ef : fst (calibrationSums 0 env) = uvTotal env).
  { unfold calibrationSums, uvTotal.
    apply (uv_fold env (seq 0 20) (0, replicate 6 (Fin 0)) Hin).
    - apply Z.le_refl.
    - rewrite length_seq. change (fst (0, replicate 6 (Fin 0))) with 0.
      change (Z.of_nat 20) with 20. lia. }
  assert (Hb : 0 <= uvTotal env <= 20460).
  { destruct (uv_fold_bounds env (seq 0 20) 0 Hin) as [Hb1 Hb2].
    split; [exact Hb1 |]. eapply Z.le_trans; [exact Hb2 |].
    rewrite length_seq. discriminate. }
  assert (Hq : 0 <= uvTotal env / 20 <= 1023).
  { split; [apply Z.div_pos; lia |].
    apply Z.div_le_upper_bound; lia. }
  rewrite Hc. cbn [uvCalibration]. rewrite Ef.
  rewrite Z.quot_div_nonneg by lia.
  rewrite int_fits by lia. split; [reflexivity | exact Hq].
Qed.

Lemma advanced_uv_baseline_witness :
  uvCalibration (config (default (boot [])
     (final (Advanced.calibrationMenu
               (fun i => mkCalSample (500 + Z.of_nat i) (replicate 6 (Fin 1)))
               (boot answers)))))
  = uvTotal (fun i => mkCalSample (500 + Z.of_nat i) (replicate 6 (Fin 1))) / 20
  /\ 0 <= uvCalibration (config (default (boot [])
            (final (Advanced.calibrationMenu
                      (fun i => mkCalSample (500 + Z.of_nat i) (replicate 6 (Fin 1)))
                      (boot answers))))) <= 1023.
Proof.
  apply (advanced_uv_baseline
           (fun i => mkCalSample (500 + Z.of_nat i) (replicate 6 (Fin 1)))
           (boot answers)
           (default (boot [])
              (final (Advanced.calibrationMenu
                        (fun i => mkCalSample (500 + Z.of_nat i) (replicate 6 (Fin 1)))
                        (boot answers))))).
  - intros i Hi. cbn [cal_uv]. lia.
  - vm_compute. reflexivity.
Defined.

(** X15.  Calibration is persistent.  When [calibrationMenu] returns, what it
    sent is the three commands that replace config.csv, the image of the
    profile it has just computed, and one carriage return, in this order
    and nothing else. *)
Theorem calibration_stores_new_profile (uv0 : Z) (env : nat -> CalSample)
    (d d' : Device) :
  calibrate uv0 env d = Done tt d' ->
  tx d' = tx d ++ command "rm" "config.csv" ++ command "new" "config.csv"
               ++ command "write" "config.csv" ++ configImage (config d')
               ++ [Write CR].
Proof.
  intros H.
  pose proof (calibrate_config uv0 env d d' (f_equal final H)) as Hc.
  revert H. unfold calibrate.
  unfold mbind at 1. unfold sketch_bind at 1. unfold bind at 1.
  unfold effect at 1.
  set (d1 := set_config _ d).
  assert (Ed1 : config d1 = config d') by (rewrite Hc; reflexivity).
  destruct (writeConfig d1) as [[] d2 | d2 |] eqn:E2.
  - rewrite (bind_Done _ _ _ _ _ E2).
    destruct (writeConfig_returns d1 d2 E2) as [_ Ht].
    unfold mbind, sketch_bind, bind, emit, waitForChar. cbn [rx tx set_tx set_rx].
    destruct (waitFor PROMPT (rx d2)); intros [= <-]; cbn [tx set_rx set_tx].
    rewrite Ht, Ed1. subst d1. cbn [tx set_config]. rewrite <- !app_assoc. reflexivity.
  - rewrite (bind_Pending _ _ _ _ E2). discriminate.
  - rewrite (bind_Undefined _ _ _ E2). discriminate.
Qed.

Lemma calibration_stores_new_profile_witness :
  tx (default (boot [])
        (final (calibrate 0 (fun i => mkCalSample 100 (replicate 6 (Fin 1)))
                          (boot answers))))
  = tx (boot answers)
    ++ command "rm" "config.csv" ++ command "new" "config.csv"
    ++ command "write" "config.csv"
    ++ configImage (config (default (boot [])
          (final (calibrate 0 (fun i => mkCalSample 100 (replicate 6 (Fin 1)))
                            (boot answers)))))
    ++ [Write CR].
Proof.
  apply (calibration_stores_new_profile 0
           (fun i => mkCalSample 100 (replicate 6 (Fin 1))) (boot answers)
           (default (boot [])
              (final (calibrate 0 (fun i => mkCalSample 100 (replicate 6 (Fin 1)))
                                (boot answers))))).
  vm_compute. reflexivity.
Defined.

(** * Menus *)

Lemma keepsMenu_ret {A} (a : A) : keepsMenu (mret a).
Proof. intros d d' [= <-]. split; reflexivity. Qed.

Lemma keepsMenu_bind {A B} (m : Sketch A) (k : A -> Sketch B) :
  keepsMenu m -> (forall a, keepsMenu (k a)) -> keepsMenu (m ≫= k).
Proof.
  intros Hm Hk d d'. unfold mbind, sketch_bind, bind.
  destruct (m d) as [a d1 | d1 |] eqn:E.
  - intros H. destruct (Hk a d1 d' H) as [H1 H2].
    destruct (Hm d d1) as [H3 H4]; [now rewrite E |].
    split; congruence.
  - intros [= <-]. apply Hm. now rewrite E.
  - discriminate.
Qed.

Lemma keepsMenu_emit e : keepsMenu (emit e).
Proof. intros d d' [= <-]. split; reflexivity. Qed.

Lemma keepsMenu_emits es : keepsMenu (emits es).
Proof. intros d d' [= <-]. split; reflexivity. Qed.

Lemma keepsMenu_waitForChar c : keepsMenu (waitForChar c).
Proof.
  intros d d'. unfold waitForChar.
  destruct (waitFor c (rx d)); intros [= <-]; split; reflexivity.
Qed.

Lemma keepsMenu_reading {A} (k : Device -> Sketch A) :
  (forall d0, keepsMenu (k d0)) -> keepsMenu (reading k).
Proof. intros H d d'. unfold reading. apply H. Qed.

Ltac keeps_menu :=
  repeat first
    [ apply keepsMenu_ret
    | apply keepsMenu_emit
    | apply keepsMenu_emits
    | apply keepsMenu_waitForChar
    | apply keepsMenu_reading; intros ?
    | apply keepsMenu_bind; [| intros ?] ].

Lemma writeConfig_keepsMenu : keepsMenu writeConfig.
Proof. unfold writeConfig, writeFile, sendSDCommand. keeps_menu. Qed.

Lemma keepsMenu_set_config (f : Device -> Config) :
  keepsMenu (effect (fun d => Done tt (set_config (f d) d))).
Proof. intros d d' [= <-]. split; reflexivity. Qed.

Lemma calibrate_keepsMenu uv0 env : keepsMenu (calibrate uv0 env).
Proof.
  unfold calibrate. apply keepsMenu_bind.
  - exact (keepsMenu_set_config
             (fun d =>
                mkConfig (index (config d))
                  (map (fun k => clampedAverage (chan (snd (calibrationSums uv0 env)) k))
                       (seq 0 6))
                  (int (Z.quot (fst (calibrationSums uv0 env)) 20)))).
  - intros _. apply keepsMenu_bind; [apply writeConfig_keepsMenu | intros _].
    keeps_menu.
Qed.

Lemma endsHome_bind {A B} (m : Sketch A) (k : A -> Sketch B) :
  (forall a, endsHome (k a)) -> endsHome (m ≫= k).
Proof.
  intros Hk d b d'. unfold mbind, sketch_bind, bind.
  destruct (m d) as [a d1 | d1 |]; [apply Hk | discriminate | discriminate].
Qed.

Lemma endsHome_setHomeMenu_then {A} (a : A) : endsHome (setHomeMenu ;; mret a).
Proof. intros d b d' [= _ <-]. split; reflexivity. Qed.

Lemma endsHome_setHomeMenu : endsHome setHomeMenu.
Proof. intros d b d' [= _ <-]. split; reflexivity. Qed.

Lemma Basic_measuring_endsHome h its : endsHome (Basic.measuringMenu1 h its).
Proof.
  unfold Basic.measuringMenu1.
  apply endsHome_bind; intros _. apply endsHome_bind; intros st.
  apply endsHome_bind; intros conc. apply endsHome_setHomeMenu_then.
Qed.

Lemma Advanced_measuring_endsHome h its : endsHome (Advanced.measuringMenu1 h its).
Proof.
  unfold Advanced.measuringMenu1.
  apply endsHome_bind; intros name. apply endsHome_bind; intros st.
  apply endsHome_bind; intros _.
  apply endsHome_bind; intros conc. apply endsHome_setHomeMenu_then.
Qed.

Lemma setup_endsHome : endsHome setup.
Proof.
  unfold setup. do 3 (apply endsHome_bind; intros _). apply endsHome_setHomeMenu.
Qed.

Lemma selectWith_transition (measure : Sketch Report) (calibration : Sketch unit)
    (d d' : Device) :
  endsHome measure -> keepsMenu calibration ->
  selectWith measure calibration d = Done tt d' ->
  selectTransition d d'.
Proof.
  intros Hm Hc. unfold selectWith, reading.
  destruct (currentMenu d =? 0) eqn:E0.
  { apply Z.eqb_eq in E0. intros H.
    assert (H' : currentMenu d' = (if currentSelection d =? 0 then 1 else 3)
                 /\ currentSelection d' = currentSelection d).
    { destruct (currentSelection d =? 0); injection H as <-; split; reflexivity. }
    repeat split; intros; try lia; apply H'. }
  apply Z.eqb_neq in E0.
  destruct (currentMenu d =? 1) eqn:E1.
  { apply Z.eqb_eq in E1. intros H.
    assert (H' : currentMenu d' = 0 /\ currentSelection d' = 0).
    { revert H. unfold mbind at 1. unfold sketch_bind at 1. unfold bind at 1.
      unfold setMenu at 1.
      unfold mbind, sketch_bind, bind.
      destruct (measure _) as [a d1 | d1 |] eqn:Em; try discriminate.
      intros [= <-]. exact (Hm _ _ _ Em). }
    repeat split; intros; try lia; apply H'. }
  apply Z.eqb_neq in E1.
  destruct (currentMenu d =? 3) eqn:E3.
  { apply Z.eqb_eq in E3. intros H.
    assert (H' : currentMenu d' = 5 /\ currentSelection d' = currentSelection d).
    { revert H. unfold mbind at 1. unfold sketch_bind at 1. unfold bind at 1.
      unfold setMenu at 1. intros H.
      destruct (Hc (set_menu 5 (currentSelection d) d) d') as [H1 H2];
        [now rewrite H |].
      rewrite H1, H2. split; reflexivity. }
    repeat split; intros; try lia; apply H'. }
  apply Z.eqb_neq in E3.
  destruct (currentMenu d =? 5) eqn:E5.
  { apply Z.eqb_eq in E5. intros [= <-].
    repeat split; intros; try lia; reflexivity. }
  apply Z.eqb_neq in E5. intros _. repeat split; intros; lia.
Qed.

(** X16.  The select button.  When a round of [loop] that read the select
    button returns, in either sketch: from the home menu the confirmation
    menu of the selected entry is shown; from the confirmation of NEW
    SAMPLE the Measuring session has run and the home menu is shown with
    NEW SAMPLE selected; from the confirmation of CALIBRATE the
    calibration has run and its report (menu 5) is shown; from that report
    the home menu is shown. *)
Theorem select_button_transitions (h : Z) (its : list Iteration) (stale : Z)
    (env : nat -> CalSample) (d d' : Device) :
  Basic.loopRound 1 h its stale env d = Done tt d'
  \/ Advanced.loopRound 1 h its env d = Done tt d' ->
  selectTransition d d'.
Proof.
  intros [H | H].
  - apply (selectWith_transition (Basic.measuringMenu1 h its)
             (Basic.calibrationMenu stale env)).
    + apply Basic_measuring_endsHome.
    + apply calibrate_keepsMenu.
    + exact H.
  - apply (selectWith_transition (Advanced.measuringMenu1 h its)
             (Advanced.calibrationMenu env)).
    + apply Advanced_measuring_endsHome.
    + apply calibrate_keepsMenu.
    + exact H.
Qed.

Lemma select_button_transitions_witness :
  selectTransition
    (set_menu 3 1 (boot answers))
    (default (boot [])
       (final (Advanced.loopRound 1 0 []
                 (fun i => mkCalSample 100 (replicate 6 (Fin 1)))
                 (set_menu 3 1 (boot answers))))).
Proof.
  apply (select_button_transitions 0 [] 0
           (fun i => mkCalSample 100 (replicate 6 (Fin 1)))
           (set_menu 3 1 (boot answers))
           (default (boot [])
              (final (Advanced.loopRound 1 0 []
                        (fun i => mkCalSample 100 (replicate 6 (Fin 1)))
                        (set_menu 3 1 (boot answers)))))).
  right. vm_compute. reflexivity.
Defined.

Lemma navigateMenu_menuOK d d' :
  navigateMenu d = Done tt d' -> menuOK d -> menuOK d'.
Proof.
  unfold navigateMenu, menuOK.
  destruct (currentMenu d =? 0) eqn:E0; [| now intros [= <-]].
  destruct (currentSelection d =? 1); [intros [= <-]; cbn; intros [H _]; split; auto |].
  destruct (currentSelection d =? 0); intros [= <-]; [| tauto].
  cbn. intros [H _]; split; auto.
Qed.

Lemma selectTransition_menuOK d d' :
  selectTransition d d' -> menuOK d -> menuOK d'.
Proof.
  intros (T0 & T1 & T3 & T5) [[H | [H | [H | H]]] Hs]; unfold menuOK.
  - destruct (T0 H) as [E1 E2]. rewrite E1, E2.
    destruct (currentSelection d =? 0); split; auto.
  - destruct (T1 H) as [E1 E2]. rewrite E1, E2. split; auto.
  - destruct (T3 H) as [E1 E2]. rewrite E1, E2. split; auto.
  - destruct (T5 H) as [E1 E2]. rewrite E1, E2. split; auto.
Qed.

(** X17.  The menu invariant.  When [setup] returns, one of the menus 0, 1, 3
    and 5 is shown with selection 0 or 1, and every round of [loop] that
    returns, whatever [buttons] gave and in either sketch, keeps it so:
    menu 2 is never shown between two rounds. *)
Theorem menus_between_rounds (b h : Z) (its : list Iteration) (stale : Z)
    (env : nat -> CalSample) (d d' : Device) :
  setup d = Done tt d'
  \/ (menuOK d
      /\ (Basic.loopRound b h its stale env d = Done tt d'
          \/ Advanced.loopRound b h its env d = Done tt d')) ->
  menuOK d'.
Proof.
  intros [H | [Hok H]].
  - destruct (setup_endsHome d tt d' H) as [E1 E2]. unfold menuOK.
    rewrite E1, E2. split; auto.
  - unfold Basic.loopRound, Advanced.loopRound in H.
    destruct (b =? 0) eqn:B0.
    { destruct H as [H | H]; exact (navigateMenu_menuOK d d' H Hok). }
    destruct (b =? 1) eqn:B1.
    + apply Z.eqb_eq in B1. subst b.
      apply (selectTransition_menuOK d d'); [| exact Hok].
      destruct H as [H | H].
      * apply (selectWith_transition (Basic.measuringMenu1 h its)
                 (Basic.calibrationMenu stale env));
          [apply Basic_measuring_endsHome | apply calibrate_keepsMenu | exact H].
      * apply (selectWith_transition (Advanced.measuringMenu1 h its)
                 (Advanced.calibrationMenu env));
          [apply Advanced_measuring_endsHome | apply calibrate_keepsMenu | exact H].
    + destruct H as [[= <-] | [= <-]]; exact Hok.
Qed.

Lemma menus_between_rounds_witness :
  menuOK (default (boot [])
            (final (Basic.loopRound 0 0 [] 0
                      (fun i => mkCalSample 100 (replicate 6 (Fin 1)))
                      (boot answers)))).
Proof.
  apply (menus_between_rounds 0 0 [] 0
           (fun i => mkCalSample 100 (replicate 6 (Fin 1)))
           (boot answers)
           (default (boot [])
              (final (Basic.loopRound 0 0 [] 0
                        (fun i => mkCalSample 100 (replicate 6 (Fin 1)))
                        (boot answers))))).
  right. split.
  - split; left; reflexivity.
  - left. reflexivity.
Defined.

(** * The verdict *)

(** X18.  The verdict does not depend on the measurement.  Whenever a Measuring
    session returns, in either sketch, the concentration it reports is 0
    and the result is NO_LEAK, whatever was read. *)
Theorem session_verdict_is_constant (sel : Z) (its : list Iteration)
    (d d' : Device) (rep : Report) :
  Basic.measuringMenu1 sel its d = Done rep d'
  \/ Advanced.measuringMenu1 sel its d = Done rep d' ->
  concentration rep = Fin 0 /\ result rep = NO_LEAK.
Proof.
  intros [H | H].
  - destruct (Basic_menu_report sel its d rep d' H) as (k & _ & _ & Hc).
    exact Hc.
  - destruct (Advanced_menu_report sel its d rep d' H) as (k & _ & _ & Hc).
    exact Hc.
Qed.

Lemma session_verdict_is_constant_witness :
  concentration (mkReport (replicate 6 NaN) (Fin 0) NO_LEAK) = Fin 0
  /\ result (mkReport (replicate 6 NaN) (Fin 0) NO_LEAK) = NO_LEAK.
Proof.
  apply (session_verdict_is_constant 0 [uniform 250 100; uniform 900 100]
           (boot [Some PROMPT; Some PROMPT])
           (default (boot [])
              (final (Basic.measuringMenu1 0 [uniform 250 100; uniform 900 100]
                        (boot [Some PROMPT; Some PROMPT]))))).
  left. vm_compute. reflexivity.
Defined.

(** * Time averages *)

Lemma updateTimeAverages_counters r c a :
  (sampleCounter (updateTimeAverages r c a), averageIndex (updateTimeAverages r c a))
  = tick (sampleCounter a, averageIndex a).
Proof.
  unfold updateTimeAverages, tick. cbn [fst snd].
  destruct (10 <=? int (sampleCounter a + 1)); reflexivity.
Qed.

Lemma alter_alter_lengths {A} (f : A -> A) (i c : nat) (t : list (list A)) :
  map length (alter (alter f i) c t) = map length t.
Proof.
  revert c. induction t as [| row t IH]; intros c; [reflexivity |].
  destruct c as [| c]; cbn.
  - now rewrite length_alter.
  - now rewrite IH.
Qed.

Lemma updateTimeAverages_shape r c a :
  map length (timeAverages (updateTimeAverages r c a))
  = map length (timeAverages a).
Proof.
  unfold updateTimeAverages.
  destruct (10 <=? int (sampleCounter a + 1)); cbn [timeAverages];
    now rewrite ?alter_alter_lengths.
Qed.

Lemma averageAll_fold (it : Iteration) (l : list nat) : forall a,
  sampleCounter (fold_left (fun a i => updateTimeAverages (chan (it_spec it) i) i a) l a)
  = fst (ticks l (sampleCounter a, averageIndex a))
  /\ averageIndex (fold_left (fun a i => updateTimeAverages (chan (it_spec it) i) i a) l a)
     = snd (ticks l (sampleCounter a, averageIndex a))
  /\ map length (timeAverages
                   (fold_left (fun a i => updateTimeAverages (chan (it_spec it) i) i a) l a))
     = map length (timeAverages a).
Proof.
  induction l as [| i l IH]; intros a; [repeat split; reflexivity |].
  cbn [fold_left]. 
  destruct (IH (updateTimeAverages (chan (it_spec it) i) i a)) as (H1 & H2 & H3).
  rewrite H1, H2, H3, updateTimeAverages_counters, updateTimeAverages_shape.
  repeat split; reflexivity.
Qed.

Lemma digits_all (z : Z) : 0 <= z < 10 -> In z digits.
Proof. unfold digits. cbn [In]. lia. Qed.

Lemma tick_six_table :
  forallb (fun sc =>
    forallb (fun idx =>
      let p := ticks (seq 0 6) (sc, idx) in
      (fst p =? (sc + 6) mod 10) && (snd p =? (idx + (sc + 6) / 10) mod 10)
      && (0 <=? fst p) && (fst p <? 10) && (0 <=? snd p) && (snd p <? 10))
      digits) digits = true.
Proof. vm_compute. reflexivity. Qed.

Lemma tick_six (sc idx : Z) :
  0 <= sc < 10 -> 0 <= idx < 10 ->
  fst (ticks (seq 0 6) (sc, idx)) = (sc + 6) mod 10
  /\ snd (ticks (seq 0 6) (sc, idx)) = (idx + (sc + 6) / 10) mod 10
  /\ 0 <= fst (ticks (seq 0 6) (sc, idx)) < 10
  /\ 0 <= snd (ticks (seq 0 6) (sc, idx)) < 10.
Proof.
  intros Hs Hi. pose proof tick_six_table as H.
  rewrite forallb_forall in H. specialize (H sc (digits_all sc Hs)).
  rewrite forallb_forall in H. specialize (H idx (digits_all idx Hi)).
  cbv zeta in H. set (p := ticks (seq 0 6) (sc, idx)) in *.
  repeat (apply andb_prop in H; destruct H as [H ?]).
  repeat match goal with
         | E : (_ =? _) = true |- _ => apply Z.eqb_eq in E
         | E : (_ <=? _) = true |- _ => apply Z.leb_le in E
         | E : (_ <? _) = true |- _ => apply Z.ltb_lt in E
         end.
  repeat split; assumption.
Qed.

(** X19.  The sample counter is shared by the six channels.  One pass of the
    update loop counts six samples: with the counters in range, the
    counter moves on by six modulo ten, the column moves on by one
    exactly when the counter passes ten, both stay in range, and the
    table keeps its shape. *)
Theorem averages_counter_shared (it : Iteration) (a : Averages) :
  countersOK a ->
  sampleCounter (averageAll it a) = (sampleCounter a + 6) mod 10
  /\ averageIndex (averageAll it a)
     = (averageIndex a + (sampleCounter a + 6) / 10) mod 10
  /\ countersOK (averageAll it a)
  /\ map length (timeAverages (averageAll it a)) = map length (timeAverages a).
Proof.
  intros [Hs Hi]. unfold averageAll, countersOK.
  destruct (averageAll_fold it (seq 0 6) a) as (H1 & H2 & H3).
  rewrite H1, H2, H3.
  destruct (tick_six (sampleCounter a) (averageIndex a) Hs Hi)
    as (T1 & T2 & T3 & T4).
  repeat split; first [exact T1 | exact T2 | apply T3 | apply T4].
Qed.

Lemma averages_counter_shared_witness :
  sampleCounter (averageAll (uniform 250 100) (mkAverages (replicate 6 (replicate 10 (Fin 0))) 6 9))
  = (6 + 6) mod 10
  /\ averageIndex (averageAll (uniform 250 100)
                     (mkAverages (replicate 6 (replicate 10 (Fin 0))) 6 9))
     = (9 + (6 + 6) / 10) mod 10
  /\ countersOK (averageAll (uniform 250 100)
                   (mkAverages (replicate 6 (replicate 10 (Fin 0))) 6 9))
  /\ map length (timeAverages (averageAll (uniform 250 100)
                   (mkAverages (replicate 6 (replicate 10 (Fin 0))) 6 9)))
     = map length (replicate 6 (replicate 10 (Fin 0))).
Proof.
  apply (averages_counter_shared (uniform 250 100)
           (mkAverages (replicate 6 (replicate 10 (Fin 0))) 6 9)).
  split; cbn; lia.
Defined.

Lemma six_rows {A} (t : list A) :
  length t = 6%nat -> exists r0 r1 r2 r3 r4 r5, t = [r0; r1; r2; r3; r4; r5].
Proof.
  intros H. do 6 (destruct t as [| ? t]; [discriminate H |]).
  destruct t; [| discriminate H]. now eexists _, _, _, _, _, _.
Qed.

Lemma even_digit (z : Z) :
  0 <= z < 10 -> Z.even z = true -> z = 0 \/ z = 2 \/ z = 4 \/ z = 6 \/ z = 8.
Proof.
  intros H E.
  assert (D : z = 0 \/ z = 1 \/ z = 2 \/ z = 3 \/ z = 4 \/ z = 5 \/ z = 6
              \/ z = 7 \/ z = 8 \/ z = 9) by lia.
  destruct D as [-> | [-> | [-> | [-> | [-> | [-> | [-> | [-> | [-> | ->]]]]]]]]];
    try discriminate E; tauto.
Qed.

Lemma any_digit (z : Z) :
  0 <= z < 10 ->
  z = 0 \/ z = 1 \/ z = 2 \/ z = 3 \/ z = 4 \/ z = 5 \/ z = 6 \/ z = 7 \/ z = 8 \/ z = 9.
Proof. lia. Qed.

Lemma even_channels_rows (sc idx : Z) (c : nat) (spec : list float)
    (r0 r1 r2 r3 r4 r5 : list float) :
  (sc = 0 \/ sc = 2 \/ sc = 4 \/ sc = 6 \/ sc = 8) ->
  0 <= idx < 10 ->
  c = 0%nat \/ c = 2%nat \/ c = 4%nat ->
  timeAverages
    (fold_left (fun a i => updateTimeAverages (chan spec i) i a) (seq 0 6)
               (mkAverages [r0; r1; r2; r3; r4; r5] sc idx)) !! c
  = alter (fun v => fadd v (chan spec c))
          (Z.to_nat ((idx + (sc + Z.of_nat c) / 10) mod 10))
    <$> ([r0; r1; r2; r3; r4; r5] !! c).
Proof.
  intros Hs Hi Hc.
  destruct Hs as [-> | [-> | [-> | [-> | ->]]]];
    destruct Hc as [-> | [-> | ->]];
    destruct (any_digit idx Hi)
      as [-> | [-> | [-> | [-> | [-> | [-> | [-> | [-> | [-> | ->]]]]]]]]];
    reflexivity.
Qed.

(** X20.  Red, yellow and blue are summed, never averaged.  The sample counter
    starts even and a pass adds six to it, so it stays even, and the
    tenth call, the one that divides by ten, always falls to an odd
    channel: after a pass the row of channel 0, 2 or 4 is the row before
    with the reading added to one cell and nothing divided. *)
Theorem even_channels_only_summed (it : Iteration) (a : Averages) (c : nat) :
  countersOK a ->
  Z.even (sampleCounter a) = true ->
  length (timeAverages a) = 6%nat ->
  c = 0%nat \/ c = 2%nat \/ c = 4%nat ->
  timeAverages (averageAll it a) !! c
  = alter (fun v => fadd v (chan (it_spec it) c))
          (Z.to_nat ((averageIndex a + (sampleCounter a + Z.of_nat c) / 10) mod 10))
    <$> (timeAverages a !! c)
  /\ Z.even (sampleCounter (averageAll it a)) = true.
Proof.
  intros [Hs Hi] He Hl Hc. split.
  - destruct (six_rows _ Hl) as (r0 & r1 & r2 & r3 & r4 & r5 & Et).
    destruct a as [t sc idx]. cbn [timeAverages sampleCounter averageIndex] in *.
    subst t. unfold averageAll.
    apply even_channels_rows; [apply even_digit | |]; assumption.
  - destruct (averageAll_fold it (seq 0 6) a) as (H1 & _ & _).
    unfold averageAll. rewrite H1.
    destruct (tick_six (sampleCounter a) (averageIndex a) Hs Hi) as (T1 & _).
    rewrite T1.
    destruct (even_digit _ Hs He) as [-> | [-> | [-> | [-> | ->]]]]; reflexivity.
Qed.

Lemma even_channels_only_summed_witness :
  timeAverages (averageAll (uniform 250 100)
                           (mkAverages (replicate 6 (replicate 10 (Fin 0))) 4 9)) !! 2%nat
  = alter (fun v => fadd v (chan (it_spec (uniform 250 100)) 2))
          (Z.to_nat ((9 + (4 + Z.of_nat 2) / 10) mod 10))
    <$> (replicate 6 (replicate 10 (Fin 0)) !! 2%nat)
  /\ Z.even (sampleCounter (averageAll (uniform 250 100)
                              (mkAverages (replicate 6 (replicate 10 (Fin 0))) 4 9)))
     = true.
Proof.
  apply (even_channels_only_summed (uniform 250 100)
           (mkAverages (replicate 6 (replicate 10 (Fin 0))) 4 9) 2).
  - split; cbn; lia.
  - reflexivity.
  - reflexivity.
  - right. left. reflexivity.
Defined.

(** * The two buttons *)

Lemma int8_idem (z : Z) : int8 (int8 z) = int8 z.
Proof.
  unfold int8, wrap_signed.
  change (2 ^ (8 - 1)) with 128. change (2 ^ 8) with 256.
  replace ((z + 128) mod 256 - 128 + 128) with ((z + 128) mod 256) by lia.
  now rewrite Z.mod_mod by lia.
Qed.

Lemma last_cons_default {A} (l : list A) : forall q d,
  List.last (q :: l) d = List.last l q.
Proof.
  induction l as [| x l IH]; intros q d; [reflexivity |].
  change (List.last (q :: x :: l) d) with (List.last (x :: l) d).
  rewrite (IH x d), (IH x q). reflexivity.
Qed.

Lemma buttonsLoop_edge (before : Z * Z) (quiet : list (Z * Z)) : forall p rest,
  noEdges before quiet = true ->
  edge (fst (List.last quiet before)) (fst p) || edge (snd (List.last quiet before)) (snd p)
  = true ->
  buttonsLoop (int8 (fst before)) (int8 (snd before)) (quiet ++ p :: rest)
  = Some (if edge (fst (List.last quiet before)) (fst p) then 1 else 0,
          int8 (fst p), int8 (snd p))
  /\ buttonsLoop (int8 (fst before)) (int8 (snd before)) quiet = None.
Proof.
  revert before. induction quiet as [| q quiet IH]; intros before p rest Hq He.
  - cbn [app List.last buttonsLoop] in *. destruct p as [s w]. cbn [fst snd] in *.
    unfold edge in *. split; [| reflexivity].
    destruct ((int8 s =? 1) && (int8 (fst before) =? 0)); [reflexivity |].
    cbn [orb] in He. now rewrite He.
  - cbn [noEdges] in Hq.
    apply andb_prop in Hq as [Hq Hq3]. apply andb_prop in Hq as [Hq1 Hq2].
    apply negb_true_iff in Hq1, Hq2.
    assert (El : List.last (q :: quiet) before = List.last quiet q)
      by apply last_cons_default.
    rewrite El in *.
    destruct q as [s w]. cbn [app buttonsLoop fst snd] in *.
    unfold edge in Hq1, Hq2. cbn [fst snd] in Hq1, Hq2. rewrite Hq1, Hq2.
    exact (IH (s, w) p rest Hq3 He).
Qed.

(** X21.  [buttons] returns at the first poll that finds a rising edge on either
    pin, with 1 when the select pin rose (also when both rose at that
    poll) and 0 when only the switch pin did; as long as no poll finds an
    edge it has not returned. *)
Theorem buttons_first_rising_edge (first : Z * Z) (quiet : list (Z * Z))
    (p : Z * Z) (rest : list (Z * Z)) :
  noEdges first quiet = true ->
  edge (fst (List.last quiet first)) (fst p) || edge (snd (List.last quiet first)) (snd p)
  = true ->
  buttons first (quiet ++ p :: rest)
  = Some (if edge (fst (List.last quiet first)) (fst p) then 1 else 0,
          int8 (fst p), int8 (snd p))
  /\ buttons first quiet = None.
Proof. intros Hq He. unfold buttons. now apply buttonsLoop_edge. Qed.

Lemma buttons_first_rising_edge_witness :
  buttons (1, 0) ([(1, 0); (0, 0)] ++ (1, 1) :: [(0, 0)])
  = Some (if edge (fst (List.last [(1, 0); (0, 0)] (1, 0))) (fst (1, 1)) then 1 else 0,
          int8 (fst (1, 1)), int8 (snd (1, 1)))
  /\ buttons (1, 0) [(1, 0); (0, 0)] = None.
Proof.
  apply (buttons_first_rising_edge (1, 0) [(1, 0); (0, 0)] (1, 1) [(0, 0)]);
    reflexivity.
Defined.

(** * The sampling rate of the advanced sketch *)

Lemma wrap_signed_small (bits k z : Z) :
  0 <= k < bits -> 0 <= z < 2 ^ k -> wrap_signed bits z = z.
Proof.
  intros Hk Hz. unfold wrap_signed.
  assert (Hp : 2 ^ k <= 2 ^ (bits - 1)) by (apply Z.pow_le_mono_r; lia).
  assert (Hb : 2 ^ bits = 2 * 2 ^ (bits - 1)).
  { replace bits with (Z.succ (bits - 1)) at 1 by lia.
    apply Z.pow_succ_r. lia. }
  rewrite Z.mod_small; lia.
Qed.

Lemma ms_time_at (bits : Z) : 16 <= bits -> AdvancedAt.ms_time bits = 6000.
Proof.
  intros H. unfold AdvancedAt.ms_time.
  apply (wrap_signed_small bits 15); [lia |]. unfold maxlen. simpl. lia.
Qed.

Lemma captureInitial_datalen it st : datalen (captureInitial it st) = datalen st.
Proof. unfold captureInitial. now destruct (negb (initialTaken st)). Qed.

(** The model's step is the step at the model's width. *)
Lemma AdvancedAt_model (it : Iteration) (st : MeasureState) :
  AdvancedAt.sample int_bits it st = Advanced.sample it st.
Proof. reflexivity. Qed.

(** The counter never passes [maxlen], and moves by one at most. *)
Lemma AdvancedAt_sample_cap (bits : Z) (it : Iteration) (st : MeasureState) :
  16 <= bits -> 0 <= datalen st <= maxlen ->
  0 <= datalen (AdvancedAt.sample bits it st) <= maxlen
  /\ datalen st <= datalen (AdvancedAt.sample bits it st) <= datalen st + 1
  /\ (datalen (AdvancedAt.sample bits it st) = datalen st + 1 ->
      AdvancedAt.accepts bits (it_time it) (captureInitial it st) = true).
Proof.
  intros Hb Hd. unfold AdvancedAt.sample.
  pose proof (captureInitial_datalen it st) as Ec.
  destruct (AdvancedAt.accepts bits (it_time it) (captureInitial it st)) eqn:Ea.
  - unfold AdvancedAt.accepts in Ea. rewrite Ec in Ea.
    apply andb_prop in Ea as [E1 _]. apply Z.ltb_lt in E1. unfold maxlen in *.
    destruct (AdvancedAt.accumulate bits _ it _) as [x2' xy']. cbn [datalen].
    rewrite Ec, (wrap_signed_small bits 15) by (simpl; lia). lia.
  - rewrite Ec. lia.
Qed.

(** With an [int] of 20 bits or more the product [datalen * ms_time] does
    not wrap, and an accepted sample comes late enough. *)
Lemma AdvancedAt_accepts_late (bits t : Z) (st : MeasureState) :
  20 <= bits -> 0 <= datalen st <= maxlen -> datalen st * 6000 <= t < 2 ^ 32 ->
  AdvancedAt.accepts bits t st = true ->
  (datalen st + 1) * 6000 < t.
Proof.
  intros Hb Hd Ht Ea. unfold AdvancedAt.accepts in Ea.
  rewrite ms_time_at in Ea by lia.
  apply andb_prop in Ea as [_ E2]. apply Z.ltb_lt in E2. unfold maxlen in *.
  rewrite (wrap_signed_small bits 19) in E2 by (simpl; lia).
  rewrite ulong_small in E2 by lia. lia.
Qed.

Lemma AdvancedAt_run_cap (bits : Z) (its : list Iteration) : forall st,
  16 <= bits -> 0 <= datalen st <= maxlen ->
  datalen st <= datalen (runSamples (AdvancedAt.sample bits) its st) <= maxlen.
Proof.
  induction its as [| it its IH]; intros st Hb Hd; [cbn; lia |].
  change (runSamples (AdvancedAt.sample bits) (it :: its) st)
    with (runSamples (AdvancedAt.sample bits) its (AdvancedAt.sample bits it st)).
  destruct (AdvancedAt_sample_cap bits it st Hb Hd) as (S1 & S2 & _).
  specialize (IH (AdvancedAt.sample bits it st) Hb S1). lia.
Qed.

Lemma AdvancedAt_run_rate (bits : Z) (its : list Iteration) : forall st t T,
  20 <= bits ->
  clockFrom t its ->
  Forall (fun it => it_time it <= T) its ->
  t <= T ->
  0 <= datalen st <= maxlen ->
  datalen st * 6000 <= t ->
  datalen (runSamples (AdvancedAt.sample bits) its st) * 6000 <= T
  /\ (datalen st < datalen (runSamples (AdvancedAt.sample bits) its st) ->
      datalen (runSamples (AdvancedAt.sample bits) its st) * 6000 < T).
Proof.
  induction its as [| it its IH]; intros st t T Hb Hc Hall HT Hd Hp.
  - cbn. lia.
  - cbn [clockFrom] in Hc. destruct Hc as [Ht Hc].
    apply Forall_cons in Hall as [HitT Hall].
    destruct (AdvancedAt_sample_cap bits it st ltac:(lia) Hd) as (S1 & S2 & S3).
    assert (S4 : datalen (AdvancedAt.sample bits it st) * 6000 <= it_time it).
    { destruct (Z.eq_dec (datalen (AdvancedAt.sample bits it st)) (datalen st + 1))
        as [E | E].
      - pose proof (AdvancedAt_accepts_late bits (it_time it) (captureInitial it st)
                      Hb) as H.
        rewrite captureInitial_datalen in H.
        specialize (H Hd ltac:(lia) (S3 E)). lia.
      - lia. }
    change (runSamples (AdvancedAt.sample bits) (it :: its) st)
      with (runSamples (AdvancedAt.sample bits) its (AdvancedAt.sample bits it st)).
    destruct (IH (AdvancedAt.sample bits it st) (it_time it) T Hb Hc Hall HitT S1 S4)
      as (R2 & R3).
    split; [exact R2 |]. intros Hlt.
    pose proof (AdvancedAt_run_cap bits its (AdvancedAt.sample bits it st)
                  ltac:(lia) S1) as Hmono.
    destruct (Z.eq_dec (datalen (runSamples (AdvancedAt.sample bits) its
                                   (AdvancedAt.sample bits it st)))
                       (datalen (AdvancedAt.sample bits it st))) as [E | E].
    + rewrite E in *.
      assert (E1 : datalen (AdvancedAt.sample bits it st) = datalen st + 1) by lia.
      pose proof (AdvancedAt_accepts_late bits (it_time it) (captureInitial it st)
                    Hb) as H.
      rewrite captureInitial_datalen in H.
      specialize (H Hd ltac:(lia) (S3 E1)). lia.
    + apply R3. lia.
Qed.

(** X22.  The sampling rate of the advanced sketch depends on the width of
    [int].  With a clock that does not run backwards and an [int] of at
    least 16 bits, a session accepts at most [maxlen] samples.  With an
    [int] of at least 20 bits, as the 32 bits of this model, a session
    that has lasted [T] ms and accepted [n] > 0 samples has
    [n * 6000 < T]: the [n]-th sample is taken more than [n] times six
    seconds into the session.  With the 16-bit [int] of the Arduino Uno
    the product [datalen * ms_time] wraps from the sixth sample on and the
    limit is lost: ten samples are accepted within 37.009 s. *)
Theorem advanced_sampling_rate (bits : Z) (its : list Iteration) (T : Z) :
  16 <= bits ->
  clockFrom 0 its ->
  Forall (fun it => it_time it <= T) its ->
  0 <= T ->
  0 <= datalen (runSamples (AdvancedAt.sample bits) its initState) <= maxlen
  /\ (20 <= bits ->
      0 < datalen (runSamples (AdvancedAt.sample bits) its initState) ->
      datalen (runSamples (AdvancedAt.sample bits) its initState) * 6000 < T)
  /\ (bits = int_bits ->
      runSamples (AdvancedAt.sample bits) its initState
      = runSamples Advanced.sample its initState)
  /\ datalen (runSamples (AdvancedAt.sample 16) tenPasses initState) = 10.
Proof.
  intros Hb Hc Hall HT. split; [| split; [| split]].
  - apply (AdvancedAt_run_cap bits its initState Hb). cbn. unfold maxlen. lia.
  - intros Hb20 Hpos.
    destruct (AdvancedAt_run_rate bits its initState 0 T Hb20 Hc Hall HT) as (_ & R3).
    + cbn. unfold maxlen. lia.
    + cbn. lia.
    + apply R3. exact Hpos.
  - intros ->. reflexivity.
  - vm_compute. reflexivity.
Qed.

Lemma advanced_sampling_rate_witness :
  0 <= datalen (runSamples (AdvancedAt.sample 32)
                  [uniform 250 100; uniform 7000 110; uniform 9000 115;
                   uniform 14000 120; uniform 14001 120] initState) <= maxlen
  /\ (20 <= 32 ->
      0 < datalen (runSamples (AdvancedAt.sample 32)
                     [uniform 250 100; uniform 7000 110; uniform 9000 115;
                      uniform 14000 120; uniform 14001 120] initState) ->
      datalen (runSamples (AdvancedAt.sample 32)
                 [uniform 250 100; uniform 7000 110; uniform 9000 115;
                  uniform 14000 120; uniform 14001 120] initState) * 6000 < 14001)
  /\ (32 = int_bits ->
      runSamples (AdvancedAt.sample 32)
        [uniform 250 100; uniform 7000 110; uniform 9000 115;
         uniform 14000 120; uniform 14001 120] initState
      = runSamples Advanced.sample
          [uniform 250 100; uniform 7000 110; uniform 9000 115;
           uniform 14000 120; uniform 14001 120] initState)
  /\ datalen (runSamples (AdvancedAt.sample 16) tenPasses initState) = 10.
Proof.
  apply (advanced_sampling_rate 32
           [uniform 250 100; uniform 7000 110; uniform 9000 115;
            uniform 14000 120; uniform 14001 120]
           14001).
  - lia.
  - cbn. lia.
  - repeat constructor; cbn; lia.
  - lia.
Defined.

(** * The log *)

Lemma Basic_sampleDevice_tx it st d :
  tx (Basic.sampleDevice it st d)
  = tx d ++ Basic.logData (it_time it) (it_spec it) (it_uv it).
Proof.
  unfold Basic.sampleDevice.
  destruct (Basic.accepts (it_time it) (captureInitial it st)); reflexivity.
Qed.

Lemma Basic_leaves_tx sel it d : tx (snd (Basic.leaves sel it d)) = tx d.
Proof.
  unfold Basic.leaves.
  destruct (fge (current_time_total_minutes (it_time it)) (of_Z 5)); [reflexivity |].
  destruct (buttonLoop 80 0 sel (it_select it) (selectState d)); reflexivity.
Qed.

Lemma Basic_loop_rows sel (its : list Iteration) : forall n st d,
  let r := Basic.measuringLoop sel its n st d in
  exists k, passes r = (n + k)%nat /\ (k <= length its)%nat
            /\ tx (after r) = tx d ++ rowsOf Basic.logData (take k its).
Proof.
  induction its as [| it its IH]; intros n st d; cbn zeta.
  - exists O. cbn. rewrite app_nil_r. repeat split; lia.
  - cbn [Basic.measuringLoop].
    pose proof (Basic_leaves_tx sel it (Basic.sampleDevice it st d)) as Hl.
    destruct (Basic.leaves sel it (Basic.sampleDevice it st d)) as [stop d'].
    cbn [snd] in Hl. rewrite Basic_sampleDevice_tx in Hl.
    destruct stop.
    + exists 1%nat. cbn [passes after length take]. unfold rowsOf.
      cbn [flat_map]. rewrite app_nil_r. repeat split; try lia. exact Hl.
    + destruct (IH (S n) (Basic.sample it st) d') as (k & H1 & H2 & H3).
      exists (S k). rewrite H1, H3, Hl. cbn [length take]. unfold rowsOf.
      cbn [flat_map]. rewrite <- app_assoc. repeat split; lia.
Qed.

Lemma Advanced_sampleDevice_tx name it st d d1 :
  Advanced.sampleDevice name it st d = Some d1 ->
  tx d1 = tx d ++ Advanced.logData name (it_time it) (it_spec it) (it_uv it).
Proof.
  unfold Advanced.sampleDevice.
  set (d0 := if Advanced.accepts (it_time it) (captureInitial it st)
             then set_averages (averageAll it (averages d)) d else d).
  assert (E0 : tx d0 = tx d).
  { subst d0. destruct (Advanced.accepts _ _); reflexivity. }
  destruct (Advanced.graphAll it (graphs d0)) as [g |]; cbn [mbind option_bind].
  - intros [= <-]. cbn [tx set_tx]. now rewrite E0.
  - discriminate.
Qed.

Lemma Advanced_leaves_tx sel it d : tx (snd (Advanced.leaves sel it d)) = tx d.
Proof.
  unfold Advanced.leaves.
  destruct (60 <=? Advanced.current_time_minutes (it_time it)); [reflexivity |].
  destruct (buttonLoop 80 0 sel (it_select it) (selectState d)); reflexivity.
Qed.

Lemma Advanced_loop_rows name sel (its : list Iteration) : forall n st d r,
  Advanced.measuringLoop name sel its n st d = Some r ->
  exists k, passes r = (n + k)%nat /\ (k <= length its)%nat
            /\ tx (after r) = tx d ++ rowsOf (Advanced.logData name) (take k its).
Proof.
  induction its as [| it its IH]; intros n st d r; cbn [Advanced.measuringLoop].
  - intros [= <-]. exists O. cbn. rewrite app_nil_r. repeat split; lia.
  - pose proof (Advanced_sampleDevice_tx name it st d) as Hs.
    destruct (Advanced.sampleDevice name it st d) as [d1 |]; [| discriminate].
    specialize (Hs d1 eq_refl). cbn [mbind option_bind].
    pose proof (Advanced_leaves_tx sel it d1) as Hl.
    destruct (Advanced.leaves sel it d1) as [stop d'].
    cbn [snd] in Hl. rewrite Hs in Hl.
    destruct stop.
    + intros [= <-]. exists 1%nat. cbn [passes after length take]. unfold rowsOf.
      cbn [flat_map]. rewrite app_nil_r. repeat split; try lia. exact Hl.
    + intros H. destruct (IH (S n) _ d' r H) as (k & H1 & H2 & H3).
      exists (S k). rewrite H1, H3, Hl. cbn [length take]. unfold rowsOf.
      cbn [flat_map]. rewrite <- app_assoc. repeat split; lia.
Qed.

(** X23.  The log is not rate limited.  Every pass of the measuring loop, in
    either sketch, appends exactly one row to the log, whether or not its
    sample was added to the sums: what the loop has sent when it stops is
    the rows of the passes it made, in their order. *)
Theorem log_has_one_row_per_pass (name : string) (sel : Z)
    (its : list Iteration) (d : Device) :
  ((passes (Basic.measuringLoop sel its 0 initState d) <= length its)%nat
   /\ tx (after (Basic.measuringLoop sel its 0 initState d))
      = tx d ++ rowsOf Basic.logData
                  (take (passes (Basic.measuringLoop sel its 0 initState d)) its))
  /\ forall r,
       Advanced.measuringLoop name sel its 0 initState d = Some r ->
       (passes r <= length its)%nat
       /\ tx (after r)
          = tx d ++ rowsOf (Advanced.logData name) (take (passes r) its).
Proof.
  split.
  - destruct (Basic_loop_rows sel its 0 initState d) as (k & H1 & H2 & H3).
    cbn zeta in *. rewrite H1. cbn [Nat.add]. split; [exact H2 | exact H3].
  - intros r H.
    destruct (Advanced_loop_rows name sel its 0 initState d r H)
      as (k & H1 & H2 & H3).
    rewrite H1. cbn [Nat.add]. split; [exact H2 | exact H3].
Qed.

Lemma log_has_one_row_per_pass_witness :
  (passes (default (mkLoopResult false initState 0 (boot []))
             (Advanced.measuringLoop "LOG0.CSV" 0
                [uniform 250 0; uniform 7000 5] 0 initState (boot [])))
   <= length [uniform 250 0; uniform 7000 5])%nat
  /\ tx (after (default (mkLoopResult false initState 0 (boot []))
                  (Advanced.measuringLoop "LOG0.CSV" 0
                     [uniform 250 0; uniform 7000 5] 0 initState (boot []))))
     = tx (boot [])
       ++ rowsOf (Advanced.logData "LOG0.CSV")
            (take (passes (default (mkLoopResult false initState 0 (boot []))
                             (Advanced.measuringLoop "LOG0.CSV" 0
                                [uniform 250 0; uniform 7000 5] 0 initState
                                (boot []))))
                  [uniform 250 0; uniform 7000 5]).
Proof.
  apply (proj2 (log_has_one_row_per_pass "LOG0.CSV" 0
                  [uniform 250 0; uniform 7000 5] (boot []))
               (default (mkLoopResult false initState 0 (boot []))
                  (Advanced.measuringLoop "LOG0.CSV" 0
                     [uniform 250 0; uniform 7000 5] 0 initState (boot [])))).
  vm_compute. reflexivity.
Defined.
